(** * Workspace splitter: channel selection, parameter roles, dataset
      rebuilding and formula rewriting

    A shallow embedding of [splitter.cxx] (class [splitter]) together with
    the properties of its channel index parser ([splitter::fillIndices]),
    its per-channel bookkeeping ([splitter::makeWorkspace]), its dataset
    copy ([splitter::rebuildCatData]) and its formula rewriter
    ([splitter::editRFV]).

    Conventions.
    - A C++ [int] is a [Z]; where the C++ standard leaves an operation on
      [int] undefined (conversion of an unrepresentable value, signed
      overflow) the embedding returns the fault [Undefined].
    - A finite [double] is a rational ([Q]).  The embedded code never does
      arithmetic on doubles itself: it copies them, converts one to [int]
      and hands them to ROOT.  The ROOT routines that do floating-point
      work ([RooAbsData::sumEntries], [RooAbsData::createHistogram]) and
      [TMath::Sort] (built on [std::sort], which fixes no order among
      equal keys) are parameters of the embedding.
    - A run that ends in [auxUtil::alertAndAbort], in a failed [assert] or
      in the use of a null pointer is a [Fault]; [assert] is taken as
      compiled in.
    - [m_keep], the list that only keeps intermediate objects alive, has
      no influence on any result and is left out. *)

From Stdlib Require Import ZArith QArith Ascii String List Lia DecimalString DecimalNat.
From Stdlib Require Import Qround Lqa Permutation Sorted.
From stdpp Require Import base option list strings gmap sorting.

#[local] Set Warnings "-register-all".
Local Open Scope string_scope.

(** ** Outcomes of a run *)

Inductive fault : Type :=
| Abort (msg : string)   (* auxUtil::alertAndAbort(msg) *)
| AssertFailed           (* assert(e) with e false *)
| NullDeref              (* a null pointer is dereferenced *)
| Undefined.             (* int overflow, unrepresentable conversion *)

Inductive outcome (A : Type) : Type :=
| Ok (a : A)
| Fault (f : fault).
Arguments Ok {A} a.
Arguments Fault {A} f.

Definition bind {A B : Type} (m : outcome A) (k : A -> outcome B) : outcome B :=
  match m with
  | Ok a => k a
  | Fault f => Fault f
  end.

Notation "'let!' x ':=' m 'in' k" := (bind m (fun x => k))
  (at level 10, x name, m at level 100, k at level 200).

(** ** C++ [int] *)

Definition INT_MAX : Z := 2147483647.
Definition INT_MIN : Z := -2147483648.

Definition in_int (z : Z) : bool := ((INT_MIN <=? z) && (z <=? INT_MAX))%Z.

(** [for (int t = lo; t <= hi; t++)]: the values [t] takes. *)
Definition int_range (lo hi : Z) : list Z := seqZ lo (hi - lo + 1).

(** ** ROOT's [TString], as far as the splitter uses it *)

Module TString.

Definition isspace (c : ascii) : bool :=
  let n := N_of_ascii c in ((n =? 32) || ((9 <=? n) && (n <=? 13)))%N.

Definition isdigit (c : ascii) : bool :=
  let n := N_of_ascii c in ((48 <=? n) && (n <=? 57))%N.

Definition digit_value (c : ascii) : Z := (Z.of_N (N_of_ascii c) - 48)%Z.

Definition tolower (c : ascii) : ascii :=
  let n := N_of_ascii c in
  if ((65 <=? n) && (n <=? 90))%N then ascii_of_N (n + 32) else c.

(** [TString::ToLower] *)
Fixpoint ToLower (s : string) : string :=
  match s with
  | EmptyString => EmptyString
  | String c t => String (tolower c) (ToLower t)
  end.

(** [TString::Contains(pat)]: [Index(pat) != kNPOS]. *)
Fixpoint Contains (pat s : string) : bool :=
  String.prefix pat s ||
  match s with
  | EmptyString => false
  | String _ t => Contains pat t
  end.

(** [TString::ReplaceAll(s1, s2)]: scans left to right; at each match
    of [s1] the match is replaced by [s2] and the scan goes on behind
    the inserted text.  [skip] counts the characters of a match still
    to be passed over. *)
Fixpoint ReplaceAll_scan (s1 s2 : string) (skip : nat) (s : string) : string :=
  match s with
  | EmptyString => EmptyString
  | String c t =>
      match skip with
      | S k => ReplaceAll_scan s1 s2 k t
      | O =>
          if String.prefix s1 s
          then s2 +:+ ReplaceAll_scan s1 s2 (String.length s1 - 1) t
          else String c (ReplaceAll_scan s1 s2 0 t)
      end
  end.

Definition ReplaceAll (s1 s2 s : string) : string :=
  match s1 with
  | EmptyString => s            (* ls1 > 0 is required *)
  | _ => ReplaceAll_scan s1 s2 0 s
  end.

Fixpoint is_delim (delim : string) (c : ascii) : bool :=
  match delim with
  | EmptyString => false
  | String d r => Ascii.eqb d c || is_delim r c
  end.

(** [TString::Tokenize(delim)]: the maximal runs of characters that are
    not in [delim]; empty runs give no token.  [cur] is the run read so
    far. *)
Fixpoint Tokenize_from (delim : string) (cur : string) (s : string) : list string :=
  match s with
  | EmptyString =>
      match cur with EmptyString => [] | _ => [cur] end
  | String c t =>
      if is_delim delim c
      then match cur with
           | EmptyString => Tokenize_from delim EmptyString t
           | _ => cur :: Tokenize_from delim EmptyString t
           end
      else Tokenize_from delim (cur +:+ String c EmptyString) t
  end.

Definition Tokenize (delim s : string) : list string :=
  Tokenize_from delim EmptyString s.

(** C's [atoi]: leading white space, an optional sign, then the longest
    run of digits (0 when there is none).  A value that does not fit in
    [int] is undefined. *)
Fixpoint skip_space (s : string) : string :=
  match s with
  | String c t => if isspace c then skip_space t else s
  | EmptyString => EmptyString
  end.

Fixpoint digits (acc : Z) (s : string) : Z :=
  match s with
  | String c t => if isdigit c then digits (acc * 10 + digit_value c)%Z t else acc
  | EmptyString => acc
  end.

Definition atoi_value (s : string) : Z :=
  match skip_space s with
  | String "-" t => (- digits 0 t)%Z
  | String "+" t => digits 0 t
  | t => digits 0 t
  end.

Definition atoi (s : string) : outcome Z :=
  let v := atoi_value s in
  if in_int v then Ok v else Fault Undefined.

(** [TString::Atoi]: every blank is dropped, then [atoi]. *)
Definition Atoi (s : string) : outcome Z := atoi (ReplaceAll " " "" s).

(** [TString::Format("@%d", i)] *)
Definition Format_at (i : nat) : string :=
  "@" +:+ NilEmpty.string_of_uint (Nat.to_uint i).

End TString.

(** ** [auxUtil] *)

Module auxUtil.

(** Modelled from the spec: [auxUtil::removeWhiteSpace], which is not
    among the sources ("Whitespace inside tokens is stripped before
    parsing"): every white-space character is removed. *)
Fixpoint removeWhiteSpace (s : string) : string :=
  match s with
  | EmptyString => EmptyString
  | String c t =>
      if TString.isspace c then removeWhiteSpace t
      else String c (removeWhiteSpace t)
  end.

End auxUtil.

(** ** RooFit collections *)

(** [TNamed::GetName], which every RooFit object answers. *)
Class TNamed (A : Type) : Type := GetName : A -> string.

(** [RooAbsCollection::find(name)] *)
Definition RooArgSet_find {A : Type} `{TNamed A} (set : list A) (name : string)
  : option A :=
  List.find (fun b => String.eqb (GetName b) name) set.

(** [RooArgSet::add]: an argument whose name is already in the set is not
    added, the set stays as it is. *)
Definition RooArgSet_add {A : Type} `{TNamed A} (set : list A) (a : A) : list A :=
  match RooArgSet_find set (GetName a) with
  | Some _ => set
  | None => (set ++ [a])%list
  end.

(** ** The splitter *)

Module splitter.

Definition WGTNAME : string := "_weight_".
Definition PDFPOSTFIX : string := "_deComposed".

(** *** Channel index parser ([splitter::fillIndices]) *)

(** The body of the loop over the comma-separated tokens: [iStr] is the
    token, [m_useIndices] the indices collected so far. *)
Definition fillIndices_token (iStr : string) (m_useIndices : list Z)
  : outcome (list Z) :=
  match TString.Tokenize "-" iStr with
  | [jStr0] =>
      let jStr := TString.ReplaceAll " " "" jStr0 in
      let! v := TString.Atoi jStr in
      Ok (m_useIndices ++ [v])%list
  | [str1; str2] =>
      let! int1 := TString.Atoi str1 in
      let! int2 := TString.Atoi str2 in
      if (int1 <=? int2)%Z
      then if (int2 =? INT_MAX)%Z
           then Fault Undefined          (* t++ overflows *)
           else Ok (m_useIndices ++ int_range int1 int2)%list
      else Fault AssertFailed            (* assert(int1 <= int2) *)
  | _ => Fault (Abort ("Invalid syntax " +:+ iStr))
  end.

Fixpoint fillIndices_tokens (iArray : list string) (m_useIndices : list Z)
  : outcome (list Z) :=
  match iArray with
  | [] => Ok m_useIndices
  | iStr :: rest =>
      let! m := fillIndices_token iStr m_useIndices in
      fillIndices_tokens rest m
  end.

(** [numBins] is [m_cat->numBins(0)], the number of channels. *)
Definition fillIndices (numBins : Z) (indices : string) (m_useIndices : list Z)
  : outcome (list Z) :=
  let indices := TString.ToLower indices in
  if String.eqb indices "all"
  then Ok (m_useIndices ++ int_range 0 (numBins - 1))%list
  else
    let indices := auxUtil.removeWhiteSpace indices in
    fillIndices_tokens (TString.Tokenize "," indices) m_useIndices.


(** *** Formula rewriter ([splitter::editRFV]) *)

(** A node of the expression graph.  The rewriter tells a
    [RooFormulaVar] from every other class by [typeid] and reads a
    formula's name, expression text and dependents ([dependents()],
    [getParameter(i)]); of any other node it reads the name only. *)
Inductive RooAbsArg : Type :=
| RooFormulaVar (name expression : string) (dependents : list RooAbsArg)
| RooOtherArg (name : string).

#[export] Instance RooAbsArg_named : TNamed RooAbsArg :=
  fun a => match a with
           | RooFormulaVar n _ _ => n
           | RooOtherArg n => n
           end.

(** First loop of the raw-name case: [reNameMap[oldName] = newName] for
    the dependents from index [i] on. *)
Fixpoint fill_reNameMap (i : nat) (allOldNames : list string)
    (reNameMap : gmap string string) : gmap string string :=
  match allOldNames with
  | [] => reNameMap
  | oldName :: rest =>
      fill_reNameMap (S i) rest (<[oldName := TString.Format_at i]> reNameMap)
  end.

Section Rewriter.

(** [TMath::Sort(num, &nameLength[0], &indice[0], true)]: from the keys
    to the index array it fills. *)
Variable TMath_Sort : list nat -> list nat.

(** [m_editRFV], the configured edit mode. *)
Variable m_editRFV : Z.

(** Second loop of the raw-name case.  [TMath::Sort] hands back indices
    below [num], and every old name is a key of [reNameMap]; the
    defaults stand for what is never read. *)
Definition replaceNames (allOldNames : list string)
    (reNameMap : gmap string string) (indice : list nat)
    (formExpr : string) : string :=
  fold_left
    (fun newFormExpr index =>
       let oldName := default "" (allOldNames !! index) in
       let newName := default "" (reNameMap !! oldName) in
       TString.ReplaceAll oldName newName newFormExpr)
    indice formExpr.

(** The raw-name case, lines 518-541. *)
Definition editRFV_raw (dependents : list RooAbsArg) (formExpr : string) : string :=
  let allOldNames := map GetName dependents in
  let nameLength := map String.length allOldNames in
  let reNameMap := fill_reNameMap 0 allOldNames ∅ in
  let indice := TMath_Sort nameLength in
  replaceNames allOldNames reNameMap indice formExpr.

(** The new expression text, or [None] where the function returns
    [NULL] because the mode asks for no change. *)
Definition editRFV_expr (dependents : list RooAbsArg) (formExpr : string)
  : option string :=
  if TString.Contains "x[" formExpr && TString.Contains "]" formExpr
  then
    if (m_editRFV <? 2)%Z then None
    else Some (TString.ReplaceAll "]" "" (TString.ReplaceAll "x[" "@" formExpr))
  else
    if (m_editRFV <? 1)%Z then None
    else Some (editRFV_raw dependents formExpr).

(** The loop over [oldVar->dependents()], lines 549-562, from the
    dependent [parg] on; [editRFV] is the function itself, called on
    a dependent that is a formula. *)
Section Dependents.

Variable editRFV : RooAbsArg -> outcome (option RooAbsArg).

Fixpoint editRFV_dependents (deps : list RooAbsArg) (varList : list RooAbsArg)
    {struct deps} : outcome (list RooAbsArg) :=
  match deps with
  | [] => Ok varList
  | parg :: rest =>
      match parg with
      | RooFormulaVar _ _ _ =>
          let! newParg := editRFV parg in
          match newParg with
          | None => Fault NullDeref    (* varList.add of *newParg, newParg null *)
          | Some n => editRFV_dependents rest (RooArgSet_add varList n)
          end
      | RooOtherArg _ => editRFV_dependents rest (RooArgSet_add varList parg)
      end
  end.

End Dependents.

(** [editRFV(oldVar)]: [Ok None] is the [NULL] result, [Ok (Some v)]
    the new node. *)
Fixpoint editRFV (oldVar : RooAbsArg) {struct oldVar}
  : outcome (option RooAbsArg) :=
  match oldVar with
  | RooOtherArg _ => Fault AssertFailed   (* the cast gives null: assert(oldVar) *)
  | RooFormulaVar varName formExpr dependents =>
      if TString.Contains "@" formExpr then Ok None
      else
        match editRFV_expr dependents formExpr with
        | None => Ok None
        | Some newFormExpr =>
            let! varList := editRFV_dependents editRFV dependents [] in
            Ok (Some (RooFormulaVar varName newFormExpr varList))
        end
  end.

End Rewriter.


(** *** Parameter roles ([splitter::makeWorkspace], lines 195-227) *)

(** A member of a parameter set, as the classifier reads it: its name,
    whether [dynamic_cast<RooRealVar *>] accepts it, and
    [isConstant()]. *)
Record Param : Type := {
  parName : string;
  isRooRealVar : bool;
  isConstant : bool
}.

#[export] Instance Param_named : TNamed Param := parName.

(** The sets the original [ModelConfig] declares.  The constructor has
    read the sizes of the first two; [GetConditionalObservables()] may
    be null. *)
Record ModelConfig : Type := {
  GetParametersOfInterest : list Param;
  GetGlobalObservables : list Param;
  GetConditionalObservables : option (list Param)
}.

Definition m_hasCondObs (m_mc : ModelConfig) : bool :=
  match GetConditionalObservables m_mc with Some _ => true | None => false end.

Definition dynamic_cast_RooRealVar (p : option Param) : option Param :=
  match p with
  | Some a => if isRooRealVar a then Some a else None
  | None => None
  end.

Record SubSets : Type := {
  subPoi : list Param;
  subGobs : list Param;
  subCobs : list Param;
  subNuis : list Param
}.

(** The body of the loop over [indivNuis]; [arg] is [*it]. *)
Definition classify_param (m_mc : ModelConfig) (arg : Param) (s : SubSets)
  : outcome SubSets :=
  match dynamic_cast_RooRealVar (Some arg) with
  | None => Fault NullDeref                      (* v->GetName() *)
  | Some v =>
      match dynamic_cast_RooRealVar
              (RooArgSet_find (GetParametersOfInterest m_mc) (GetName v)) with
      | Some var =>
          Ok {| subPoi := RooArgSet_add (subPoi s) var;
                subGobs := subGobs s; subCobs := subCobs s; subNuis := subNuis s |}
      | None =>
      match dynamic_cast_RooRealVar
              (RooArgSet_find (GetGlobalObservables m_mc) (GetName v)) with
      | Some var =>
          Ok {| subPoi := subPoi s;
                subGobs := RooArgSet_add (subGobs s) var;
                subCobs := subCobs s; subNuis := subNuis s |}
      | None =>
      match (match GetConditionalObservables m_mc with
             | Some cobs =>      (* m_hasCondObs *)
                 dynamic_cast_RooRealVar (RooArgSet_find cobs (GetName v))
             | None => None
             end) with
      | Some var =>
          Ok {| subPoi := subPoi s; subGobs := subGobs s;
                subCobs := RooArgSet_add (subCobs s) var;
                subNuis := subNuis s |}
      | None =>
          if negb (isConstant v)
          then Ok {| subPoi := subPoi s; subGobs := subGobs s;
                     subCobs := subCobs s;
                     subNuis := RooArgSet_add (subNuis s) v |}
          else Ok s
      end end end
  end.

Fixpoint classify_params (m_mc : ModelConfig) (indivNuis : list Param)
    (s : SubSets) : outcome SubSets :=
  match indivNuis with
  | [] => Ok s
  | arg :: rest =>
      let! s' := classify_param m_mc arg s in
      classify_params m_mc rest s'
  end.

(** *** Datasets ([splitter::rebuildCatData]; [splitter::makeWorkspace],
        lines 234-274) *)

(** An observable: name, current value and declared range. *)
Record RooRealVar : Type := {
  varName : string;
  getVal : Q;
  getMin : Q;
  getMax : Q
}.

#[export] Instance RooRealVar_named : TNamed RooRealVar := varName.

(** A stored event: the values of the dataset's variables, by name, and
    the weight of the event. *)
Record Event : Type := {
  values : list (string * Q);
  weight : Q
}.

Record RooDataSet : Type := {
  dataName : string;
  events : list Event
}.

#[export] Instance RooDataSet_named : TNamed RooDataSet := dataName.

Definition SetName (d : RooDataSet) (n : string) : RooDataSet :=
  {| dataName := n; events := events d |}.

(** [datai->numEntries()] *)
Definition numEntries (d : RooDataSet) : Z := Z.of_nat (length (events d)).

Definition weights (d : RooDataSet) : list Q := map weight (events d).

Fixpoint lookup_value (n : string) (row : list (string * Q)) : option Q :=
  match row with
  | [] => None
  | (m, x) :: rest => if String.eqb m n then Some x else lookup_value n rest
  end.

(** [*indivObs = *datai->get(j)]: every variable of [indivObs] takes the
    value the row holds under its name; a variable the row does not
    hold keeps its value. *)
Definition assign (indivObs : list RooRealVar) (row : list (string * Q))
  : list RooRealVar :=
  map (fun v =>
         match lookup_value (varName v) row with
         | Some x => {| varName := varName v; getVal := x;
                        getMin := getMin v; getMax := getMax v |}
         | None => v
         end) indivObs.

(** What [RooDataSet::add(set, wgt)] stores of [set]. *)
Definition current_values (set : list RooRealVar) : list (string * Q) :=
  map (fun v => (varName v, getVal v)) set.

(** The loop of [rebuildCatData] from event [j] on: [dataNew_i] are the
    events added so far. *)
Fixpoint rebuildCatData_loop (source : list Event) (indivObs : list RooRealVar)
    (dataNew_i : list Event) : list Event * list RooRealVar :=
  match source with
  | [] => (dataNew_i, indivObs)
  | e :: rest =>
      let indivObs := assign indivObs (values e) in
      let dataWgt := weight e in
      rebuildCatData_loop rest indivObs
        (dataNew_i ++ [{| values := current_values indivObs; weight := dataWgt |}])%list
  end.

(** [rebuildCatData(datai, indivObs)]: the new dataset, and [indivObs]
    as the loop leaves it. *)
Definition rebuildCatData (datai : RooDataSet) (indivObs : list RooRealVar)
  : RooDataSet * list RooRealVar :=
  let '(evs, indivObs') := rebuildCatData_loop (events datai) indivObs [] in
  ({| dataName := GetName datai +:+ PDFPOSTFIX; events := evs |}, indivObs').

(** [RooRealVar::setVal]: a value more than 1e-6 outside the range is
    clipped to the bound it passes. *)
Definition setVal (v : RooRealVar) (value : Q) : RooRealVar :=
  let eps := (1 # 1000000)%Q in
  let clip := value in
  let clip := if Qle_bool value (getMax v + eps) then clip else getMax v in
  let clip := if Qle_bool (getMin v - eps) value then clip else getMin v in
  {| varName := varName v; getVal := clip; getMin := getMin v; getMax := getMax v |}.

(** A one-dimensional histogram, as the rebinning loop reads it. *)
Record TH1 : Type := {
  GetNbinsX : Z;
  GetBinCenter : Z -> Q;
  GetBinContent : Z -> Q
}.

(** Conversion of a [double] to [int]: the fraction is dropped; a value
    whose integer part is no [int] is undefined. *)
Definition double_to_int (x : Q) : outcome Z :=
  let t := Z.quot (Qnum x) (Zpos (Qden x)) in
  if in_int t then Ok t else Fault Undefined.

Inductive DataPath : Type := DirectRebuild | Rebin.

(** What a channel's dataset becomes: the dataset entered in
    [subDataMap], the source dataset (renamed when rebinned) and
    [indivObs] with the values it is left with. *)
Record DatasetResult : Type := {
  newData : RooDataSet;
  oldData : RooDataSet;
  obsAfter : list RooRealVar
}.

Section Datasets.

(** [RooAbsData::sumEntries()], a function of the weights in storage
    order. *)
Variable sum_of_weights : list Q -> Q.

(** [RooAbsData::createHistogram(name, var, Binning(n, lo, hi))] *)
Variable createHistogram :
  RooDataSet -> string -> RooRealVar -> Z -> Q -> Q -> TH1.

(** [m_reBin], the configured bin count (-1 when not configured). *)
Variable m_reBin : Z.

Definition sumEntries (d : RooDataSet) : Q := sum_of_weights (weights d).

(** The branch taken at lines 234-274. *)
Definition dataset_path (datai : RooDataSet) : outcome DataPath :=
  if (0 <? m_reBin)%Z
  then
    let numEntries := numEntries datai in
    let! sumEntries := double_to_int (sumEntries datai) in
    let isBinned := negb (numEntries =? sumEntries)%Z in
    let isBinned := isBinned || (numEntries <? m_reBin)%Z in
    Ok (if isBinned then DirectRebuild else Rebin)
  else Ok DirectRebuild.

(** The loop over the bins [i .. n], lines 262-266. *)
Fixpoint rebin_loop (hist : TH1) (bins : list Z) (obsVar : RooRealVar)
    (others : list RooRealVar) (dataiNew : list Event)
  : list Event * RooRealVar :=
  match bins with
  | [] => (dataiNew, obsVar)
  | i :: rest =>
      let obsVar := setVal obsVar (GetBinCenter hist i) in
      rebin_loop hist rest obsVar others
        (dataiNew ++ [{| values := current_values (obsVar :: others);
                         weight := GetBinContent hist i |}])%list
  end.

(** The rebinning branch, lines 248-270.  [setBinning] changes the number
    of bins of the observable and leaves its range as it is. *)
Definition rebinData (datai : RooDataSet) (indivObs : list RooRealVar)
  : outcome DatasetResult :=
  let dataiName := GetName datai in
  let datai := SetName datai (dataiName +:+ "_old") in
  match indivObs with
  | [] => Fault NullDeref                 (* indivObs->first() is null *)
  | obsVar :: others =>
      let hist := createHistogram datai (dataiName +:+ "_hist") obsVar
                    m_reBin (getMin obsVar) (getMax obsVar) in
      let n := GetNbinsX hist in
      if (n =? INT_MAX)%Z then Fault Undefined      (* ++i overflows *)
      else
        let '(evs, obsVar') := rebin_loop hist (int_range 1 n) obsVar others [] in
        Ok {| newData := {| dataName := dataiName; events := evs |};
              oldData := datai;
              obsAfter := obsVar' :: others |}
  end.

Definition directRebuild (datai : RooDataSet) (indivObs : list RooRealVar)
  : DatasetResult :=
  let '(d, obs) := rebuildCatData datai indivObs in
  {| newData := d; oldData := datai; obsAfter := obs |}.

(** "Handle dataset", lines 234-274. *)
Definition makeWorkspace_dataset (datai : RooDataSet) (indivObs : list RooRealVar)
  : outcome DatasetResult :=
  let! path := dataset_path datai in
  match path with
  | DirectRebuild => Ok (directRebuild datai indivObs)
  | Rebin => rebinData datai indivObs
  end.

(** One selected channel: the label of the category bin, the
    observables and free parameters of its density, and its data. *)
Record Channel : Type := {
  channelName : string;
  indivObs_of : list RooRealVar;
  indivNuis_of : list Param;
  datai_of : RooDataSet
}.

Record SubWorkspace : Type := {
  subSets : SubSets;
  subDataMap : gmap string RooDataSet
}.

(** The body of the loop over the selected channels, as far as it
    fills the parameter sets and [subDataMap]. *)
Definition makeWorkspace_channel (m_mc : ModelConfig) (ch : Channel)
    (w : SubWorkspace) : outcome SubWorkspace :=
  let! sets := classify_params m_mc (indivNuis_of ch) (subSets w) in
  let! r := makeWorkspace_dataset (datai_of ch) (indivObs_of ch) in
  Ok {| subSets := sets;
        subDataMap := <[channelName ch := newData r]> (subDataMap w) |}.

(** The loop over the selected channels, lines 178-275. *)
Fixpoint makeWorkspace_channels (m_mc : ModelConfig) (channels : list Channel)
    (w : SubWorkspace) : outcome SubWorkspace :=
  match channels with
  | [] => Ok w
  | ch :: rest =>
      let! w' := makeWorkspace_channel m_mc ch w in
      makeWorkspace_channels m_mc rest w'
  end.

(** The empty sets and the empty map the loop starts from, lines
    173-175. *)
Definition makeWorkspace_start : SubWorkspace :=
  {| subSets := {| subPoi := []; subGobs := []; subCobs := []; subNuis := [] |};
     subDataMap := ∅ |}.

(** [makeWorkspace] up to the end of the loop: without a selected
    channel it warns and returns, with nothing built. *)
Definition makeWorkspace_selected (m_mc : ModelConfig) (channels : list Channel)
  : outcome (option SubWorkspace) :=
  match channels with
  | [] => Ok None
  | _ =>
      let! w := makeWorkspace_channels m_mc channels makeWorkspace_start in
      Ok (Some w)
  end.

End Datasets.

(** *** Histogram data ([splitter::histToDataset]) *)

(** A category as [histToDataset] meets it: its label, the observables
    [pdfi->getObservables(datai)] and the part of the histogram the split
    holds under the label, one row per bin with the weight of the bin. *)
Record HistChannel : Type := {
  histLabel : string;
  obsi_of : list RooRealVar;
  histi_of : RooDataSet
}.

(** The loop over the bins, lines 421-426. *)
Fixpoint histToDataset_loop (bins : list Event) (obsi : list RooRealVar)
    (data : list Event) : list Event * list RooRealVar :=
  match bins with
  | [] => (data, obsi)
  | b :: rest =>
      let obsi := assign obsi (values b) in
      let dataWgt := weight b in
      histToDataset_loop rest obsi
        (data ++ [{| values := current_values obsi; weight := dataWgt |}])%list
  end.

(** What the loop over the categories builds up. *)
Record Converted : Type := {
  Observables : list RooRealVar;
  datasetMap : gmap string RooDataSet
}.

(** The body of the loop over the categories, lines 409-428. *)
Definition histToDataset_channel (st : Converted) (ch : HistChannel) : Converted :=
  let channelName := histLabel ch in
  let datai := histi_of ch in
  let dataName := GetName datai in
  let '(data, obsi) := histToDataset_loop (events datai) (obsi_of ch) [] in
  {| Observables := fold_left RooArgSet_add obsi (Observables st);
     datasetMap :=
       <[channelName := {| dataName := dataName +:+ "_convert"; events := data |}]>
         (datasetMap st) |}.

(** The loop over the categories, lines 401-429. *)
Definition histToDataset_channels (channels : list HistChannel) : Converted :=
  fold_left histToDataset_channel channels
    {| Observables := []; datasetMap := ∅ |}.

(** *** Construction ([splitter::splitter], [splitter::buildSimPdf]) *)

(** A category: its name and the labels of its types, in the order of
    their indices. *)
Record RooCategory : Type := {
  catName : string;
  types : list string
}.

(** [RooCategory::numBins] *)
Definition numBins (cat : RooCategory) : Z := Z.of_nat (length (types cat)).

(** What a reference leads to: the object, or, once the object is
    destroyed, nothing that may be read. *)
Inductive Ref (A : Type) : Type :=
| Live (a : A)
| Dangling.
Arguments Live {A} a.
Arguments Dangling {A}.

(** A [RooSimultaneous] refers to its index category, it holds no copy
    of it. *)
Record RooSimultaneous : Type := {
  simName : string;
  indexCat : Ref RooCategory
}.

Inductive RooAbsPdf : Type :=
| SimultaneousPdf (pdf : RooSimultaneous)
| OtherPdf (name : string).

#[export] Instance RooAbsPdf_named : TNamed RooAbsPdf :=
  fun pdf => match pdf with
             | SimultaneousPdf p => simName p
             | OtherPdf name => name
             end.

Definition dynamic_cast_RooSimultaneous (pdf : RooAbsPdf) : option RooSimultaneous :=
  match pdf with
  | SimultaneousPdf p => Some p
  | OtherPdf _ => None
  end.

(** Data of a workspace: a dataset, or a histogram with one row per
    bin. *)
Inductive RooAbsData : Type :=
| DataSet (d : RooDataSet)
| DataHist (h : RooDataSet).

Definition rows (data : RooAbsData) : RooDataSet :=
  match data with
  | DataSet d => d
  | DataHist h => h
  end.

#[export] Instance RooAbsData_named : TNamed RooAbsData :=
  fun data => GetName (rows data).

Definition dynamic_cast_RooDataSet (data : RooAbsData) : option RooDataSet :=
  match data with
  | DataSet d => Some d
  | DataHist _ => None
  end.

(** The input as the constructor reads it.  A ModelConfig in a file may
    lack any of its sets and its density: the getter returns null. *)
Module Input.

Record ModelConfig : Type := {
  GetNuisanceParameters : option (list Param);
  GetGlobalObservables : option (list Param);
  GetParametersOfInterest : option (list Param);
  GetConditionalObservables : option (list Param);
  GetPdf : option RooAbsPdf
}.

Record RooWorkspace : Type := {
  obj : gmap string ModelConfig;
  data : gmap string RooAbsData
}.

Record TFile : Type := {
  Get : gmap string RooWorkspace
}.

End Input.

Inductive LogLine : Type :=
| spdlog_warn (msg : string)
| spdlog_info (msg : string).

(** The members the constructor sets. *)
Record Members : Type := {
  m_outputFileName : string;
  m_mc : ModelConfig;
  m_pdf : RooSimultaneous;
  m_cat : RooCategory;
  m_numChannels : Z;
  m_data : RooDataSet;
  m_reBin : Z;
  m_rebuildPdf : bool;
  m_editRFV : Z
}.

(** [buildSimPdf(pdf, data)]: the values it leaves in [m_pdf] and
    [m_data].  The category [cat] is a local of the function: the new
    [RooSimultaneous] refers to it, and it is destroyed when the function
    returns.  The new dataset links the rows of [data]; its index column
    is not modelled. *)
Definition buildSimPdf (pdf : RooAbsPdf) (data : RooAbsData)
  : RooSimultaneous * RooDataSet :=
  let channelName := GetName pdf in
  let cat := {| catName := channelName +:+ "_single"; types := [channelName] |} in
  let pdfName := GetName pdf in
  let dataName := GetName data in
  let pdf_new := {| simName := pdfName +:+ "_sim"; indexCat := Live cat |} in
  let data_new := {| dataName := dataName +:+ "_sim"; events := events (rows data) |} in
  (* return: cat goes out of scope *)
  ({| simName := simName pdf_new; indexCat := Dangling |}, data_new).

Definition warn_if_empty (set : list Param) (what mcName inputFileName : string)
  : list LogLine :=
  match set with
  | [] => [spdlog_warn ("There is no " +:+ what +:+ " defined in ModelConfig "
                          +:+ mcName +:+ " of file " +:+ inputFileName)]
  | _ => []
  end.

Section Constructor.

(** [TFile::Open]: the file of a name, null when it cannot be opened. *)
Variable TFile_Open : string -> option Input.TFile.

(** The events of the dataset [histToDataset] leaves in [m_data]: RooFit
    splits the histogram by the category and imports the converted
    parts.  The call fails where a category has no density or no part of
    the histogram. *)
Variable combData_events : RooCategory -> RooDataSet -> outcome (list Event).

(** The constructor: the members and the lines logged, or the fault. *)
Definition splitter_new (inputFileName outputFileName wsName mcName dataName : string)
  : outcome (Members * list LogLine) :=
  match TFile_Open inputFileName with
  | None => Fault (Abort ("Input file " +:+ inputFileName +:+ " does not exist"))
  | Some m_inputFile =>
  match Input.Get m_inputFile !! wsName with
  | None => Fault (Abort ("Workspace " +:+ wsName +:+ " does not exist in file "
                            +:+ inputFileName))
  | Some m_comb =>
  match Input.obj m_comb !! mcName with
  | None => Fault (Abort ("ModelConfig " +:+ mcName +:+ " does not exist in file "
                            +:+ inputFileName))
  | Some mc =>
  match Input.GetNuisanceParameters mc, Input.GetGlobalObservables mc,
        Input.GetParametersOfInterest mc with
  | Some nuis, Some gobs, Some poi =>
      let log :=
        (warn_if_empty nuis "nuisance parameter" mcName inputFileName
         ++ warn_if_empty gobs "global observable" mcName inputFileName
         ++ warn_if_empty poi "parameter of interest" mcName inputFileName)%list in
      let m_mc := {| GetParametersOfInterest := poi;
                     GetGlobalObservables := gobs;
                     GetConditionalObservables := Input.GetConditionalObservables mc |} in
      let log :=
        if m_hasCondObs m_mc
        then (log ++ [spdlog_info
                        ("There are conditional observables defined in ModelConfig "
                           +:+ mcName +:+ " of file " +:+ inputFileName)])%list
        else log in
      match Input.GetPdf mc with
      | None => Fault (Abort ("ModelConfig " +:+ mcName
                                +:+ " does not point to a valid PDF"))
      | Some pdf =>
      match Input.data m_comb !! dataName with
      | None => Fault (Abort ("Dataset " +:+ dataName +:+ " does not exist in file "
                                +:+ inputFileName))
      | Some data =>
          let '(m_pdf, m_data, log) :=
            match dynamic_cast_RooSimultaneous pdf with
            | Some m_pdf => (m_pdf, None, log)
            | None =>
                let '(pdf_new, data_new) := buildSimPdf pdf data in
                (pdf_new, Some data_new,
                 (log ++ [spdlog_warn
                            ("PDF in workspace " +:+ wsName +:+ " of file "
                               +:+ inputFileName
                               +:+ " is not a RooSimultaneous PDF. Will create one")])%list)
            end in
          match indexCat m_pdf with
          | Dangling => Fault Undefined      (* the category is destroyed *)
          | Live m_cat =>
          let m_numChannels := numBins m_cat in
          let! converted :=
            match dynamic_cast_RooDataSet data with
            | Some d => Ok (d, log)
            | None =>
                let log :=
                  (log ++ [spdlog_warn
                             ("Dataset " +:+ dataName +:+ " in workspace " +:+ wsName
                                +:+ " of file " +:+ inputFileName
                                +:+ " is RooDataHist. Convert it to RooDataSet...")])%list in
                let! combData := combData_events m_cat (rows data) in
                Ok ({| dataName := GetName data; events := combData |}, log)
            end in
          let '(m_data, log) := converted in
          Ok ({| m_outputFileName := outputFileName;
                 m_mc := m_mc;
                 m_pdf := m_pdf;
                 m_cat := m_cat;
                 m_numChannels := m_numChannels;
                 m_data := m_data;
                 m_reBin := -1;
                 m_rebuildPdf := false;
                 m_editRFV := -1 |}, log)
          end
      end
      end
  | _, _, _ => Fault NullDeref      (* getSize() on a null set *)
  end
  end
  end
  end.

End Constructor.

End splitter.

(** ** The script that replaces a parameter of interest by a product *)

Module replace_POI.

Record FileEntry : Type := {
  inputfilePath : string;
  outputfilePath : string;
  workspaceName : string;
  variable_name : string;
  channelname : string
}.

(** A ModelConfig over the objects [Arg] of its workspace; a getter of a
    set that was never defined returns null. *)
Record ModelConfig (Arg : Type) : Type := {
  GetPdf : option splitter.RooAbsPdf;
  GetGlobalObservables : option (list Arg);
  GetNuisanceParameters : option (list Arg);
  GetObservables : option (list Arg);
  GetParametersOfInterest : option (list Arg);
  GetConditionalObservables : option (list Arg)
}.
Arguments GetPdf {Arg} _.
Arguments GetGlobalObservables {Arg} _.
Arguments GetNuisanceParameters {Arg} _.
Arguments GetObservables {Arg} _.
Arguments GetParametersOfInterest {Arg} _.
Arguments GetConditionalObservables {Arg} _.

(** A workspace, as far as its ModelConfigs go; its components and its
    data are not modelled. *)
Record RooWorkspace (Arg : Type) : Type := {
  obj : gmap string (ModelConfig Arg)
}.
Arguments obj {Arg} _.

Record TFile (Arg : Type) : Type := {
  Get : gmap string (RooWorkspace Arg)
}.
Arguments Get {Arg} _.

(** [RooAbsCollection::remove(var, silent, matchByNameOnly = true)]:
    every member with the name of [var] goes. *)
Definition RooArgSet_remove {Arg : Type} `{TNamed Arg} (set : list Arg) (var : Arg)
  : list Arg :=
  List.filter (fun b => negb (String.eqb (GetName b) (GetName var))) set.

Definition combine_name (variable_name : string) : string :=
  variable_name +:+ "_combine".

Definition single_name (variable_name channelname : string) : string :=
  variable_name +:+ "_" +:+ channelname.

Section Script.

Context {Arg : Type} `{TNamed Arg}.

(** [newWs.var(name)] for the two variables the script imports first:
    a variable of that name, at 0 in [-5, 5]. *)
Variable var : string -> Arg.

(** "Add new POIs", lines 121-125. *)
Definition update_POI (POI : list Arg) (variable_name channelname : string)
  : list Arg :=
  let allPOI := POI in
  let allPOI :=
    match RooArgSet_find allPOI variable_name with
    | Some old_cHWtil => RooArgSet_remove allPOI old_cHWtil
    | None => allPOI
    end in
  let allPOI := RooArgSet_add allPOI (var (combine_name variable_name)) in
  RooArgSet_add allPOI (var (single_name variable_name channelname)).

(** One run of the script over the files on disk: the files after it.
    A missing file, workspace or ModelConfig prints a message and
    returns; a density that is no [RooSimultaneous] and a set that is not
    defined are dereferenced.  The output file is recreated: it holds the
    new workspace and nothing else. *)
Definition replace_cHWtil_with_product (disk : gmap string (TFile Arg))
    (inputFileName outputFileName workspaceName variable_name channelname : string)
  : outcome (gmap string (TFile Arg)) :=
  match disk !! inputFileName with
  | None => Ok disk
  | Some inputFile =>
  match Get inputFile !! workspaceName with
  | None => Ok disk
  | Some ws =>
  match obj ws !! "ModelConfig" with
  | None => Ok disk
  | Some mc =>
  match match GetPdf mc with
        | Some pdf => splitter.dynamic_cast_RooSimultaneous pdf
        | None => None
        end with
  | None => Fault NullDeref
  | Some simPdf =>
  match GetGlobalObservables mc with
  | None => Fault NullDeref
  | Some gobs =>
  match GetNuisanceParameters mc with
  | None => Fault NullDeref
  | Some nuis =>
  match GetObservables mc with
  | None => Fault NullDeref
  | Some obs =>
  match GetParametersOfInterest mc with
  | None => Fault NullDeref
  | Some poi =>
      let allPOI := update_POI poi variable_name channelname in
      let newMc :=
        {| GetPdf := Some (splitter.SimultaneousPdf simPdf);
           GetGlobalObservables := Some gobs;
           GetNuisanceParameters := Some nuis;
           GetObservables := Some obs;
           GetParametersOfInterest := Some allPOI;
           GetConditionalObservables := None |} in
      let newWs := {| obj := {[ "ModelConfig" := newMc ]} |} in
      Ok (<[outputFileName := {| Get := {[ workspaceName := newWs ]} |}]> disk)
  end
  end
  end
  end
  end
  end
  end
  end.

(** [replace_POI_with_product] over the table [files]: the runs follow
    one another, each on the files the run before has left. *)
Fixpoint replace_POI_with_product (files : list FileEntry)
    (disk : gmap string (TFile Arg)) : outcome (gmap string (TFile Arg)) :=
  match files with
  | [] => Ok disk
  | entry :: rest =>
      let! disk := replace_cHWtil_with_product disk
                     (inputfilePath entry) (outputfilePath entry)
                     (workspaceName entry) (variable_name entry)
                     (channelname entry) in
      replace_POI_with_product rest disk
  end.

End Script.

End replace_POI.

(** ** [TMath::Sort] *)

Module TMath.

(** What [TMath::Sort(n, a, index, true)] promises of the [index] array
    it fills: it holds each of [0 .. n-1] once, and the keys read through
    it do not increase. *)
Definition Sort_contract (Sort : list nat -> list nat) : Prop :=
  forall a : list nat,
    Permutation (Sort a) (seq 0 (length a)) /\
    StronglySorted (fun i j => (nth j a 0 <= nth i a 0)%nat) (Sort a).

(** One function that keeps the promise: insertion of the indices from
    the last to the first, each in front of the first index whose key is
    not larger. *)
Fixpoint insert_desc (a : list nat) (i : nat) (l : list nat) : list nat :=
  match l with
  | [] => [i]
  | j :: r =>
      if (nth j a 0 <=? nth i a 0)%nat then i :: j :: r
      else j :: insert_desc a i r
  end.

Definition Sort_insertion (a : list nat) : list nat :=
  fold_right (insert_desc a) [] (seq 0 (length a)).

End TMath.

(** ** Reference instances of the ROOT routines *)

Module ROOT.

(** Exact summation of the weights. *)
Definition sum_exact (ws : list Q) : Q := fold_left Qplus ws 0%Q.

(** [TAxis::FindBin] on [n] bins of equal width over [lo, hi): bin 0
    is the underflow, bin [n+1] the overflow. *)
Definition FindBin (n : Z) (lo hi x : Q) : Z :=
  if Qle_bool lo x
  then if Qle_bool hi x then (n + 1)%Z
       else (1 + Qfloor (inject_Z n * (x - lo) / (hi - lo)))%Z
  else 0%Z.

(** A histogram of the variable [var] over [n] bins of equal width:
    each event adds its weight to the bin its value falls in. *)
Definition createHistogram (d : splitter.RooDataSet) (name : string)
    (var : splitter.RooRealVar) (n : Z) (lo hi : Q) : splitter.TH1 :=
  {| splitter.GetNbinsX := n;
     splitter.GetBinCenter := fun i =>
       (lo + (inject_Z i - (1 # 2)) * ((hi - lo) / inject_Z n))%Q;
     splitter.GetBinContent := fun i =>
       sum_exact
         (map splitter.weight
            (List.filter (fun e =>
                       match splitter.lookup_value (splitter.varName var)
                               (splitter.values e) with
                       | Some x => (FindBin n lo hi x =? i)%Z
                       | None => false
                       end) (splitter.events d))) |}.

End ROOT.

Import splitter.

(** ** Sample channels *)

Module Sample.

(** An observable x over [0, 1]. *)
Definition x : RooRealVar :=
  {| varName := "x"; getVal := 0; getMin := 0; getMax := 1 |}.

Definition event (value w : Q) : Event :=
  {| values := [("x", value)]; weight := w |}.

(** Two unit-weight events, both in the lower half of the range. *)
Definition low_pair : RooDataSet :=
  {| dataName := "obsData_ch0";
     events := [event (1 # 4) 1; event (3 # 8) 1] |}.

(** Five events whose weights sum to 5.5. *)
Definition five_and_a_half : RooDataSet :=
  {| dataName := "obsData_ch1";
     events := [event (1 # 8) 1; event (1 # 4) 1; event (1 # 2) 1;
                event (5 # 8) 1; event (7 # 8) (3 # 2)] |}.

(** Five events whose weights sum to 5.7. *)
Definition five_point_seven : RooDataSet :=
  {| dataName := "obsData_ch2";
     events := [event (1 # 8) 1; event (1 # 4) 1; event (1 # 2) 1;
                event (5 # 8) 1; event (7 # 8) (17 # 10)] |}.

(** A formula that is positional already, and a parent that names it. *)
Definition g : RooAbsArg := RooFormulaVar "g" "@0+1" [RooOtherArg "b"].
Definition f : RooAbsArg := RooFormulaVar "f" "a*g" [RooOtherArg "a"; g].

(** The dependents a, ab, abc and a formula over them. *)
Definition abc_deps : list RooAbsArg :=
  [RooOtherArg "a"; RooOtherArg "ab"; RooOtherArg "abc"].
Definition ab_abc : RooAbsArg := RooFormulaVar "h" "ab+abc" abc_deps.

(** A model with one parameter of interest. *)
Definition mu : Param :=
  {| parName := "mu"; isRooRealVar := true; isConstant := false |}.
Definition mc : ModelConfig :=
  {| GetParametersOfInterest := [mu];
     GetGlobalObservables := [];
     GetConditionalObservables := None |}.
Definition no_sets : SubSets :=
  {| subPoi := []; subGobs := []; subCobs := []; subNuis := [] |}.

End Sample.

(** ** Vocabulary of the statements *)

(** [a] occurs in [b]. *)
Definition occurs_in (a b : string) : Prop :=
  exists pre post : string, b = pre +:+ a +:+ post.

(** "A single integer": a non-empty run of decimal digits. *)
Definition is_single_integer (tok : string) : bool :=
  negb (String.eqb tok "") &&
  forallb TString.isdigit (list_ascii_of_string tok).

(** "A dash-separated range lo-hi": two integers with one dash between
    them. *)
Definition is_two_part_range (tok : string) : Prop :=
  exists lo hi : string,
    is_single_integer lo = true /\ is_single_integer hi = true /\
    tok = lo +:+ "-" +:+ hi.

(** The roles as the specification words them (section 4.2, steps 1 to
    5), to be compared with [classify_param]: [spec_role] runs the five
    steps on plain membership by name. *)
Inductive Role : Type := POI | GlobalObs | CondObs | Nuisance | Dropped.

Definition declares (set : list Param) (v : Param) : bool :=
  existsb (fun b => String.eqb (GetName b) (GetName v)) set.

Definition spec_role (m_mc : ModelConfig) (v : Param) : Role :=
  if declares (GetParametersOfInterest m_mc) v then POI
  else if declares (GetGlobalObservables m_mc) v then GlobalObs
  else if match GetConditionalObservables m_mc with
          | Some cobs => declares cobs v
          | None => false
          end then CondObs
  else if negb (isConstant v) then Nuisance
  else Dropped.

(** Adding [x] under role [r]: one set grows (or none, for [Dropped]),
    the others are untouched. *)
Definition assign_role (r : Role) (x : Param) (s : SubSets) : SubSets :=
  match r with
  | POI => {| subPoi := RooArgSet_add (subPoi s) x; subGobs := subGobs s;
              subCobs := subCobs s; subNuis := subNuis s |}
  | GlobalObs => {| subPoi := subPoi s; subGobs := RooArgSet_add (subGobs s) x;
                    subCobs := subCobs s; subNuis := subNuis s |}
  | CondObs => {| subPoi := subPoi s; subGobs := subGobs s;
                  subCobs := RooArgSet_add (subCobs s) x; subNuis := subNuis s |}
  | Nuisance => {| subPoi := subPoi s; subGobs := subGobs s;
                   subCobs := subCobs s; subNuis := RooArgSet_add (subNuis s) x |}
  | Dropped => s
  end.

(** Every member of the sets the model declares is a [RooRealVar]. *)
Definition all_RooRealVar (m_mc : ModelConfig) : Prop :=
  Forall (fun p => isRooRealVar p = true) (GetParametersOfInterest m_mc) /\
  Forall (fun p => isRooRealVar p = true) (GetGlobalObservables m_mc) /\
  match GetConditionalObservables m_mc with
  | Some cobs => Forall (fun p => isRooRealVar p = true) cobs
  | None => True
  end.

(** The model declares conditional observables and [v] is among them. *)
Definition declared_cond (m_mc : ModelConfig) (v : Param) : bool :=
  match GetConditionalObservables m_mc with
  | Some cobs => declares cobs v
  | None => false
  end.

(** The output set that belongs to a role; no set belongs to [Dropped]. *)
Definition role_set (r : Role) (s : SubSets) : list Param :=
  match r with
  | POI => subPoi s
  | GlobalObs => subGobs s
  | CondObs => subCobs s
  | Nuisance => subNuis s
  | Dropped => []
  end.

(** The reading of section 4.3 under which an event is emitted for the
    non-empty bins only, to be compared with [rebin_loop]. *)
Definition nonempty_bins (hist : TH1) : list Z :=
  List.filter (fun i => negb (Qeq_bool (GetBinContent hist i) 0))
         (int_range 1 (GetNbinsX hist)).

(** The histogram the rebinning takes of [Sample.low_pair] with two
    bins. *)
Definition low_pair_hist : TH1 :=
  ROOT.createHistogram (SetName Sample.low_pair "obsData_ch0_old")
    "obsData_ch0_hist" Sample.x 2 0 1.

(** The event the rebinning writes for bin [i]: the first observable at
    the bin centre, the other observables as they stand, the bin content
    as weight. *)
Definition bin_event (hist : TH1) (obsVar : RooRealVar) (others : list RooRealVar)
    (i : Z) : Event :=
  {| values := (varName obsVar, GetBinCenter hist i) :: current_values others;
     weight := GetBinContent hist i |}.

(** The textual replacements of the raw-name case in the order they are
    applied, each as (old name, new name). *)
Definition replacement_order (TMath_Sort : list nat -> list nat)
    (dependents : list RooAbsArg) : list (string * string) :=
  let allOldNames := map GetName dependents in
  let reNameMap := fill_reNameMap 0 allOldNames ∅ in
  map (fun index =>
         let oldName := default "" (allOldNames !! index) in
         (oldName, default "" (reNameMap !! oldName)))
      (TMath_Sort (map String.length allOldNames)).


(** [TString::Format("%d", n)] for a natural number: its decimal digits. *)
Definition decimal (n : nat) : string :=
  NilEmpty.string_of_uint (Nat.to_uint n).

(** Every character of [s] passes the test [P]. *)
Fixpoint string_forall (P : ascii -> bool) (s : string) : bool :=
  match s with
  | EmptyString => true
  | String c t => P c && string_forall P t
  end.

(** A comma or a white-space character. *)
Definition is_blank (c : ascii) : bool :=
  TString.isspace c || Ascii.eqb c ",".

(** A character that [fillIndices] leaves where it is: no capital letter,
    no white space, no comma. *)
Definition plain_char (c : ascii) : bool :=
  Ascii.eqb (TString.tolower c) c && negb (TString.isspace c) &&
  negb (TString.is_delim "," c).

(** A digit or a dash. *)
Definition range_char (c : ascii) : bool :=
  TString.isdigit c || Ascii.eqb c "-".

(** The decision table of the rewriter: an expression is rewritten when
    it holds no '@' and the mode reaches 2 for the bracket syntax, 1 for
    plain names. *)
Definition rewrites (m_editRFV : Z) (formExpr : string) : bool :=
  negb (TString.Contains "@" formExpr) &&
  (if TString.Contains "x[" formExpr && TString.Contains "]" formExpr
   then (2 <=? m_editRFV)%Z else (1 <=? m_editRFV)%Z).

(** A formula that is rewritten and whose formula dependents, at every
    depth, are rewritten as well. *)
Fixpoint rewritable (m_editRFV : Z) (a : RooAbsArg) : bool :=
  match a with
  | RooFormulaVar _ formExpr dependents =>
      rewrites m_editRFV formExpr &&
      forallb (fun d => match d with
                        | RooFormulaVar _ _ _ => rewritable m_editRFV d
                        | RooOtherArg _ => true
                        end) dependents
  | RooOtherArg _ => false
  end.

(** The names of a list in the order of their first occurrence. *)
Definition add_name (names : list string) (n : string) : list string :=
  if existsb (String.eqb n) names then names else (names ++ [n])%list.

Definition first_occurrences (names : list string) : list string :=
  fold_left add_name names [].

(** The text behind its first [k] characters. *)
Fixpoint string_drop (k : nat) (s : string) : string :=
  match k, s with
  | O, _ => s
  | S k', String _ t => string_drop k' t
  | S _, EmptyString => EmptyString
  end.

(** What [editRFV] returns on one node, in terms of [rewrites] and
    [rewritable]. *)
Definition editRFV_outcome_of (TMath_Sort : list nat -> list nat) (m_editRFV : Z)
    (a : RooAbsArg) : Prop :=
  match a with
  | RooOtherArg _ => True
  | RooFormulaVar n e ds =>
      (rewrites m_editRFV e = false ->
       editRFV TMath_Sort m_editRFV a = Ok None) /\
      (rewritable m_editRFV a = true ->
       exists a', editRFV TMath_Sort m_editRFV a = Ok (Some a')) /\
      (rewrites m_editRFV e = true -> rewritable m_editRFV a = false ->
       editRFV TMath_Sort m_editRFV a = Fault NullDeref)
  end.

(** The set a name is sorted into by the casts of [classify_param]; a
    name that no cast finds goes with the nuisance parameters or is
    dropped. *)
Definition cast_finds (set : list Param) (n : string) : bool :=
  match dynamic_cast_RooRealVar (RooArgSet_find set n) with
  | Some _ => true
  | None => false
  end.

Definition set_of_name (m_mc : ModelConfig) (n : string) : Role :=
  if cast_finds (GetParametersOfInterest m_mc) n then POI
  else if cast_finds (GetGlobalObservables m_mc) n then GlobalObs
  else if match GetConditionalObservables m_mc with
          | Some cobs => cast_finds cobs n
          | None => false
          end then CondObs
  else Nuisance.

(** Every member of an output set bears a name sorted into that set, and
    no output set holds a name twice. *)
Definition sets_sorted (m_mc : ModelConfig) (s : SubSets) : Prop :=
  forall (r : Role) (x : Param),
    In x (role_set r s) -> set_of_name m_mc (GetName x) = r.

Definition names_unique (s : SubSets) : Prop :=
  forall r : Role, NoDup (map GetName (role_set r s)).

(** Two channels that share parameters, and the model they come from. *)
Module Run.

Definition theta : Param :=
  {| parName := "theta"; isRooRealVar := true; isConstant := false |}.
Definition gobs_theta : Param :=
  {| parName := "gobs_theta"; isRooRealVar := true; isConstant := true |}.
Definition lumi : Param :=
  {| parName := "lumi"; isRooRealVar := true; isConstant := true |}.
(** A category among the free parameters: no [RooRealVar]. *)
Definition sample_type : Param :=
  {| parName := "sampleType"; isRooRealVar := false; isConstant := false |}.

Definition mc : ModelConfig :=
  {| GetParametersOfInterest := [Sample.mu];
     GetGlobalObservables := [gobs_theta];
     GetConditionalObservables := None |}.

Definition ch0 : Channel :=
  {| channelName := "ch0"; indivObs_of := [Sample.x];
     indivNuis_of := [Sample.mu; theta; gobs_theta];
     datai_of := Sample.low_pair |}.

Definition ch1 : Channel :=
  {| channelName := "ch1"; indivObs_of := [Sample.x];
     indivNuis_of := [Sample.mu; lumi; theta];
     datai_of := Sample.five_and_a_half |}.

End Run.

(** Every row of the dataset holds a value for every observable. *)
Definition rows_cover (indivObs : list RooRealVar) (d : RooDataSet) : Prop :=
  Forall (fun e =>
            Forall (fun v => lookup_value (varName v) (values e) <> None) indivObs)
         (events d).

(** A row cut down to the given names, in their order. *)
Definition restrict (names : list string) (row : list (string * Q))
  : list (string * Q) :=
  map (fun n => (n, default 0%Q (lookup_value n row))) names.

Definition project (names : list string) (e : Event) : Event :=
  {| values := restrict names (values e); weight := weight e |}.

(** A histogram category over the sample observable. *)
Definition sample_hist : HistChannel :=
  {| histLabel := "SR"; obsi_of := [Sample.x]; histi_of := Sample.low_pair |}.

(** The ModelConfig and the data the arguments of the constructor point
    to. *)
Definition workspace_at (TFile_Open : string -> option Input.TFile)
    (inputFileName wsName : string) : option Input.RooWorkspace :=
  match TFile_Open inputFileName with
  | Some file => Input.Get file !! wsName
  | None => None
  end.

Definition config_at (TFile_Open : string -> option Input.TFile)
    (inputFileName wsName mcName : string) : option Input.ModelConfig :=
  match workspace_at TFile_Open inputFileName wsName with
  | Some ws => Input.obj ws !! mcName
  | None => None
  end.

Definition data_at (TFile_Open : string -> option Input.TFile)
    (inputFileName wsName dataName : string) : option RooAbsData :=
  match workspace_at TFile_Open inputFileName wsName with
  | Some ws => Input.data ws !! dataName
  | None => None
  end.

Definition present {A : Type} (o : option A) : bool :=
  match o with Some _ => true | None => false end.

(** A file with one workspace over two channels. *)
Module Disk.

Definition config : Input.ModelConfig :=
  {| Input.GetNuisanceParameters := Some [Run.theta];
     Input.GetGlobalObservables := Some [Run.gobs_theta];
     Input.GetParametersOfInterest := Some [Sample.mu];
     Input.GetConditionalObservables := None;
     Input.GetPdf :=
       Some (SimultaneousPdf
               {| simName := "simPdf";
                  indexCat := Live {| catName := "channelCat";
                                      types := ["ch0"; "ch1"] |} |}) |}.

Definition ws : Input.RooWorkspace :=
  {| Input.obj := {[ "ModelConfig" := config ]};
     Input.data := {[ "obsData" := DataSet Sample.low_pair ]} |}.

Definition file : Input.TFile := {| Input.Get := {[ "combWS" := ws ]} |}.

Definition Open (name : string) : option Input.TFile :=
  if String.eqb name "in.root" then Some file else None.

Definition bins_as_events (_ : RooCategory) (h : RooDataSet)
  : outcome (list Event) := Ok (events h).

End Disk.

(** The ModelConfig the script reads from a file and a workspace. *)
Definition script_config {Arg : Type} (disk : gmap string (replace_POI.TFile Arg))
    (fileName workspaceName : string) : option (replace_POI.ModelConfig Arg) :=
  match disk !! fileName with
  | Some file =>
      match replace_POI.Get file !! workspaceName with
      | Some ws => replace_POI.obj ws !! "ModelConfig"
      | None => None
      end
  | None => None
  end.

(** The ModelConfig has what the script dereferences: a simultaneous
    density and its four sets. *)
Definition complete {Arg : Type} (mc : replace_POI.ModelConfig Arg) : bool :=
  match replace_POI.GetPdf mc with
  | Some pdf => present (dynamic_cast_RooSimultaneous pdf)
  | None => false
  end &&
  present (replace_POI.GetGlobalObservables mc) &&
  present (replace_POI.GetNuisanceParameters mc) &&
  present (replace_POI.GetObservables mc) &&
  present (replace_POI.GetParametersOfInterest mc).

Definition differs (name : string) (n : string) : bool := negb (String.eqb n name).

(** A file with the coupling cHWtil among two parameters of interest. *)
Module Script.

(** [new RooRealVar(name, name, 0, -5, 5)] *)
Definition var (name : string) : RooRealVar :=
  {| varName := name; getVal := 0; getMin := -5; getMax := 5 |}.

Definition cHWtil : RooRealVar :=
  {| varName := "cHWtil"; getVal := 1 # 2; getMin := -10; getMax := 10 |}.

Definition mc : replace_POI.ModelConfig RooRealVar :=
  {| replace_POI.GetPdf :=
       Some (SimultaneousPdf
               {| simName := "simPdf";
                  indexCat := Live {| catName := "channelCat";
                                      types := ["SR"] |} |});
     replace_POI.GetGlobalObservables := Some [];
     replace_POI.GetNuisanceParameters := Some [];
     replace_POI.GetObservables := Some [Sample.x];
     replace_POI.GetParametersOfInterest := Some [cHWtil; Sample.x];
     replace_POI.GetConditionalObservables := Some [] |}.

Definition disk : gmap string (replace_POI.TFile RooRealVar) :=
  {[ "HZZ.root" :=
       {| replace_POI.Get :=
            {[ "combined" := {| replace_POI.obj := {[ "ModelConfig" := mc ]} |} ]} |} ]}.

Definition entry (variable_name : string) : replace_POI.FileEntry :=
  {| replace_POI.inputfilePath := "HZZ.root";
     replace_POI.outputfilePath := "HZZ.root";
     replace_POI.workspaceName := "combined";
     replace_POI.variable_name := variable_name;
     replace_POI.channelname := "HZZ" |}.

End Script.

(** An entry that rewrites the workspace of a file in place. *)
Definition in_place (path workspaceName : string) (entry : replace_POI.FileEntry)
  : Prop :=
  replace_POI.inputfilePath entry = path /\
  replace_POI.outputfilePath entry = path /\
  replace_POI.workspaceName entry = workspaceName.

(** The parameters of interest after the entries of a table, one update
    after the other. *)
Definition update_all {Arg : Type} `{TNamed Arg} (var : string -> Arg)
    (files : list replace_POI.FileEntry) (POI : list Arg) : list Arg :=
  fold_left (fun allPOI entry =>
               replace_POI.update_POI var allPOI
                 (replace_POI.variable_name entry) (replace_POI.channelname entry))
            files POI.

(** The numbers written in a selection, as [fillIndices] reads them:
    the values [Atoi] computes for the parts between the dashes of each
    token between the commas, taken without the bounds of an [int]. *)
Definition Atoi_value (s : string) : Z :=
  TString.atoi_value (TString.ReplaceAll " " "" s).

Definition token_numbers (iStr : string) : list Z :=
  match TString.Tokenize "-" iStr with
  | [jStr0] => [Atoi_value (TString.ReplaceAll " " "" jStr0)]
  | parts => map Atoi_value parts
  end.

Definition written_numbers (indices : string) : list Z :=
  flat_map token_numbers
    (TString.Tokenize "," (auxUtil.removeWhiteSpace (TString.ToLower indices))).

(** A model that declares, under the name mu, a parameter of interest
    that is no [RooRealVar]. *)
Definition mu_category : Param :=
  {| parName := "mu"; isRooRealVar := false; isConstant := false |}.

Definition mc_category_poi : ModelConfig :=
  {| GetParametersOfInterest := [mu_category];
     GetGlobalObservables := [];
     GetConditionalObservables := None |}.

(** * Properties *)

(** ** Strings *)

Lemma string_app_cons (c : ascii) (a b : string) :
  String c a +:+ b = String c (a +:+ b).
Proof. reflexivity. Qed.

Lemma string_app_nil (b : string) : "" +:+ b = b.
Proof. reflexivity. Qed.

Lemma string_app_assoc (a b c : string) : (a +:+ b) +:+ c = a +:+ (b +:+ c).
Proof.
  induction a as [|x a IH]; [reflexivity|].
  now rewrite !string_app_cons, IH.
Qed.

Lemma string_app_empty_r (a : string) : a +:+ "" = a.
Proof.
  induction a as [|x a IH]; [reflexivity|].
  now rewrite string_app_cons, IH.
Qed.

Lemma string_app_length (a b : string) :
  String.length (a +:+ b) = (String.length a + String.length b)%nat.
Proof.
  induction a as [|x a IH]; [reflexivity|].
  rewrite string_app_cons. simpl. now rewrite IH.
Qed.

Lemma prefix_app (pat rest : string) : String.prefix pat (pat +:+ rest) = true.
Proof.
  induction pat as [|c pat IH].
  - rewrite string_app_nil. now destruct rest.
  - rewrite string_app_cons. simpl.
    destruct (ascii_dec c c) as [_|ne]; [exact IH | now elim ne].
Qed.

Lemma Contains_prefix (pat s : string) :
  String.prefix pat s = true -> TString.Contains pat s = true.
Proof. intros H. destruct s; cbn [TString.Contains]; now rewrite H. Qed.

Lemma Contains_occurs (pat s : string) : occurs_in pat s -> TString.Contains pat s = true.
Proof.
  intros (pre & post & ->).
  induction pre as [|c pre IH].
  - rewrite string_app_nil. apply Contains_prefix, prefix_app.
  - rewrite string_app_cons. cbn [TString.Contains]. rewrite IH. apply orb_true_r.
Qed.

Lemma occurs_in_length (a b : string) :
  occurs_in a b -> a <> b -> (String.length a < String.length b)%nat.
Proof.
  intros (pre & post & ->) ne.
  rewrite !string_app_length.
  destruct pre as [|c pre]; simpl; [|lia].
  destruct post as [|d post]; simpl; [|lia].
  elim ne. now rewrite string_app_nil, string_app_empty_r.
Qed.

(** ** The formula rewriter *)

Section RewriterFacts.

Variable TMath_Sort : list nat -> list nat.
Variable m_editRFV : Z.

Local Abbreviation edit := (editRFV TMath_Sort m_editRFV).
Local Abbreviation walk := (editRFV_dependents (editRFV TMath_Sort m_editRFV)).

Lemma editRFV_unfold (varName formExpr : string) (dependents : list RooAbsArg) :
  edit (RooFormulaVar varName formExpr dependents) =
  if TString.Contains "@" formExpr then Ok None
  else match editRFV_expr TMath_Sort m_editRFV dependents formExpr with
       | None => Ok None
       | Some newFormExpr =>
           let! varList := walk dependents [] in
           Ok (Some (RooFormulaVar varName newFormExpr varList))
       end.
Proof. reflexivity. Qed.

(** Dependents that are no formulas are taken over as they are. *)
Lemma editRFV_dependents_others (pre rest acc : list RooAbsArg) :
  Forall (fun a => exists n, a = RooOtherArg n) pre ->
  walk (pre ++ rest)%list acc = walk rest (fold_left RooArgSet_add pre acc).
Proof.
  intros H. revert acc. induction H as [|a pre (n & ->) _ IH]; intros acc.
  - reflexivity.
  - cbn [app editRFV_dependents fold_left]. apply IH.
Qed.

(** A formula dependent whose own rewrite gives [NULL] stops the
    rewrite of its parent at the use of the null pointer. *)
Lemma editRFV_dependents_null (pre post acc : list RooAbsArg)
    (n e : string) (ds : list RooAbsArg) :
  Forall (fun a => exists n, a = RooOtherArg n) pre ->
  edit (RooFormulaVar n e ds) = Ok None ->
  walk (pre ++ RooFormulaVar n e ds :: post)%list acc = Fault NullDeref.
Proof.
  intros Hpre Hnull.
  rewrite editRFV_dependents_others by exact Hpre.
  cbn [editRFV_dependents]. now rewrite Hnull.
Qed.

(** So does the rewrite of the parent, once its own text is rewritten. *)
Lemma editRFV_null_dependent (varName formExpr newFormExpr : string)
    (pre post : list RooAbsArg) (n e : string) (ds : list RooAbsArg) :
  TString.Contains "@" formExpr = false ->
  editRFV_expr TMath_Sort m_editRFV
    (pre ++ RooFormulaVar n e ds :: post)%list formExpr = Some newFormExpr ->
  Forall (fun a => exists n, a = RooOtherArg n) pre ->
  edit (RooFormulaVar n e ds) = Ok None ->
  edit (RooFormulaVar varName formExpr (pre ++ RooFormulaVar n e ds :: post)%list)
    = Fault NullDeref.
Proof.
  intros Hat Hexpr Hpre Hnull.
  rewrite editRFV_unfold, Hat, Hexpr.
  now rewrite editRFV_dependents_null.
Qed.

End RewriterFacts.

(** C8. A formula whose expression text holds the character '@' is left
    alone: [editRFV] returns the null result, whatever the edit mode, the
    dependents and the sorting routine. *)
Theorem editRFV_positional_no_change :
  forall (TMath_Sort : list nat -> list nat) (m_editRFV : Z)
         (varName formExpr : string) (dependents : list RooAbsArg),
    occurs_in "@" formExpr ->
    editRFV TMath_Sort m_editRFV (RooFormulaVar varName formExpr dependents) = Ok None.
Proof.
  intros Sort mode varName formExpr dependents Hat.
  rewrite editRFV_unfold.
  now rewrite (Contains_occurs _ _ Hat).
Qed.

Lemma editRFV_positional_no_change_witness :
  occurs_in "@" "@0*@1" /\
  editRFV TMath.Sort_insertion 2
    (RooFormulaVar "f" "@0*@1" [RooOtherArg "a"; RooOtherArg "b"]) = Ok None.
Proof.
  assert (H : occurs_in "@" "@0*@1") by (exists "", "0*@1"; reflexivity).
  split; [exact H|].
  exact (editRFV_positional_no_change TMath.Sort_insertion 2 "f" "@0*@1"
           [RooOtherArg "a"; RooOtherArg "b"] H).
Defined.

(** C1. [Sample.f] is the formula "a*g" over the dependents a (no
    formula) and g, and g the formula "@0+1", positional already.  Under
    mode 1 the rewrite of g returns the null result, and the rewrite of f
    ends in the use of that null pointer instead of keeping g. *)
Theorem editRFV_nested_null_is_dereferenced :
  forall TMath_Sort : list nat -> list nat,
    editRFV TMath_Sort 1 Sample.g = Ok None /\
    editRFV TMath_Sort 1 Sample.f = Fault NullDeref.
Proof.
  intros Sort.
  assert (Hg : editRFV Sort 1 Sample.g = Ok None) by reflexivity.
  split; [exact Hg|].
  apply (editRFV_null_dependent Sort 1 "f" "a*g"
           (editRFV_raw Sort [RooOtherArg "a"; Sample.g] "a*g")
           [RooOtherArg "a"] [] "g" "@0+1" [RooOtherArg "b"]).
  - reflexivity.
  - reflexivity.
  - repeat constructor. now exists "a".
  - exact Hg.
Qed.

(** ** Order of the textual replacements *)

Lemma fill_reNameMap_other (names : list string) :
  forall (i : nat) (m : gmap string string) (name : string),
    ~ In name names -> fill_reNameMap i names m !! name = m !! name.
Proof.
  induction names as [|x names IH]; intros i m name Hn; [reflexivity|].
  cbn [fill_reNameMap]. rewrite IH by (intros H; apply Hn; now right).
  apply lookup_insert_ne. intros ->. apply Hn. now left.
Qed.

(** The label a name ends up with is the index of its last occurrence
    among the dependents. *)
Lemma fill_reNameMap_last (names : list string) :
  forall (i k : nat) (m : gmap string string) (name : string),
    names !! k = Some name ->
    (forall j, (k < j)%nat -> names !! j <> Some name) ->
    fill_reNameMap i names m !! name = Some (TString.Format_at (i + k)).
Proof.
  induction names as [|x names IH]; intros i k m name Hk Hlast; [discriminate|].
  destruct k as [|k]; cbn [fill_reNameMap].
  - injection Hk as ->.
    rewrite fill_reNameMap_other.
    + rewrite Nat.add_0_r. apply lookup_insert_eq.
    + intros Hin. apply list_elem_of_In, list_elem_of_lookup in Hin as [j Hj].
      apply (Hlast (S j)); [lia | exact Hj].
  - replace (i + S k)%nat with (S i + k)%nat by lia.
    apply IH; [exact Hk|].
    intros j Hj. apply (Hlast (S j)). lia.
Qed.

Lemma names_from_seq (names : list string) :
  map (fun i => default "" (names !! i)) (seq 0 (length names)) = names.
Proof.
  apply list_eq. intros i.
  change (map ?f ?l) with (f <$> l). rewrite list_lookup_fmap.
  destruct (names !! i) as [x|] eqn:E.
  - rewrite lookup_seq_lt by (apply lookup_lt_is_Some; eauto).
    simpl. now rewrite E.
  - rewrite lookup_seq_ge by (now apply lookup_ge_None). reflexivity.
Qed.

Lemma StronglySorted_lookup {A : Type} (R : A -> A -> Prop) (l : list A) :
  StronglySorted R l ->
  forall (p q : nat) (x y : A),
    (p < q)%nat -> l !! p = Some x -> l !! q = Some y -> R x y.
Proof.
  induction 1 as [|a l Hs IH Hall]; intros p q x y Hpq Hp Hq; [discriminate|].
  destruct q as [|q]; [lia|]. simpl in Hq.
  destruct p as [|p]; simpl in Hp.
  - injection Hp as <-.
    rewrite Forall_forall in Hall. apply Hall.
    apply list_elem_of_lookup. eauto.
  - apply (IH p q); [lia | exact Hp | exact Hq].
Qed.

Lemma fold_left_map_fuse {A B C : Type} (f : A -> C -> A) (g : B -> C) (l : list B) :
  forall a : A, fold_left f (map g l) a = fold_left (fun a x => f a (g x)) l a.
Proof. induction l as [|x l IH]; intros a; simpl; [reflexivity | apply IH]. Qed.

(** Whatever [TMath::Sort] does with equal keys, the keys 1, 2, 3 leave it
    one answer. *)
Lemma Sort_contract_keys_123 (Sort : list nat -> list nat) :
  TMath.Sort_contract Sort -> Sort [1; 2; 3]%nat = [2; 1; 0]%nat.
Proof.
  intros H. destruct (H [1; 2; 3]%nat) as [Hp Hs]. cbn [length seq] in Hp.
  pose proof (Permutation_length Hp) as Hl.
  assert (Hnd : NoDup (Sort [1; 2; 3]%nat)).
  { apply NoDup_ListNoDup. apply (Permutation_NoDup (Permutation_sym Hp)).
    repeat constructor; simpl; intuition lia. }
  assert (Hin : forall x, In x (Sort [1; 2; 3]%nat) -> (x = 0 \/ x = 1 \/ x = 2)%nat).
  { intros x Hx. apply (Permutation_in _ Hp) in Hx. simpl in Hx. intuition lia. }
  destruct (Sort [1; 2; 3]%nat) as [|x [|y [|z [|? ?]]]]; simpl in Hl; try discriminate.
  apply StronglySorted_inv in Hs as [Hs Hx].
  apply StronglySorted_inv in Hs as [_ Hy].
  rewrite List.Forall_forall in Hx, Hy.
  pose proof (Hx y ltac:(simpl; tauto)) as Hxy.
  pose proof (Hy z ltac:(simpl; tauto)) as Hyz.
  apply NoDup_cons in Hnd as [Hx' Hnd].
  apply NoDup_cons in Hnd as [Hy' _].
  rewrite !elem_of_cons in Hx'. rewrite elem_of_cons in Hy'.
  destruct (Hin x ltac:(simpl; tauto)) as [-> | [-> | ->]];
    destruct (Hin y ltac:(simpl; tauto)) as [-> | [-> | ->]];
    destruct (Hin z ltac:(simpl; tauto)) as [-> | [-> | ->]];
    simpl in Hxy, Hyz; try lia; try reflexivity; exfalso; tauto.
Qed.

Lemma nth_nameLength (names : list string) (i : nat) :
  nth i (map String.length names) 0%nat = String.length (default "" (names !! i)).
Proof.
  rewrite nth_lookup. change (map ?f ?l) with (f <$> l).
  rewrite list_lookup_fmap. now destruct (names !! i).
Qed.

Section SortedReplacement.

Variable TMath_Sort : list nat -> list nat.
Hypothesis Sort_ok : TMath.Sort_contract TMath_Sort.

Variable dependents : list RooAbsArg.

Local Abbreviation names := (map GetName dependents).
Local Abbreviation order := (replacement_order TMath_Sort dependents).

Lemma replacement_order_names :
  map fst order =
  map (fun i => default "" (names !! i)) (TMath_Sort (map String.length names)).
Proof. unfold replacement_order. rewrite map_map. reflexivity. Qed.

Lemma editRFV_raw_order (formExpr : string) :
  editRFV_raw TMath_Sort dependents formExpr =
  fold_left (fun e r => TString.ReplaceAll (fst r) (snd r) e) order formExpr.
Proof.
  unfold editRFV_raw, replaceNames, replacement_order.
  now rewrite fold_left_map_fuse.
Qed.

Lemma replacement_order_perm : Permutation (map fst order) names.
Proof.
  rewrite replacement_order_names.
  destruct (Sort_ok (map String.length names)) as [Hp _].
  rewrite (Permutation_map _ Hp), length_map.
  now rewrite names_from_seq.
Qed.

Lemma replacement_order_sorted :
  StronglySorted (fun a b => (String.length b <= String.length a)%nat)
                 (map fst order).
Proof.
  rewrite replacement_order_names.
  destruct (Sort_ok (map String.length names)) as [_ Hs].
  change (map ?f ?l) with (f <$> l) at 1.
  eapply StronglySorted_fmap; [|exact Hs].
  intros i j Hij. simpl. now rewrite <- !nth_nameLength.
Qed.

Lemma replacement_order_label (i : nat) (name new : string) :
  names !! i = Some name ->
  (forall j, (i < j)%nat -> names !! j <> Some name) ->
  In (name, new) order -> new = TString.Format_at i.
Proof.
  intros Hi Hlast Hin. unfold replacement_order in Hin.
  apply in_map_iff in Hin as (index & Heq & _).
  injection Heq as Hname Hnew. rewrite Hname in Hnew.
  rewrite (fill_reNameMap_last names 0 i ∅ name Hi Hlast) in Hnew.
  now subst new.
Qed.

Lemma replacement_order_longest_first (p q : nat) (a b : string) :
  map fst order !! p = Some a -> map fst order !! q = Some b ->
  occurs_in a b -> a <> b -> (q < p)%nat.
Proof.
  intros Hp Hq Hocc Hne.
  pose proof (occurs_in_length a b Hocc Hne) as Hlen.
  destruct (Nat.lt_trichotomy p q) as [Hlt | [-> | Hgt]]; [| |exact Hgt].
  - pose proof (StronglySorted_lookup _ _ replacement_order_sorted
                  p q a b Hlt Hp Hq) as H. simpl in H. lia.
  - rewrite Hp in Hq. injection Hq as ->. lia.
Qed.

End SortedReplacement.

(** The insertion sort keeps the promise of [TMath::Sort]. *)

Lemma insert_desc_perm (a : list nat) (i : nat) (l : list nat) :
  Permutation (TMath.insert_desc a i l) (i :: l).
Proof.
  induction l as [|j r IH]; simpl; [reflexivity|].
  destruct (nth j a 0 <=? nth i a 0)%nat; [reflexivity|].
  rewrite IH. apply perm_swap.
Qed.

Lemma insert_desc_sorted (a : list nat) (i : nat) (l : list nat) :
  StronglySorted (fun x y => (nth y a 0 <= nth x a 0)%nat) l ->
  StronglySorted (fun x y => (nth y a 0 <= nth x a 0)%nat) (TMath.insert_desc a i l).
Proof.
  induction 1 as [|j r Hs IH Hall]; simpl.
  - repeat constructor.
  - destruct (nth j a 0 <=? nth i a 0)%nat eqn:E.
    + apply Nat.leb_le in E. constructor; [now constructor|].
      constructor; [exact E|].
      eapply Forall_impl; [exact Hall|]. simpl. intros x Hx. lia.
    + apply Nat.leb_gt in E. constructor; [exact IH|].
      rewrite insert_desc_perm. constructor; [lia | exact Hall].
Qed.

Lemma Sort_insertion_contract : TMath.Sort_contract TMath.Sort_insertion.
Proof.
  intros a. unfold TMath.Sort_insertion.
  generalize (seq 0 (length a)) as l.
  induction l as [|i l [IHp IHs]]; simpl.
  - split; [reflexivity | constructor].
  - split.
    + rewrite insert_desc_perm. now constructor.
    + now apply insert_desc_sorted.
Qed.

(** C2. In the raw-name case the dependent at index i is given the label
    "@i" (a name carried by several dependents keeps the label of the
    last of them), and the replacements are applied in an order that
    holds every dependent name once and in which the name lengths do not
    increase.  So a name that occurs inside a different, longer name is
    replaced after the longer one, and "ab+abc" over the dependents a, ab,
    abc ([Sample.ab_abc]) becomes "@1+@2". *)
Theorem editRFV_raw_longest_first :
  forall TMath_Sort : list nat -> list nat,
    TMath.Sort_contract TMath_Sort ->
    (forall dependents : list RooAbsArg,
        let names := map GetName dependents in
        let order := replacement_order TMath_Sort dependents in
        (forall formExpr : string,
            editRFV_raw TMath_Sort dependents formExpr =
            fold_left (fun e r => TString.ReplaceAll (fst r) (snd r) e) order formExpr) /\
        (forall (i : nat) (name new : string),
            names !! i = Some name ->
            (forall j, (i < j)%nat -> names !! j <> Some name) ->
            In (name, new) order -> new = TString.Format_at i) /\
        Permutation (map fst order) names /\
        StronglySorted (fun a b => (String.length b <= String.length a)%nat)
                       (map fst order) /\
        (forall (p q : nat) (a b : string),
            map fst order !! p = Some a -> map fst order !! q = Some b ->
            occurs_in a b -> a <> b -> (q < p)%nat)) /\
    editRFV TMath_Sort 1 Sample.ab_abc =
    Ok (Some (RooFormulaVar "h" "@1+@2" Sample.abc_deps)).
Proof.
  intros Sort Hsort. split.
  - intros dependents names order. repeat split.
    + apply editRFV_raw_order.
    + apply replacement_order_label.
    + now apply replacement_order_perm.
    + now apply replacement_order_sorted.
    + now apply replacement_order_longest_first.
  - unfold Sample.ab_abc, Sample.abc_deps. rewrite editRFV_unfold.
    change (TString.Contains "@" "ab+abc") with false. cbv iota.
    unfold editRFV_expr.
    change (TString.Contains "x[" "ab+abc" && TString.Contains "]" "ab+abc")
      with false.
    change (1 <? 1)%Z with false. cbv iota.
    unfold editRFV_raw.
    change (map String.length (map GetName
              [RooOtherArg "a"; RooOtherArg "ab"; RooOtherArg "abc"]))
      with [1; 2; 3]%nat.
    rewrite (Sort_contract_keys_123 Sort Hsort).
    vm_compute. reflexivity.
Qed.

Lemma editRFV_raw_longest_first_witness :
  TMath.Sort_contract TMath.Sort_insertion /\
  editRFV TMath.Sort_insertion 1 Sample.ab_abc =
  Ok (Some (RooFormulaVar "h" "@1+@2" Sample.abc_deps)).
Proof.
  split; [exact Sort_insertion_contract|].
  exact (proj2 (editRFV_raw_longest_first TMath.Sort_insertion Sort_insertion_contract)).
Defined.

(** ** The channel index parser *)

Lemma fillIndices_tokens_app (pre rest : list string) :
  forall acc : list Z,
    fillIndices_tokens (pre ++ rest)%list acc =
    let! m := fillIndices_tokens pre acc in fillIndices_tokens rest m.
Proof.
  induction pre as [|t pre IH]; intros acc; [reflexivity|].
  cbn [app fillIndices_tokens].
  destruct (fillIndices_token t acc) as [m|f]; [apply IH | reflexivity].
Qed.

Lemma fillIndices_not_all (numBins : Z) (indices : string) (acc : list Z) :
  TString.ToLower indices <> "all" ->
  fillIndices numBins indices acc =
  fillIndices_tokens
    (TString.Tokenize "," (auxUtil.removeWhiteSpace (TString.ToLower indices))) acc.
Proof.
  intros H. unfold fillIndices.
  now apply String.eqb_neq in H as ->.
Qed.

(** The run up to and including the token [iStr]. *)
Lemma fillIndices_at_token (numBins : Z) (indices : string) (acc m : list Z)
    (pre post : list string) (iStr : string) :
  TString.ToLower indices <> "all" ->
  TString.Tokenize "," (auxUtil.removeWhiteSpace (TString.ToLower indices))
    = (pre ++ iStr :: post)%list ->
  fillIndices_tokens pre acc = Ok m ->
  fillIndices numBins indices acc =
  let! m' := fillIndices_token iStr m in fillIndices_tokens post m'.
Proof.
  intros Hall Htok Hpre.
  rewrite fillIndices_not_all by exact Hall.
  rewrite Htok, fillIndices_tokens_app, Hpre. reflexivity.
Qed.

(** C3, as the code has it.  In an input other than "all", a token whose
    number of dash-separated parts is neither one nor two ends the run in
    the fatal error "Invalid syntax <token>", and nothing is added for it.
    A token of one part is not checked for being a number: the value
    [Atoi] reads from it is added. *)
Theorem fillIndices_invalid_syntax :
  forall (numBins : Z) (indices : string) (m_useIndices m : list Z)
         (pre post : list string) (iStr : string),
    TString.ToLower indices <> "all" ->
    TString.Tokenize "," (auxUtil.removeWhiteSpace (TString.ToLower indices))
      = (pre ++ iStr :: post)%list ->
    fillIndices_tokens pre m_useIndices = Ok m ->
    (length (TString.Tokenize "-" iStr) <> 1%nat ->
     length (TString.Tokenize "-" iStr) <> 2%nat ->
     fillIndices numBins indices m_useIndices =
     Fault (Abort ("Invalid syntax " +:+ iStr))) /\
    (forall (jStr : string) (v : Z),
        TString.Tokenize "-" iStr = [jStr] ->
        TString.Atoi (TString.ReplaceAll " " "" jStr) = Ok v ->
        fillIndices_tokens (pre ++ [iStr])%list m_useIndices = Ok (m ++ [v])%list).
Proof.
  intros numBins indices acc m pre post iStr Hall Htok Hpre. split.
  - intros H1 H2.
    rewrite (fillIndices_at_token _ _ _ _ _ _ _ Hall Htok Hpre).
    unfold fillIndices_token.
    destruct (TString.Tokenize "-" iStr) as [|a [|b [|c l]]]; simpl in *;
      try reflexivity; congruence.
  - intros jStr v Hj Hv.
    rewrite fillIndices_tokens_app, Hpre. cbn [bind fillIndices_tokens].
    unfold fillIndices_token. rewrite Hj, Hv. reflexivity.
Qed.

Lemma fillIndices_invalid_syntax_witness :
  TString.ToLower "0,1-2-3" <> "all" /\
  fillIndices 4 "0,1-2-3" [] = Fault (Abort "Invalid syntax 1-2-3").
Proof.
  assert (H : TString.ToLower "0,1-2-3" <> "all") by discriminate.
  split; [exact H|].
  refine (proj1 (fillIndices_invalid_syntax 4 "0,1-2-3" [] [0%Z] ["0"] [] "1-2-3"
                   H eq_refl eq_refl) _ _); vm_compute; discriminate.
Defined.

(** C3, as it is worded, fails on the token "x": it is no integer and no
    range, and the run goes on with index 0 added. *)
Lemma fillIndices_x_adds_index_0 :
  is_single_integer "x" = false /\ ~ is_two_part_range "x" /\
  TString.ToLower "x" <> "all" /\
  fillIndices 4 "x" [] = Ok [0%Z].
Proof.
  split; [reflexivity|]. split; [|split; [discriminate | reflexivity]].
  intros (lo & hi & _ & _ & H).
  destruct lo as [|c lo]; [discriminate|].
  rewrite string_app_cons in H. injection H as _ H.
  destruct lo; discriminate.
Qed.

(** C4. A token of two dash-separated parts that read as lo and hi: with
    lo > hi the run ends in the failed assertion; with lo <= hi the token
    adds lo, lo+1, ..., hi, in this order, and the run goes on with the
    next token. *)
Theorem fillIndices_range_token :
  forall (numBins : Z) (indices : string) (m_useIndices m : list Z)
         (pre post : list string) (iStr str1 str2 : string) (int1 int2 : Z),
    TString.ToLower indices <> "all" ->
    TString.Tokenize "," (auxUtil.removeWhiteSpace (TString.ToLower indices))
      = (pre ++ iStr :: post)%list ->
    fillIndices_tokens pre m_useIndices = Ok m ->
    TString.Tokenize "-" iStr = [str1; str2] ->
    TString.Atoi str1 = Ok int1 ->
    TString.Atoi str2 = Ok int2 ->
    ((int2 < int1)%Z ->
     fillIndices numBins indices m_useIndices = Fault AssertFailed) /\
    ((int1 <= int2)%Z -> (int2 < INT_MAX)%Z ->
     fillIndices_tokens (pre ++ [iStr])%list m_useIndices
       = Ok (m ++ int_range int1 int2)%list /\
     fillIndices numBins indices m_useIndices
       = fillIndices_tokens post (m ++ int_range int1 int2)%list /\
     Z.of_nat (length (int_range int1 int2)) = (int2 - int1 + 1)%Z /\
     (forall k : nat, (Z.of_nat k <= int2 - int1)%Z ->
                      int_range int1 int2 !! k = Some (int1 + Z.of_nat k)%Z)).
Proof.
  intros numBins indices acc m pre post iStr str1 str2 int1 int2
         Hall Htok Hpre Hparts H1 H2.
  assert (Hstep : fillIndices_token iStr m =
                  if (int1 <=? int2)%Z
                  then if (int2 =? INT_MAX)%Z then Fault Undefined
                       else Ok (m ++ int_range int1 int2)%list
                  else Fault AssertFailed).
  { unfold fillIndices_token. rewrite Hparts, H1, H2. reflexivity. }
  split.
  - intros Hlt.
    rewrite (fillIndices_at_token _ _ _ _ _ _ _ Hall Htok Hpre), Hstep.
    now apply Z.leb_gt in Hlt as ->.
  - intros Hle Hmax.
    apply Z.leb_le in Hle as Hle'. rewrite Hle' in Hstep.
    assert (Hne : (int2 =? INT_MAX)%Z = false) by (apply Z.eqb_neq; lia).
    rewrite Hne in Hstep. repeat split.
    + rewrite fillIndices_tokens_app, Hpre. cbn [bind fillIndices_tokens].
      now rewrite Hstep.
    + now rewrite (fillIndices_at_token _ _ _ _ _ _ _ Hall Htok Hpre), Hstep.
    + unfold int_range. rewrite length_seqZ. lia.
    + intros k Hk. unfold int_range. apply lookup_seqZ_lt. lia.
Qed.

Lemma fillIndices_range_token_witness :
  fillIndices 4 "3-1" [] = Fault AssertFailed /\
  fillIndices 4 "0-2,5" [] = Ok [0; 1; 2; 5]%Z.
Proof.
  split.
  - refine (proj1 (fillIndices_range_token 4 "3-1" [] [] [] [] "3-1" "3" "1" 3 1
                     _ eq_refl eq_refl eq_refl eq_refl eq_refl) _);
      [discriminate | reflexivity].
  - refine (eq_trans
              (proj1 (proj2 (proj2 (fillIndices_range_token 4 "0-2,5" [] [] [] ["5"]
                                      "0-2" "0" "2" 0 2
                                      _ eq_refl eq_refl eq_refl eq_refl eq_refl)
                               _ _)))
              eq_refl);
      [discriminate | discriminate | reflexivity].
Defined.

(** ** Parameter roles *)

Lemma RooArgSet_find_Some (set : list Param) (v x : Param) :
  RooArgSet_find set (GetName v) = Some x ->
  declares set v = true /\ GetName x = GetName v /\ In x set.
Proof.
  unfold RooArgSet_find, declares. intros H.
  apply List.find_some in H as [Hin Heq].
  repeat split; [|now apply String.eqb_eq | exact Hin].
  apply existsb_exists. now exists x.
Qed.

Lemma RooArgSet_find_None (set : list Param) (v : Param) :
  RooArgSet_find set (GetName v) = None -> declares set v = false.
Proof.
  unfold RooArgSet_find, declares. intros H.
  apply Bool.not_true_is_false. intros Hex.
  apply existsb_exists in Hex as (x & Hin & Hx).
  pose proof (List.find_none _ _ H x Hin) as Hn. simpl in Hn. congruence.
Qed.

(** On a set of [RooRealVar]s the cast after [find] never fails. *)
Lemma find_cast (set : list Param) (v : Param) :
  Forall (fun p => isRooRealVar p = true) set ->
  (exists x, dynamic_cast_RooRealVar (RooArgSet_find set (GetName v)) = Some x /\
             declares set v = true /\ GetName x = GetName v) \/
  (dynamic_cast_RooRealVar (RooArgSet_find set (GetName v)) = None /\
   declares set v = false).
Proof.
  intros Hall. destruct (RooArgSet_find set (GetName v)) as [x|] eqn:E.
  - left. exists x. apply RooArgSet_find_Some in E as (Hd & Hn & Hin).
    rewrite List.Forall_forall in Hall. simpl. rewrite (Hall x Hin). auto.
  - right. split; [reflexivity | now apply RooArgSet_find_None].
Qed.

Lemma RooArgSet_add_In (set : list Param) (x : Param) :
  In (GetName x) (map GetName (RooArgSet_add set x)).
Proof.
  unfold RooArgSet_add.
  destruct (RooArgSet_find set (GetName x)) as [y|] eqn:E.
  - apply RooArgSet_find_Some in E as (_ & Hn & Hin).
    rewrite <- Hn. now apply in_map.
  - rewrite map_app. apply in_or_app. right. now left.
Qed.

Lemma spec_role_cases (m_mc : ModelConfig) (v : Param) :
  let inPoi := declares (GetParametersOfInterest m_mc) v in
  let inGobs := declares (GetGlobalObservables m_mc) v in
  let inCobs := declared_cond m_mc v in
  let r := spec_role m_mc v in
  (r = POI <-> inPoi = true) /\
  (r = GlobalObs <-> inPoi = false /\ inGobs = true) /\
  (r = CondObs <-> inPoi = false /\ inGobs = false /\ inCobs = true) /\
  (r = Nuisance <->
   inPoi = false /\ inGobs = false /\ inCobs = false /\ isConstant v = false) /\
  (r = Dropped <->
   inPoi = false /\ inGobs = false /\ inCobs = false /\ isConstant v = true).
Proof.
  unfold spec_role, declared_cond.
  destruct (declares (GetParametersOfInterest m_mc) v);
    destruct (declares (GetGlobalObservables m_mc) v);
    destruct (GetConditionalObservables m_mc) as [cobs|];
    try destruct (declares cobs v);
    destruct (isConstant v); simpl; intuition congruence.
Qed.

(** The sets only grow. *)
Lemma RooArgSet_add_incl (set : list Param) (x y : Param) :
  In x set -> In x (RooArgSet_add set y).
Proof.
  intros H. unfold RooArgSet_add.
  destruct (RooArgSet_find set (GetName y)); [exact H|].
  apply in_or_app. now left.
Qed.

(** What [assign_role] does to the four sets. *)
Lemma assign_role_sets (r : Role) (x : Param) (s : SubSets) :
  (forall r' : Role, r' <> r -> role_set r' (assign_role r x s) = role_set r' s) /\
  (r <> Dropped ->
   role_set r (assign_role r x s) = RooArgSet_add (role_set r s) x /\
   In (GetName x) (map GetName (role_set r (assign_role r x s)))) /\
  (r = Dropped -> assign_role r x s = s).
Proof.
  split; [|split].
  - intros r' Hr'. destruct r, r'; try reflexivity; congruence.
  - intros Hr. destruct r; try congruence; split; try reflexivity;
      apply RooArgSet_add_In.
  - now intros ->.
Qed.

Ltac role_found x Hx := exists x; split; [exact Hx | reflexivity].

(** One pass of the loop body on a [RooRealVar]: never a fault, and the
    sets change as [spec_role] says, with the declared object of that
    name, or the parameter itself, as the member added. *)
Lemma classify_param_step (m_mc : ModelConfig) (v : Param) (s : SubSets) :
  isRooRealVar v = true ->
  all_RooRealVar m_mc ->
  exists var : Param,
    GetName var = GetName v /\
    classify_param m_mc v s = Ok (assign_role (spec_role m_mc v) var s).
Proof.
  intros Hv (Hpoi & Hgobs & Hcobs).
  unfold classify_param. simpl dynamic_cast_RooRealVar at 1. rewrite Hv.
  unfold spec_role.
  destruct (find_cast _ v Hpoi) as [(x & -> & -> & Hx) | (-> & ->)];
    [role_found x Hx|].
  destruct (find_cast _ v Hgobs) as [(x & -> & -> & Hx) | (-> & ->)];
    [role_found x Hx|].
  assert (Hc :
    (exists x,
        match GetConditionalObservables m_mc with
        | Some cobs => dynamic_cast_RooRealVar (RooArgSet_find cobs (GetName v))
        | None => None
        end = Some x /\
        match GetConditionalObservables m_mc with
        | Some cobs => declares cobs v
        | None => false
        end = true /\ GetName x = GetName v) \/
    (match GetConditionalObservables m_mc with
     | Some cobs => dynamic_cast_RooRealVar (RooArgSet_find cobs (GetName v))
     | None => None
     end = None /\
     match GetConditionalObservables m_mc with
     | Some cobs => declares cobs v
     | None => false
     end = false)).
  { destruct (GetConditionalObservables m_mc) as [cobs|]; [|now right].
    apply find_cast, Hcobs. }
  destruct Hc as [(x & -> & -> & Hx) | (-> & ->)]; [role_found x Hx|].
  exists v. split; [reflexivity|]. now destruct (isConstant v).
Qed.

Lemma classify_param_grows (m_mc : ModelConfig) (v : Param) (s s' : SubSets) :
  classify_param m_mc v s = Ok s' ->
  forall (r : Role) (x : Param), In x (role_set r s) -> In x (role_set r s').
Proof.
  unfold classify_param. intros H r x Hin.
  repeat match type of H with
         | context [match ?e with _ => _ end] => destruct e
         end;
    try discriminate; injection H as <-;
    destruct r; simpl in *; auto using RooArgSet_add_incl.
Qed.

(** The whole loop over the free parameters of a channel. *)
Lemma classify_params_roles (m_mc : ModelConfig) (indivNuis : list Param) :
  all_RooRealVar m_mc ->
  Forall (fun v => isRooRealVar v = true) indivNuis ->
  forall s : SubSets,
  exists s' : SubSets,
    classify_params m_mc indivNuis s = Ok s' /\
    (forall (r : Role) (x : Param), In x (role_set r s) -> In x (role_set r s')) /\
    (forall v : Param,
        In v indivNuis -> spec_role m_mc v <> Dropped ->
        In (GetName v) (map GetName (role_set (spec_role m_mc v) s'))).
Proof.
  intros Hmc Hall. induction Hall as [|v rest Hv _ IH]; intros s.
  - exists s. repeat split; [auto | intros v []].
  - destruct (classify_param_step m_mc v s Hv Hmc) as (var & Hvar & H1).
    destruct (IH (assign_role (spec_role m_mc v) var s)) as (s' & Hs' & Hgrow & Hrest).
    exists s'. cbn [classify_params]. rewrite H1. cbn [bind].
    split; [exact Hs'|]. split.
    + intros r x Hx. apply Hgrow. now apply (classify_param_grows m_mc v s _ H1).
    + intros u [<- | Hu] Hr; [|now apply Hrest].
      destruct (assign_role_sets (spec_role m_mc v) var s) as (_ & Hrole & _).
      destruct (Hrole Hr) as [_ Hin]. rewrite Hvar in Hin.
      apply in_map_iff in Hin as (y & Hy & Hin).
      apply in_map_iff. exists y. split; [exact Hy|]. now apply Hgrow.
Qed.

(** X24. A free parameter that is a [RooRealVar], in a model whose
    declared sets hold [RooRealVar]s only, is given by one pass of the
    loop body the one role the tests yield in the order POI, global
    observable, conditional observable, nuisance: the set of that role
    receives it, every other set stays as it is, and a dropped parameter
    changes no set.  The conditional observables are consulted only when
    the model declares some; a nuisance parameter is unmatched and not
    constant; a dropped one is unmatched and constant. *)
Theorem classify_param_one_role :
  forall (m_mc : ModelConfig) (v : Param) (s : SubSets),
    isRooRealVar v = true ->
    all_RooRealVar m_mc ->
    let inPoi := declares (GetParametersOfInterest m_mc) v in
    let inGobs := declares (GetGlobalObservables m_mc) v in
    let inCobs := declared_cond m_mc v in
    let r := spec_role m_mc v in
    (exists (var : Param) (s' : SubSets),
        GetName var = GetName v /\
        s' = assign_role r var s /\
        classify_param m_mc v s = Ok s' /\
        (forall r' : Role, r' <> r -> role_set r' s' = role_set r' s) /\
        (r <> Dropped ->
         role_set r s' = RooArgSet_add (role_set r s) var /\
         In (GetName v) (map GetName (role_set r s'))) /\
        (r = Dropped -> s' = s)) /\
    (r = POI <-> inPoi = true) /\
    (r = GlobalObs <-> inPoi = false /\ inGobs = true) /\
    (r = CondObs <-> inPoi = false /\ inGobs = false /\ inCobs = true) /\
    (r = Nuisance <->
     inPoi = false /\ inGobs = false /\ inCobs = false /\ isConstant v = false) /\
    (r = Dropped <->
     inPoi = false /\ inGobs = false /\ inCobs = false /\ isConstant v = true) /\
    (m_hasCondObs m_mc = false -> r <> CondObs).
Proof.
  intros m_mc v s Hv Hmc inPoi inGobs inCobs r.
  split; [|split; [|split; [|split; [|split; [|split]]]]];
    try apply spec_role_cases.
  - destruct (classify_param_step m_mc v s Hv Hmc) as (var & Hvar & Hstep).
    destruct (assign_role_sets r var s) as (Hothers & Hrole & Hdrop).
    exists var, (assign_role r var s).
    split; [exact Hvar|]. split; [reflexivity|]. split; [exact Hstep|].
    split; [exact Hothers|]. split; [|exact Hdrop].
    intros Hr. destruct (Hrole Hr) as [Hadd Hin].
    split; [exact Hadd|]. now rewrite <- Hvar.
  - intros Hno Hr. apply spec_role_cases in Hr as (_ & _ & Hr).
    unfold declared_cond in Hr. unfold m_hasCondObs in Hno.
    destruct (GetConditionalObservables m_mc); discriminate.
Qed.

Lemma classify_param_one_role_witness :
  isRooRealVar Sample.mu = true /\ all_RooRealVar Sample.mc /\
  spec_role Sample.mc Sample.mu = POI /\
  exists s' : SubSets,
    classify_param Sample.mc Sample.mu Sample.no_sets = Ok s' /\
    subPoi s' = [Sample.mu].
Proof.
  assert (Hv : isRooRealVar Sample.mu = true) by reflexivity.
  assert (Hall : all_RooRealVar Sample.mc).
  { repeat split; repeat constructor. }
  split; [exact Hv|]. split; [exact Hall|].
  pose proof (classify_param_one_role Sample.mc Sample.mu Sample.no_sets Hv Hall)
    as ((var & s' & _ & _ & Hs' & _) & Hpoi & _).
  split; [apply Hpoi; reflexivity|].
  exists s'. split; [exact Hs'|].
  vm_compute in Hs'. now injection Hs' as <-.
Defined.

Lemma RooArgSet_add_inv (set : list Param) (x y : Param) :
  In y (RooArgSet_add set x) -> In y set \/ y = x.
Proof.
  unfold RooArgSet_add. destruct (RooArgSet_find set (GetName x)); [now left|].
  intros H. apply in_app_or in H as [H | [<- | []]]; auto.
Qed.

Lemma assign_role_inv (r0 : Role) (var : Param) (s : SubSets) (r : Role) (x : Param) :
  In x (role_set r (assign_role r0 var s)) ->
  In x (role_set r s) \/ (r = r0 /\ x = var).
Proof.
  destruct r0, r; cbn [assign_role role_set subPoi subGobs subCobs subNuis];
    intros H; auto;
    apply RooArgSet_add_inv in H as [H | ->]; auto.
Qed.

Lemma classify_params_sources (m_mc : ModelConfig) (indivNuis : list Param) :
  all_RooRealVar m_mc ->
  Forall (fun v => isRooRealVar v = true) indivNuis ->
  forall s s' : SubSets,
    classify_params m_mc indivNuis s = Ok s' ->
    forall (r : Role) (x : Param),
      In x (role_set r s') ->
      In x (role_set r s) \/
      exists v : Param,
        In v indivNuis /\ spec_role m_mc v = r /\ GetName v = GetName x.
Proof.
  intros Hmc Hall. induction Hall as [|v rest Hv _ IH]; intros s s';
    cbn [classify_params].
  - intros H. injection H as <-. auto.
  - destruct (classify_param_step m_mc v s Hv Hmc) as (var & Hvar & ->).
    cbn [bind]. intros H r x Hx.
    destruct (IH _ _ H r x Hx) as [Hx1 | (u & Hu & Hr & Hn)].
    + apply assign_role_inv in Hx1 as [Hx1 | [-> ->]]; [now left|].
      right. exists v. split; [now left|]. split; [reflexivity | now symmetry].
    + right. exists u. split; [now right | now split].
Qed.

Lemma NoDup_names_eq (l : list Param) (u v : Param) :
  List.NoDup (map GetName l) -> In u l -> In v l -> GetName u = GetName v -> u = v.
Proof.
  induction l as [|a l IH]; intros Hnd Hu Hv Hn; [destruct Hu|].
  cbn [map] in Hnd. apply List.NoDup_cons_iff in Hnd as [Ha Hnd].
  destruct Hu as [-> | Hu], Hv as [-> | Hv].
  - reflexivity.
  - elim Ha. rewrite Hn. now apply in_map.
  - elim Ha. rewrite <- Hn. now apply in_map.
  - now apply IH.
Qed.




(** ** Datasets *)

Lemma rebuildCatData_loop_weights (source : list Event) :
  forall (indivObs : list RooRealVar) (acc : list Event),
    map weight (fst (rebuildCatData_loop source indivObs acc)) =
    (map weight acc ++ map weight source)%list.
Proof.
  induction source as [|e rest IH]; intros indivObs acc; simpl.
  - now rewrite app_nil_r.
  - rewrite IH, map_app. simpl. now rewrite <- app_assoc.
Qed.

Lemma rebuildCatData_weights (datai : RooDataSet) (indivObs : list RooRealVar) :
  weights (fst (rebuildCatData datai indivObs)) = weights datai.
Proof.
  unfold rebuildCatData, weights.
  pose proof (rebuildCatData_loop_weights (events datai) indivObs []) as H.
  destruct (rebuildCatData_loop (events datai) indivObs []) as [evs obs].
  exact H.
Qed.

(** C9. The dataset [rebuildCatData] builds, which is the dataset of the
    direct-rebuild path, holds one event per event of the source, in the
    same order and with the same weight; so both have the same number of
    entries and the same summed weight, however the weights are summed. *)
Theorem rebuildCatData_keeps_weights :
  forall (sum_of_weights : list Q -> Q) (datai : RooDataSet)
         (indivObs : list RooRealVar),
    let dataNew := fst (rebuildCatData datai indivObs) in
    newData (directRebuild datai indivObs) = dataNew /\
    numEntries dataNew = numEntries datai /\
    (forall (j : nat) (e : Event),
        events datai !! j = Some e ->
        exists e' : Event, events dataNew !! j = Some e' /\ weight e' = weight e) /\
    weights dataNew = weights datai /\
    sumEntries sum_of_weights dataNew = sumEntries sum_of_weights datai.
Proof.
  intros sum datai indivObs dataNew.
  pose proof (rebuildCatData_weights datai indivObs) as Hw. fold dataNew in Hw.
  split; [|split; [|split; [|split]]].
  - unfold directRebuild, dataNew.
    now destruct (rebuildCatData datai indivObs).
  - unfold numEntries. f_equal.
    apply (f_equal (@length Q)) in Hw. unfold weights in Hw.
    now rewrite !length_map in Hw.
  - intros j e Hj.
    assert (H : weights dataNew !! j = Some (weight e)).
    { rewrite Hw. unfold weights. change (map ?f ?l) with (f <$> l).
      now rewrite list_lookup_fmap, Hj. }
    unfold weights in H. change (map ?f ?l) with (f <$> l) in H.
    rewrite list_lookup_fmap in H.
    destruct (events dataNew !! j) as [e'|]; [|discriminate].
    exists e'. split; [reflexivity|]. now injection H.
  - exact Hw.
  - unfold sumEntries. now rewrite Hw.
Qed.

(** *** The choice between rebuilding and rebinning *)

Lemma makeWorkspace_dataset_direct
    (sum : list Q -> Q) (cH : RooDataSet -> string -> RooRealVar -> Z -> Q -> Q -> TH1)
    (m_reBin : Z) (datai : RooDataSet) (indivObs : list RooRealVar) :
  dataset_path sum m_reBin datai = Ok DirectRebuild ->
  makeWorkspace_dataset sum cH m_reBin datai indivObs =
  Ok (directRebuild datai indivObs).
Proof. intros H. unfold makeWorkspace_dataset. now rewrite H. Qed.

Lemma makeWorkspace_dataset_rebin
    (sum : list Q -> Q) (cH : RooDataSet -> string -> RooRealVar -> Z -> Q -> Q -> TH1)
    (m_reBin : Z) (datai : RooDataSet) (indivObs : list RooRealVar) :
  dataset_path sum m_reBin datai = Ok Rebin ->
  makeWorkspace_dataset sum cH m_reBin datai indivObs =
  rebinData cH m_reBin datai indivObs.
Proof. intros H. unfold makeWorkspace_dataset. now rewrite H. Qed.

Lemma dataset_path_enabled (sum : list Q -> Q) (m_reBin : Z) (datai : RooDataSet)
    (s : Z) :
  (0 < m_reBin)%Z ->
  double_to_int (sumEntries sum datai) = Ok s ->
  dataset_path sum m_reBin datai =
  Ok (if negb (numEntries datai =? s)%Z || (numEntries datai <? m_reBin)%Z
      then DirectRebuild else Rebin).
Proof.
  intros Hpos Hs. unfold dataset_path.
  apply Z.ltb_lt in Hpos as ->. now rewrite Hs.
Qed.

Lemma dataset_path_Rebin_positive (sum : list Q -> Q) (m_reBin : Z)
    (datai : RooDataSet) :
  dataset_path sum m_reBin datai = Ok Rebin -> (0 < m_reBin)%Z.
Proof.
  unfold dataset_path. destruct (0 <? m_reBin)%Z eqn:E.
  - intros _. now apply Z.ltb_lt.
  - discriminate.
Qed.

(** C6, as the code has it.  Without a positive bin count every channel
    is rebuilt directly.  With one, the summed weight is first converted
    to [int]; the channel is rebuilt directly when its entry count
    differs from that integer or is below the bin count, and is rebinned
    otherwise. *)
Theorem dataset_path_rule :
  forall (sum_of_weights : list Q -> Q)
         (createHistogram : RooDataSet -> string -> RooRealVar -> Z -> Q -> Q -> TH1)
         (m_reBin : Z) (datai : RooDataSet) (indivObs : list RooRealVar),
    ((m_reBin <= 0)%Z ->
     makeWorkspace_dataset sum_of_weights createHistogram m_reBin datai indivObs
       = Ok (directRebuild datai indivObs)) /\
    (forall s : Z,
        (0 < m_reBin)%Z ->
        double_to_int (sumEntries sum_of_weights datai) = Ok s ->
        (numEntries datai <> s \/ (numEntries datai < m_reBin)%Z ->
         dataset_path sum_of_weights m_reBin datai = Ok DirectRebuild /\
         makeWorkspace_dataset sum_of_weights createHistogram m_reBin datai indivObs
           = Ok (directRebuild datai indivObs)) /\
        (numEntries datai = s /\ (m_reBin <= numEntries datai)%Z ->
         dataset_path sum_of_weights m_reBin datai = Ok Rebin /\
         makeWorkspace_dataset sum_of_weights createHistogram m_reBin datai indivObs
           = rebinData createHistogram m_reBin datai indivObs)).
Proof.
  intros sum cH m_reBin datai indivObs. split.
  - intros Hle. apply makeWorkspace_dataset_direct.
    unfold dataset_path. now apply Z.ltb_ge in Hle as ->.
  - intros s Hpos Hs.
    pose proof (dataset_path_enabled sum m_reBin datai s Hpos Hs) as Hp.
    split.
    + intros Hor.
      assert (H : dataset_path sum m_reBin datai = Ok DirectRebuild).
      { rewrite Hp. destruct Hor as [Hne | Hlt].
        - now apply Z.eqb_neq in Hne as ->.
        - apply Z.ltb_lt in Hlt as ->. now rewrite orb_true_r. }
      split; [exact H | now apply makeWorkspace_dataset_direct].
    + intros [Heq Hge].
      assert (H : dataset_path sum m_reBin datai = Ok Rebin).
      { rewrite Hp. apply Z.eqb_eq in Heq as ->. now apply Z.ltb_ge in Hge as ->. }
      split; [exact H | now apply makeWorkspace_dataset_rebin].
Qed.

Lemma dataset_path_rule_witness :
  (0 < 3)%Z /\
  double_to_int (sumEntries ROOT.sum_exact Sample.low_pair) = Ok 2%Z /\
  makeWorkspace_dataset ROOT.sum_exact ROOT.createHistogram 3 Sample.low_pair [Sample.x]
    = Ok (directRebuild Sample.low_pair [Sample.x]).
Proof.
  assert (Hpos : (0 < 3)%Z) by reflexivity.
  assert (Hs : double_to_int (sumEntries ROOT.sum_exact Sample.low_pair) = Ok 2%Z)
    by reflexivity.
  split; [exact Hpos|]. split; [exact Hs|].
  refine (proj2 (proj1 (proj2 (dataset_path_rule ROOT.sum_exact ROOT.createHistogram
                                 3 Sample.low_pair [Sample.x]) 2%Z Hpos Hs) _)).
  right. reflexivity.
Defined.

(** C6, as it is worded, fails on five events of summed weight 5.5 with a
    bin count of 3: the entry count differs from the summed weight, and
    the channel is rebinned all the same. *)
Lemma fractional_sum_is_rebinned :
  ~ (inject_Z (numEntries Sample.five_and_a_half)
     == sumEntries ROOT.sum_exact Sample.five_and_a_half)%Q /\
  dataset_path ROOT.sum_exact 3 Sample.five_and_a_half = Ok Rebin /\
  makeWorkspace_dataset ROOT.sum_exact ROOT.createHistogram 3
    Sample.five_and_a_half [Sample.x]
    <> Ok (directRebuild Sample.five_and_a_half [Sample.x]).
Proof.
  split; [|split].
  - vm_compute. discriminate.
  - reflexivity.
  - intros H. vm_compute in H. discriminate.
Qed.

(** *** Conversion of the summed weight *)

Lemma double_to_int_truncates (x : Q) (n : Z) :
  (0 <= n <= INT_MAX)%Z ->
  (inject_Z n <= x)%Q -> (x < inject_Z n + 1)%Q ->
  double_to_int x = Ok n.
Proof.
  intros Hn Hle Hlt. destruct x as [p q].
  unfold Qle, Qlt in *. simpl in Hle, Hlt.
  unfold double_to_int. simpl Qnum. simpl Qden.
  assert (Hq : Z.quot p (Z.pos q) = n).
  { rewrite Z.quot_div_nonneg by nia.
    symmetry. apply (Z.div_unique p (Z.pos q) n (p - n * Z.pos q)); lia. }
  rewrite Hq. unfold in_int, INT_MIN, INT_MAX in *.
  replace (-2147483648 <=? n)%Z with true by (symmetry; apply Z.leb_le; lia).
  replace (n <=? 2147483647)%Z with true by (symmetry; apply Z.leb_le; lia).
  reflexivity.
Qed.

(** C10. The summed weight is converted to [int] before it is compared
    with the entry count.  A dataset whose summed weight lies between its
    entry count n and n+1 therefore passes the comparison as if both were
    equal: it is rebuilt directly only if it has fewer entries than bins,
    and is rebinned otherwise. *)
Theorem truncated_sum_not_taken_as_binned :
  forall (sum_of_weights : list Q -> Q)
         (createHistogram : RooDataSet -> string -> RooRealVar -> Z -> Q -> Q -> TH1)
         (m_reBin : Z) (datai : RooDataSet) (indivObs : list RooRealVar),
    let n := numEntries datai in
    let s := sumEntries sum_of_weights datai in
    (n <= INT_MAX)%Z ->
    (inject_Z n <= s)%Q -> (s < inject_Z n + 1)%Q ->
    (0 < m_reBin)%Z ->
    double_to_int s = Ok n /\
    dataset_path sum_of_weights m_reBin datai =
      Ok (if (n <? m_reBin)%Z then DirectRebuild else Rebin) /\
    ((m_reBin <= n)%Z ->
     makeWorkspace_dataset sum_of_weights createHistogram m_reBin datai indivObs
       = rebinData createHistogram m_reBin datai indivObs).
Proof.
  intros sum cH m_reBin datai indivObs n s Hmax Hle Hlt Hpos.
  assert (Hs : double_to_int s = Ok n).
  { apply double_to_int_truncates; [|exact Hle|exact Hlt].
    split; [unfold n, numEntries; lia | exact Hmax]. }
  assert (Hp : dataset_path sum m_reBin datai =
               Ok (if (n <? m_reBin)%Z then DirectRebuild else Rebin)).
  { rewrite (dataset_path_enabled sum m_reBin datai n Hpos Hs).
    fold n. now rewrite Z.eqb_refl. }
  split; [exact Hs|]. split; [exact Hp|].
  intros Hge. apply makeWorkspace_dataset_rebin.
  rewrite Hp. now apply Z.ltb_ge in Hge as ->.
Qed.

Lemma truncated_sum_not_taken_as_binned_witness :
  numEntries Sample.five_point_seven = 5%Z /\
  (sumEntries ROOT.sum_exact Sample.five_point_seven == 57 # 10)%Q /\
  dataset_path ROOT.sum_exact 5 Sample.five_point_seven = Ok Rebin.
Proof.
  split; [reflexivity|]. split; [reflexivity|].
  refine (proj1 (proj2 (truncated_sum_not_taken_as_binned ROOT.sum_exact
                          ROOT.createHistogram 5 Sample.five_point_seven
                          [Sample.x] _ _ _ _)));
    vm_compute; (reflexivity || discriminate).
Defined.

(** *** Rebinning *)

Lemma setVal_in_range (v : RooRealVar) (c : Q) :
  (getMin v <= c)%Q -> (c <= getMax v)%Q ->
  setVal v c = {| varName := varName v; getVal := c;
                  getMin := getMin v; getMax := getMax v |}.
Proof.
  intros Hlo Hhi. unfold setVal.
  assert (H1 : Qle_bool c (getMax v + (1 # 1000000)) = true)
    by (apply Qle_bool_iff; lra).
  assert (H2 : Qle_bool (getMin v - (1 # 1000000)) c = true)
    by (apply Qle_bool_iff; lra).
  now rewrite H1, H2.
Qed.

Lemma rebin_loop_events (hist : TH1) (others : list RooRealVar) (bins : list Z) :
  forall (obsVar : RooRealVar) (acc : list Event),
    (forall i, In i bins ->
               (getMin obsVar <= GetBinCenter hist i)%Q /\
               (GetBinCenter hist i <= getMax obsVar)%Q) ->
    fst (rebin_loop hist bins obsVar others acc) =
    (acc ++ map (bin_event hist obsVar others) bins)%list.
Proof.
  induction bins as [|i rest IH]; intros obsVar acc Hin; cbn [rebin_loop map].
  - now rewrite app_nil_r.
  - destruct (Hin i (or_introl eq_refl)) as [Hlo Hhi].
    rewrite !(setVal_in_range obsVar _ Hlo Hhi).
    rewrite IH by (intros j Hj; apply Hin; now right).
    rewrite <- app_assoc. reflexivity.
Qed.

(** C5, as the code has it.  On the rebinning path the histogram is taken
    of the first observable, over its declared range, with the configured
    number of bins; the new dataset carries the name of the source and
    holds one event for each of the bins 1 to [m_reBin], empty ones
    included, in this order, with the observable at the bin centre and
    the bin content as weight. *)
Theorem rebin_one_event_per_bin :
  forall (sum_of_weights : list Q -> Q)
         (createHistogram : RooDataSet -> string -> RooRealVar -> Z -> Q -> Q -> TH1)
         (m_reBin : Z) (datai : RooDataSet)
         (obsVar : RooRealVar) (others : list RooRealVar),
    let dataiName := GetName datai in
    let hist := createHistogram (SetName datai (dataiName +:+ "_old"))
                  (dataiName +:+ "_hist") obsVar
                  m_reBin (getMin obsVar) (getMax obsVar) in
    dataset_path sum_of_weights m_reBin datai = Ok Rebin ->
    GetNbinsX hist = m_reBin ->
    (m_reBin < INT_MAX)%Z ->
    (forall i : Z, (1 <= i <= m_reBin)%Z ->
                   (getMin obsVar <= GetBinCenter hist i)%Q /\
                   (GetBinCenter hist i <= getMax obsVar)%Q) ->
    exists r : DatasetResult,
      makeWorkspace_dataset sum_of_weights createHistogram m_reBin datai
        (obsVar :: others) = Ok r /\
      GetName (newData r) = dataiName /\
      events (newData r) =
        map (bin_event hist obsVar others) (int_range 1 m_reBin) /\
      numEntries (newData r) = m_reBin /\
      (forall i : Z, (1 <= i <= m_reBin)%Z ->
                     events (newData r) !! Z.to_nat (i - 1)
                       = Some (bin_event hist obsVar others i)) /\
      oldData r = SetName datai (dataiName +:+ "_old").
Proof.
  intros sum cH m_reBin datai obsVar others dataiName hist Hpath Hn Hmax Hc.
  pose proof (dataset_path_Rebin_positive _ _ _ Hpath) as Hpos.
  rewrite (makeWorkspace_dataset_rebin _ cH _ _ _ Hpath).
  unfold rebinData. fold dataiName. fold hist. rewrite Hn.
  replace (m_reBin =? INT_MAX)%Z with false by (symmetry; apply Z.eqb_neq; lia).
  assert (Hev : fst (rebin_loop hist (int_range 1 m_reBin) obsVar others []) =
                map (bin_event hist obsVar others) (int_range 1 m_reBin)).
  { apply rebin_loop_events. intros i Hi. apply Hc.
    apply list_elem_of_In in Hi. unfold int_range in Hi.
    apply elem_of_seqZ in Hi. lia. }
  destruct (rebin_loop hist (int_range 1 m_reBin) obsVar others []) as [evs obsVar'].
  simpl in Hev. subst evs.
  eexists. split; [reflexivity|]. cbn [newData oldData events dataName].
  repeat split.
  - unfold numEntries. cbn [events]. rewrite length_map.
    unfold int_range. rewrite length_seqZ. lia.
  - intros i Hi. change (map ?f ?l) with (f <$> l).
    rewrite list_lookup_fmap. unfold int_range.
    rewrite lookup_seqZ_lt by lia. simpl. f_equal. f_equal. lia.
Qed.

Lemma rebin_one_event_per_bin_witness :
  dataset_path ROOT.sum_exact 2 Sample.low_pair = Ok Rebin /\
  exists r : DatasetResult,
    makeWorkspace_dataset ROOT.sum_exact ROOT.createHistogram 2
      Sample.low_pair [Sample.x] = Ok r /\
    events (newData r) =
      [bin_event low_pair_hist Sample.x [] 1; bin_event low_pair_hist Sample.x [] 2].
Proof.
  assert (Hpath : dataset_path ROOT.sum_exact 2 Sample.low_pair = Ok Rebin)
    by reflexivity.
  split; [exact Hpath|].
  destruct (rebin_one_event_per_bin ROOT.sum_exact ROOT.createHistogram 2
              Sample.low_pair Sample.x [] Hpath eq_refl eq_refl)
    as (r & Hr & _ & Hev & _).
  - intros i Hi.
    assert (Hcases : i = 1%Z \/ i = 2%Z) by lia.
    destruct Hcases as [-> | ->]; split; vm_compute; discriminate.
  - exists r. split; [exact Hr | exact Hev].
Defined.

(** C5, as it is worded, fails on [Sample.low_pair], two unit-weight
    events in the lower half of the range, with a bin count of 2: only
    bin 1 is non-empty, and the new dataset holds two events, the second
    for the empty bin 2 with weight 0. *)
Lemma rebin_writes_empty_bin :
  nonempty_bins low_pair_hist = [1%Z] /\
  exists r : DatasetResult,
    makeWorkspace_dataset ROOT.sum_exact ROOT.createHistogram 2
      Sample.low_pair [Sample.x] = Ok r /\
    events (newData r) =
      [ {| values := [("x", 1 # 4)]; weight := 2 |};
        {| values := [("x", 3 # 4)]; weight := 0 |} ] /\
    events (newData r) <>
      map (bin_event low_pair_hist Sample.x []) (nonempty_bins low_pair_hist).
Proof.
  split; [reflexivity|].
  eexists. split; [vm_compute; reflexivity|].
  split; [reflexivity|].
  intros H. vm_compute in H. discriminate.
Qed.

(** *** A whole channel *)

Lemma makeWorkspace_channel_direct
    (sum : list Q -> Q) (cH : RooDataSet -> string -> RooRealVar -> Z -> Q -> Q -> TH1)
    (m_reBin : Z) (m_mc : ModelConfig) (ch : Channel) (w : SubWorkspace)
    (sets : SubSets) :
  classify_params m_mc (indivNuis_of ch) (subSets w) = Ok sets ->
  dataset_path sum m_reBin (datai_of ch) = Ok DirectRebuild ->
  exists dataNew : RooDataSet,
    makeWorkspace_channel sum cH m_reBin m_mc ch w =
      Ok {| subSets := sets;
            subDataMap := <[channelName ch := dataNew]> (subDataMap w) |} /\
    weights dataNew = weights (datai_of ch).
Proof.
  intros Hsets Hpath.
  exists (fst (rebuildCatData (datai_of ch) (indivObs_of ch))).
  split; [|apply rebuildCatData_weights].
  unfold makeWorkspace_channel. rewrite Hsets. cbn [bind].
  rewrite (makeWorkspace_dataset_direct _ cH _ _ _ Hpath). cbn [bind].
  unfold directRebuild.
  now destruct (rebuildCatData (datai_of ch) (indivObs_of ch)).
Qed.

(** * Further properties *)

(** ** Characters and tokens *)

Lemma string_forall_app (P : ascii -> bool) (a b : string) :
  string_forall P (a +:+ b) = string_forall P a && string_forall P b.
Proof.
  induction a as [|c a IH]; [reflexivity|].
  rewrite string_app_cons. cbn [string_forall]. now rewrite IH, andb_assoc.
Qed.

Lemma string_forall_impl (P Q : ascii -> bool) (s : string) :
  (forall c, P c = true -> Q c = true) ->
  string_forall P s = true -> string_forall Q s = true.
Proof.
  intros HPQ. induction s as [|c s IH]; [reflexivity|].
  cbn [string_forall]. rewrite !andb_true_iff. intros [Hc Hs]. auto.
Qed.

Lemma ToLower_app (a b : string) :
  TString.ToLower (a +:+ b) = TString.ToLower a +:+ TString.ToLower b.
Proof.
  induction a as [|c a IH]; [reflexivity|].
  rewrite string_app_cons. cbn [TString.ToLower]. now rewrite IH.
Qed.

Lemma removeWhiteSpace_app (a b : string) :
  auxUtil.removeWhiteSpace (a +:+ b) =
  auxUtil.removeWhiteSpace a +:+ auxUtil.removeWhiteSpace b.
Proof.
  induction a as [|c a IH]; [reflexivity|].
  rewrite string_app_cons. cbn [auxUtil.removeWhiteSpace].
  destruct (TString.isspace c); [exact IH|]. now rewrite IH.
Qed.

Lemma ToLower_fixed (s : string) :
  string_forall (fun c => Ascii.eqb (TString.tolower c) c) s = true ->
  TString.ToLower s = s.
Proof.
  induction s as [|c s IH]; [reflexivity|].
  cbn [string_forall TString.ToLower]. rewrite andb_true_iff. intros [Hc Hs].
  apply Ascii.eqb_eq in Hc. now rewrite Hc, IH.
Qed.

Lemma removeWhiteSpace_fixed (s : string) :
  string_forall (fun c => negb (TString.isspace c)) s = true ->
  auxUtil.removeWhiteSpace s = s.
Proof.
  induction s as [|c s IH]; [reflexivity|].
  cbn [string_forall auxUtil.removeWhiteSpace]. rewrite andb_true_iff.
  intros [Hc Hs]. apply negb_true_iff in Hc. now rewrite Hc, IH.
Qed.

(** A string without delimiters is one token, or none when it is empty. *)
Lemma Tokenize_from_plain (delim : string) (s : string) :
  string_forall (fun c => negb (TString.is_delim delim c)) s = true ->
  forall cur : string,
    TString.Tokenize_from delim cur s =
    match cur +:+ s with EmptyString => [] | t => [t] end.
Proof.
  induction s as [|c s IH]; intros Hs cur.
  - cbn [TString.Tokenize_from]. rewrite string_app_empty_r. now destruct cur.
  - cbn [string_forall] in Hs. apply andb_true_iff in Hs as [Hc Hs].
    apply negb_true_iff in Hc. cbn [TString.Tokenize_from]. rewrite Hc.
    rewrite (IH Hs), string_app_assoc. reflexivity.
Qed.

(** Splitting at a delimiter: the tokens before it, then the tokens
    behind it. *)
Lemma Tokenize_from_delim (delim : string) (d : ascii) (s1 s2 : string) :
  TString.is_delim delim d = true ->
  forall cur : string,
    TString.Tokenize_from delim cur (s1 +:+ String d s2) =
    (TString.Tokenize_from delim cur s1 ++ TString.Tokenize_from delim "" s2)%list.
Proof.
  intros Hd. induction s1 as [|c s1 IH]; intros cur.
  - rewrite string_app_nil. cbn [TString.Tokenize_from]. rewrite Hd.
    now destruct cur.
  - rewrite string_app_cons. cbn [TString.Tokenize_from].
    destruct (TString.is_delim delim c).
    + destruct cur; rewrite IH; reflexivity.
    + apply IH.
Qed.

(** No token holds a delimiter. *)
Lemma Tokenize_from_tokens (delim : string) (s : string) :
  forall cur : string,
    string_forall (fun c => negb (TString.is_delim delim c)) cur = true ->
    Forall (fun t => string_forall (fun c => negb (TString.is_delim delim c)) t = true)
           (TString.Tokenize_from delim cur s).
Proof.
  induction s as [|c s IH]; intros cur Hcur; cbn [TString.Tokenize_from].
  - destruct cur; repeat constructor. exact Hcur.
  - destruct (TString.is_delim delim c) eqn:Hc.
    + destruct cur; [now apply IH|]. constructor; [exact Hcur | now apply IH].
    + apply IH. rewrite string_forall_app, Hcur. cbn [string_forall].
      now rewrite Hc.
Qed.

(** Deleting every match of [s1] leaves characters of the text only. *)
Lemma ReplaceAll_scan_delete (P : ascii -> bool) (s1 : string) (s : string) :
  forall k : nat,
    string_forall P s = true ->
    string_forall P (TString.ReplaceAll_scan s1 "" k s) = true.
Proof.
  induction s as [|c s IH]; intros k Hs; [reflexivity|].
  cbn [string_forall] in Hs. apply andb_true_iff in Hs as [Hc Hs].
  cbn [TString.ReplaceAll_scan]. destruct k as [|k]; [|now apply IH].
  destruct (String.prefix s1 (String c s)).
  - rewrite string_app_nil. now apply IH.
  - cbn [string_forall]. now rewrite Hc, IH.
Qed.

Lemma ReplaceAll_delete (P : ascii -> bool) (s1 s : string) :
  string_forall P s = true -> string_forall P (TString.ReplaceAll s1 "" s) = true.
Proof.
  intros Hs. unfold TString.ReplaceAll. destruct s1; [exact Hs|].
  now apply ReplaceAll_scan_delete.
Qed.

(** Deleting blanks from a text without blanks changes nothing. *)
Lemma ReplaceAll_blank_fixed (s : string) :
  string_forall (fun c => negb (TString.isspace c)) s = true ->
  TString.ReplaceAll " " "" s = s.
Proof.
  unfold TString.ReplaceAll.
  induction s as [|c s IH]; [reflexivity|].
  cbn [string_forall]. rewrite andb_true_iff. intros [Hc Hs].
  cbn [TString.ReplaceAll_scan String.prefix].
  destruct (ascii_dec " " c) as [<-|_]; [discriminate|].
  now rewrite IH.
Qed.

(** ** Printed numbers read back *)

Lemma range_char_facts (c : ascii) :
  range_char c = true ->
  plain_char c = true /\ (TString.isdigit c = true \/ c = "-"%char).
Proof.
  destruct c as [[] [] [] [] [] [] [] []]; intros H; try discriminate H;
    (split; [reflexivity | (left; reflexivity) || (right; reflexivity)]).
Qed.

Lemma isdigit_facts (c : ascii) :
  TString.isdigit c = true ->
  range_char c = true /\ TString.isspace c = false /\
  TString.is_delim "-" c = false /\ c <> "-"%char /\ c <> "+"%char /\
  (0 <= TString.digit_value c <= 9)%Z.
Proof.
  destruct c as [[] [] [] [] [] [] [] []]; intros H; try discriminate H;
    repeat split; try reflexivity; try discriminate.
Qed.

Lemma string_of_uint_digits (d : Decimal.uint) :
  string_forall TString.isdigit (NilEmpty.string_of_uint d) = true.
Proof. induction d; cbn; auto. Qed.

Lemma digits_string_of_uint (d : Decimal.uint) :
  forall acc : nat,
    TString.digits (Z.of_nat acc) (NilEmpty.string_of_uint d) =
    Z.of_nat (Nat.of_uint_acc d acc).
Proof.
  induction d; intros acc; cbn [NilEmpty.string_of_uint Nat.of_uint_acc];
    [reflexivity | ..];
    cbn [TString.digits];
    match goal with
    | |- context [TString.isdigit ?c] =>
        change (TString.isdigit c) with true; cbv iota
    end;
    rewrite <- IHd; f_equal; rewrite Nat.tail_mul_spec;
    unfold TString.digit_value; cbn; lia.
Qed.

Lemma decimal_digits (n : nat) : string_forall TString.isdigit (decimal n) = true.
Proof. apply string_of_uint_digits. Qed.

Lemma decimal_value (n : nat) : TString.digits 0 (decimal n) = Z.of_nat n.
Proof.
  unfold decimal.
  pose proof (digits_string_of_uint (Nat.to_uint n) 0) as H.
  change (Z.of_nat 0) with 0%Z in H. rewrite H.
  change (Nat.of_uint_acc (Nat.to_uint n) 0) with (Nat.of_uint (Nat.to_uint n)).
  now rewrite DecimalNat.Unsigned.of_to.
Qed.

Lemma decimal_nonempty (n : nat) : decimal n <> "".
Proof.
  unfold decimal. intros H.
  assert (Hnil : Nat.to_uint n = Decimal.Nil)
    by (destruct (Nat.to_uint n); try discriminate H; reflexivity).
  pose proof (DecimalNat.Unsigned.of_to n) as Hn. rewrite Hnil in Hn.
  cbn in Hn. subst n. discriminate Hnil.
Qed.

(** On a run of digits [atoi] reads the number the digits spell. *)
Lemma atoi_value_digits (s : string) :
  string_forall TString.isdigit s = true ->
  TString.atoi_value s = TString.digits 0 s.
Proof.
  destruct s as [|c s]; [reflexivity|].
  cbn [string_forall]. rewrite andb_true_iff. intros [Hc _].
  destruct c as [[] [] [] [] [] [] [] []]; try discriminate Hc; reflexivity.
Qed.

Lemma digits_not_blank (s : string) :
  string_forall TString.isdigit s = true ->
  string_forall (fun c => negb (TString.isspace c)) s = true.
Proof.
  apply string_forall_impl. intros c Hc.
  destruct (isdigit_facts c Hc) as (_ & -> & _). reflexivity.
Qed.

Lemma Atoi_digits (s : string) (v : Z) :
  string_forall TString.isdigit s = true ->
  TString.digits 0 s = v -> (0 <= v <= INT_MAX)%Z ->
  TString.Atoi s = Ok v.
Proof.
  intros Hs Hv Hr. unfold TString.Atoi, TString.atoi.
  rewrite (ReplaceAll_blank_fixed s (digits_not_blank s Hs)).
  rewrite (atoi_value_digits s Hs), Hv.
  unfold in_int, INT_MIN, INT_MAX in *.
  replace (-2147483648 <=? v)%Z with true by (symmetry; apply Z.leb_le; lia).
  replace (v <=? 2147483647)%Z with true by (symmetry; apply Z.leb_le; lia).
  reflexivity.
Qed.

Lemma bind_Ok_r {A : Type} (m : outcome A) : (let! x := m in Ok x) = m.
Proof. now destruct m. Qed.

(** A text of plain characters is the one token of its run. *)
Lemma fillIndices_one_token (numBins : Z) (s : string) (acc : list Z) :
  string_forall plain_char s = true -> s <> "" -> s <> "all" ->
  fillIndices numBins s acc = fillIndices_token s acc.
Proof.
  intros Hs Hne Hall.
  assert (Hlow : TString.ToLower s = s).
  { apply ToLower_fixed. revert Hs. apply string_forall_impl.
    intros c. unfold plain_char. rewrite !andb_true_iff. tauto. }
  assert (Hws : auxUtil.removeWhiteSpace s = s).
  { apply removeWhiteSpace_fixed. revert Hs. apply string_forall_impl.
    intros c. unfold plain_char. rewrite !andb_true_iff. tauto. }
  rewrite fillIndices_not_all by now rewrite Hlow.
  rewrite Hlow, Hws. unfold TString.Tokenize.
  rewrite Tokenize_from_plain.
  - rewrite string_app_nil. destruct s; [now elim Hne|].
    cbn [fillIndices_tokens]. apply bind_Ok_r.
  - revert Hs. apply string_forall_impl.
    intros c. unfold plain_char. rewrite !andb_true_iff. tauto.
Qed.

Lemma digits_plain (s : string) :
  string_forall TString.isdigit s = true -> string_forall plain_char s = true.
Proof.
  apply string_forall_impl. intros c Hc.
  destruct (isdigit_facts c Hc) as (Hr & _). now apply range_char_facts.
Qed.

Lemma digits_no_dash (s : string) :
  string_forall TString.isdigit s = true ->
  string_forall (fun c => negb (TString.is_delim "-" c)) s = true.
Proof.
  apply string_forall_impl. intros c Hc.
  destruct (isdigit_facts c Hc) as (_ & _ & -> & _). reflexivity.
Qed.

Lemma digits_not_all (s : string) :
  string_forall TString.isdigit s = true -> s <> "all".
Proof. intros H ->. discriminate H. Qed.

(** X1. A channel index printed in decimal is read back as that index:
    the run over the digits of [n] adds [n], and nothing else, to the
    indices collected so far. *)
Theorem fillIndices_decimal :
  forall (numBins : Z) (n : nat) (m_useIndices : list Z),
    (Z.of_nat n <= INT_MAX)%Z ->
    fillIndices numBins (decimal n) m_useIndices
      = Ok (m_useIndices ++ [Z.of_nat n])%list.
Proof.
  intros numBins n acc Hn.
  pose proof (decimal_digits n) as Hd.
  rewrite fillIndices_one_token
    by (auto using digits_plain, decimal_nonempty, digits_not_all).
  unfold fillIndices_token, TString.Tokenize.
  rewrite (Tokenize_from_plain "-" _ (digits_no_dash _ Hd)), string_app_nil.
  destruct (decimal n) as [|c s] eqn:E; [now elim (decimal_nonempty n)|].
  rewrite <- E in *.
  rewrite (ReplaceAll_blank_fixed _ (digits_not_blank _ Hd)).
  rewrite (Atoi_digits (decimal n) (Z.of_nat n) Hd (decimal_value n)) by lia.
  reflexivity.
Qed.

Lemma fillIndices_decimal_witness :
  (Z.of_nat 12 <= INT_MAX)%Z /\ fillIndices 4 "12" [3%Z] = Ok [3; 12]%Z.
Proof.
  assert (H : (Z.of_nat 12 <= INT_MAX)%Z) by discriminate.
  split; [exact H|]. exact (fillIndices_decimal 4 12 [3%Z] H).
Defined.

Lemma range_plain (s : string) :
  string_forall range_char s = true -> string_forall plain_char s = true.
Proof.
  apply string_forall_impl. intros c Hc. now apply range_char_facts.
Qed.

Lemma digits_range (s : string) :
  string_forall TString.isdigit s = true -> string_forall range_char s = true.
Proof.
  apply string_forall_impl. intros c Hc. now apply isdigit_facts.
Qed.

(** X2. A range printed as "lo-hi" is read back as that range: with
    lo <= hi the run adds lo, lo+1, ..., hi in this order; with lo > hi
    it ends in the failed assertion. *)
Theorem fillIndices_decimal_range :
  forall (numBins : Z) (lo hi : nat) (m_useIndices : list Z),
    (Z.of_nat lo <= INT_MAX)%Z -> (Z.of_nat hi < INT_MAX)%Z ->
    fillIndices numBins (decimal lo +:+ "-" +:+ decimal hi) m_useIndices =
    if (lo <=? hi)%nat
    then Ok (m_useIndices ++ seqZ (Z.of_nat lo) (Z.of_nat hi - Z.of_nat lo + 1))%list
    else Fault AssertFailed.
Proof.
  intros numBins lo hi acc Hlo Hhi.
  pose proof (decimal_digits lo) as Ha. pose proof (decimal_digits hi) as Hb.
  change ("-" +:+ decimal hi) with (String "-" (decimal hi)).
  assert (Hs : string_forall range_char (decimal lo +:+ String "-" (decimal hi)) = true).
  { rewrite string_forall_app. cbn [string_forall].
    rewrite !(digits_range _ Ha), !(digits_range _ Hb). reflexivity. }
  rewrite fillIndices_one_token.
  - unfold fillIndices_token, TString.Tokenize.
    rewrite (Tokenize_from_delim "-" "-" (decimal lo) (decimal hi) eq_refl).
    rewrite !Tokenize_from_plain by now apply digits_no_dash.
    rewrite !string_app_nil.
    destruct (decimal lo) as [|c1 s1] eqn:E1; [now elim (decimal_nonempty lo)|].
    destruct (decimal hi) as [|c2 s2] eqn:E2; [now elim (decimal_nonempty hi)|].
    rewrite <- E1, <- E2 in *. cbn [app].
    rewrite (Atoi_digits (decimal lo) (Z.of_nat lo) Ha (decimal_value lo)) by lia.
    rewrite (Atoi_digits (decimal hi) (Z.of_nat hi) Hb (decimal_value hi)) by lia.
    cbn [bind].
    destruct (Nat.leb_spec lo hi) as [Hle | Hgt].
    + replace (Z.of_nat lo <=? Z.of_nat hi)%Z with true
        by (symmetry; apply Z.leb_le; lia).
      replace (Z.of_nat hi =? INT_MAX)%Z with false
        by (symmetry; apply Z.eqb_neq; lia).
      reflexivity.
    + replace (Z.of_nat lo <=? Z.of_nat hi)%Z with false
        by (symmetry; apply Z.leb_gt; lia).
      reflexivity.
  - now apply range_plain.
  - destruct (decimal lo); discriminate.
  - intros Heq. rewrite Heq in Hs. discriminate Hs.
Qed.

Lemma fillIndices_decimal_range_witness :
  (Z.of_nat 7 <= INT_MAX)%Z /\ (Z.of_nat 9 < INT_MAX)%Z /\
  fillIndices 12 "7-9" [] = Ok [7; 8; 9]%Z.
Proof.
  assert (H1 : (Z.of_nat 7 <= INT_MAX)%Z) by discriminate.
  assert (H2 : (Z.of_nat 9 < INT_MAX)%Z) by reflexivity.
  split; [exact H1|]. split; [exact H2|].
  exact (fillIndices_decimal_range 12 7 9 [] H1 H2).
Defined.

(** ** Lists of tokens *)

Lemma comma_not_all (x y : string) : x +:+ String "," y <> "all".
Proof.
  destruct x as [|c1 [|c2 [|c3 [|c4 x]]]]; rewrite ?string_app_cons, ?string_app_nil;
    discriminate.
Qed.

(** X3. A comma composes two selections: the run over "s1,s2" is the run
    over s1 followed by the run over s2 on the indices collected by
    then; nothing is sorted and nothing is dropped. *)
Theorem fillIndices_comma :
  forall (numBins : Z) (s1 s2 : string) (m_useIndices : list Z),
    TString.ToLower s1 <> "all" ->
    TString.ToLower s2 <> "all" ->
    fillIndices numBins (s1 +:+ "," +:+ s2) m_useIndices =
    let! m := fillIndices numBins s1 m_useIndices in fillIndices numBins s2 m.
Proof.
  intros numBins s1 s2 acc H1 H2.
  change ("," +:+ s2) with (String "," s2).
  assert (Hlow : TString.ToLower (s1 +:+ String "," s2) =
                 TString.ToLower s1 +:+ String "," (TString.ToLower s2))
    by (rewrite ToLower_app; reflexivity).
  rewrite (fillIndices_not_all _ (s1 +:+ String "," s2))
    by (rewrite Hlow; apply comma_not_all).
  rewrite (fillIndices_not_all _ s1) by exact H1.
  rewrite Hlow, removeWhiteSpace_app.
  change (auxUtil.removeWhiteSpace (String "," (TString.ToLower s2)))
    with (String "," (auxUtil.removeWhiteSpace (TString.ToLower s2))).
  unfold TString.Tokenize.
  rewrite (Tokenize_from_delim "," "," _ _ eq_refl), fillIndices_tokens_app.
  destruct (fillIndices_tokens _ acc) as [m|f]; [|reflexivity].
  cbn [bind]. now rewrite (fillIndices_not_all _ s2) by exact H2.
Qed.

Lemma fillIndices_comma_witness :
  TString.ToLower "5,0-2" <> "all" /\ TString.ToLower "5" <> "all" /\
  fillIndices 8 "5,0-2,5" [] = Ok [5; 0; 1; 2; 5]%Z.
Proof.
  assert (H1 : TString.ToLower "5,0-2" <> "all") by discriminate.
  assert (H2 : TString.ToLower "5" <> "all") by discriminate.
  split; [exact H1|]. split; [exact H2|].
  exact (fillIndices_comma 8 "5,0-2" "5" [] H1 H2).
Defined.

Lemma is_blank_facts (c : ascii) :
  is_blank c = true ->
  TString.tolower c = c /\
  (TString.isspace c = true \/
   (TString.isspace c = false /\ TString.is_delim "," c = true)).
Proof.
  destruct c as [[] [] [] [] [] [] [] []]; intros H; try discriminate H;
    (split; [reflexivity | (left; reflexivity) || (right; split; reflexivity)]).
Qed.

Lemma Tokenize_blank (s : string) :
  string_forall is_blank s = true ->
  TString.ToLower s = s /\
  TString.Tokenize_from "," "" (auxUtil.removeWhiteSpace s) = [].
Proof.
  induction s as [|c s IH]; [now split|].
  cbn [string_forall]. rewrite andb_true_iff. intros [Hc Hs].
  destruct (IH Hs) as [IH1 IH2].
  destruct (is_blank_facts c Hc) as (Hl & [Hsp | [Hsp Hd]]).
  - split; [cbn [TString.ToLower]; now rewrite Hl, IH1|].
    cbn [auxUtil.removeWhiteSpace]. now rewrite Hsp.
  - split; [cbn [TString.ToLower]; now rewrite Hl, IH1|].
    cbn [auxUtil.removeWhiteSpace]. rewrite Hsp.
    cbn [TString.Tokenize_from]. now rewrite Hd.
Qed.

(** X4. An input of commas and white space only (the empty input
    included) selects nothing and is no error: the indices collected so
    far come back as they are. *)
Theorem fillIndices_blank :
  forall (numBins : Z) (indices : string) (m_useIndices : list Z),
    string_forall is_blank indices = true ->
    fillIndices numBins indices m_useIndices = Ok m_useIndices.
Proof.
  intros numBins s acc Hs.
  destruct (Tokenize_blank s Hs) as [Hlow Htok].
  rewrite fillIndices_not_all.
  - rewrite Hlow. unfold TString.Tokenize. now rewrite Htok.
  - rewrite Hlow. intros ->. discriminate Hs.
Qed.

Lemma fillIndices_blank_witness :
  string_forall is_blank " ,, " = true /\ fillIndices 4 " ,, " [1%Z] = Ok [1%Z].
Proof.
  assert (H : string_forall is_blank " ,, " = true) by reflexivity.
  split; [exact H|]. exact (fillIndices_blank 4 " ,, " [1%Z] H).
Defined.

(** X5. The word "all" is recognised before white space is removed: an
    input that spells "all" only once its white space is gone is read as
    one token without digits and selects channel 0 alone. *)
Theorem fillIndices_padded_all :
  forall (numBins : Z) (indices : string) (m_useIndices : list Z),
    TString.ToLower indices <> "all" ->
    auxUtil.removeWhiteSpace (TString.ToLower indices) = "all" ->
    fillIndices numBins indices m_useIndices = Ok (m_useIndices ++ [0%Z])%list.
Proof.
  intros numBins s acc Hne Hall.
  rewrite fillIndices_not_all by exact Hne. now rewrite Hall.
Qed.

Lemma fillIndices_padded_all_witness :
  TString.ToLower " All" <> "all" /\
  auxUtil.removeWhiteSpace (TString.ToLower " All") = "all" /\
  fillIndices 4 " All" [] = Ok [0%Z] /\
  fillIndices 4 "All" [] = Ok [0; 1; 2; 3]%Z.
Proof.
  assert (H1 : TString.ToLower " All" <> "all") by discriminate.
  assert (H2 : auxUtil.removeWhiteSpace (TString.ToLower " All") = "all")
    by reflexivity.
  split; [exact H1|]. split; [exact H2|].
  split; [exact (fillIndices_padded_all 4 " All" [] H1 H2) | reflexivity].
Defined.

(** ** What the parser never yields *)

Lemma digits_nonneg (s : string) :
  forall acc : Z, (0 <= acc)%Z -> (0 <= TString.digits acc s)%Z.
Proof.
  induction s as [|c s IH]; intros acc Hacc; cbn [TString.digits]; [exact Hacc|].
  destruct (TString.isdigit c) eqn:Hc; [|exact Hacc].
  apply IH. destruct (isdigit_facts c Hc) as (_ & _ & _ & _ & _ & Hv). lia.
Qed.

Lemma skip_space_forall (P : ascii -> bool) (s : string) :
  string_forall P s = true -> string_forall P (TString.skip_space s) = true.
Proof.
  induction s as [|c s IH]; [reflexivity|].
  intros Hs. cbn [TString.skip_space].
  destruct (TString.isspace c); [|exact Hs].
  cbn [string_forall] in Hs. apply andb_true_iff in Hs as [_ Hs]. now apply IH.
Qed.

(** Without a dash in front of it, [atoi] reads no negative number. *)
Lemma atoi_value_nonneg (s : string) :
  string_forall (fun c => negb (TString.is_delim "-" c)) s = true ->
  (0 <= TString.atoi_value s)%Z.
Proof.
  intros Hs. apply (skip_space_forall _ s) in Hs.
  unfold TString.atoi_value.
  destruct (TString.skip_space s) as [|c t]; [cbn; lia|].
  cbn [string_forall] in Hs. apply andb_true_iff in Hs as [Hc _].
  destruct c as [[] [] [] [] [] [] [] []]; try discriminate Hc;
    apply digits_nonneg; lia.
Qed.

Lemma Atoi_nonneg (s : string) (v : Z) :
  string_forall (fun c => negb (TString.is_delim "-" c)) s = true ->
  TString.Atoi s = Ok v -> (0 <= v <= INT_MAX)%Z.
Proof.
  intros Hs. unfold TString.Atoi, TString.atoi.
  pose proof (atoi_value_nonneg _ (ReplaceAll_delete _ " " s Hs)) as Hv.
  destruct (in_int (TString.atoi_value (TString.ReplaceAll " " "" s))) eqn:Hin;
    [|discriminate].
  intros H. injection H as <-.
  unfold in_int in Hin. apply andb_true_iff in Hin as [_ Hmax].
  apply Z.leb_le in Hmax. split; [exact Hv | exact Hmax].
Qed.

Lemma fillIndices_token_appends (iStr : string) (acc m : list Z) :
  fillIndices_token iStr acc = Ok m ->
  exists l : list Z,
    m = (acc ++ l)%list /\ Forall (fun x => (0 <= x <= INT_MAX)%Z) l.
Proof.
  unfold fillIndices_token, TString.Tokenize.
  pose proof (Tokenize_from_tokens "-" iStr "" eq_refl) as Htok.
  destruct (TString.Tokenize_from "-" "" iStr) as [|a [|b [|c l]]];
    try discriminate.
  - apply Forall_cons_1 in Htok as [Ha _].
    destruct (TString.Atoi (TString.ReplaceAll " " "" a)) as [v|] eqn:Hv;
      [|discriminate].
    cbn [bind]. intros H. injection H as <-.
    exists [v]. split; [reflexivity|]. constructor; [|constructor].
    apply (Atoi_nonneg _ v (ReplaceAll_delete _ " " a Ha) Hv).
  - apply Forall_cons_1 in Htok as [Ha Htok].
    apply Forall_cons_1 in Htok as [Hb _].
    destruct (TString.Atoi a) as [int1|] eqn:H1; [|discriminate].
    destruct (TString.Atoi b) as [int2|] eqn:H2; [|discriminate].
    cbn [bind].
    pose proof (Atoi_nonneg a int1 Ha H1) as Hi1.
    pose proof (Atoi_nonneg b int2 Hb H2) as Hi2.
    destruct (int1 <=? int2)%Z; [|discriminate].
    destruct (int2 =? INT_MAX)%Z; [discriminate|].
    intros H. injection H as <-.
    exists (int_range int1 int2). split; [reflexivity|].
    apply Forall_forall. intros x Hx. unfold int_range in Hx.
    apply elem_of_seqZ in Hx. lia.
Qed.

Lemma fillIndices_tokens_appends (iArray : list string) :
  forall acc m : list Z,
    fillIndices_tokens iArray acc = Ok m ->
    exists l : list Z,
      m = (acc ++ l)%list /\ Forall (fun x => (0 <= x <= INT_MAX)%Z) l.
Proof.
  induction iArray as [|t rest IH]; intros acc m; cbn [fillIndices_tokens].
  - intros H. injection H as <-. exists []. now rewrite app_nil_r.
  - destruct (fillIndices_token t acc) as [m1|f] eqn:Ht; [|discriminate].
    cbn [bind]. intros Hrest.
    destruct (fillIndices_token_appends t acc m1 Ht) as (l1 & -> & Hl1).
    destruct (IH _ _ Hrest) as (l2 & -> & Hl2).
    exists (l1 ++ l2)%list. split; [now rewrite app_assoc|].
    now apply Forall_app.
Qed.

Lemma Atoi_in_int (s : string) :
  string_forall (fun c => negb (TString.is_delim "-" c)) s = true ->
  (Atoi_value s < INT_MAX)%Z ->
  TString.Atoi s = Ok (Atoi_value s).
Proof.
  intros Hs Hlt. unfold TString.Atoi, TString.atoi. fold (Atoi_value s).
  pose proof (atoi_value_nonneg _ (ReplaceAll_delete _ " " s Hs)) as H0.
  fold (Atoi_value s) in H0.
  replace (in_int (Atoi_value s)) with true; [reflexivity|].
  symmetry. unfold in_int. apply andb_true_iff.
  split; apply Z.leb_le; unfold INT_MIN, INT_MAX in *; lia.
Qed.

Lemma fillIndices_token_in_int (iStr : string) (acc : list Z) :
  Forall (fun v => (v < INT_MAX)%Z) (token_numbers iStr) ->
  fillIndices_token iStr acc <> Fault Undefined.
Proof.
  unfold fillIndices_token, token_numbers, TString.Tokenize.
  pose proof (Tokenize_from_tokens "-" iStr "" eq_refl) as Htok.
  destruct (TString.Tokenize_from "-" "" iStr) as [|a [|b [|c l]]];
    try discriminate; cbn [map]; intros Hlt.
  - apply Forall_cons_1 in Htok as [Ha _].
    apply Forall_cons_1 in Hlt as [Hlt _].
    rewrite (Atoi_in_int _ (ReplaceAll_delete _ " " a Ha) Hlt). discriminate.
  - apply Forall_cons_1 in Htok as [Ha Htok].
    apply Forall_cons_1 in Htok as [Hb _].
    apply Forall_cons_1 in Hlt as [Hlt1 Hlt].
    apply Forall_cons_1 in Hlt as [Hlt2 _].
    rewrite (Atoi_in_int a Ha Hlt1), (Atoi_in_int b Hb Hlt2). cbn [bind].
    destruct (Atoi_value a <=? Atoi_value b)%Z; [|discriminate].
    replace (Atoi_value b =? INT_MAX)%Z with false; [discriminate|].
    symmetry. apply Z.eqb_neq. lia.
Qed.

Lemma fillIndices_tokens_in_int (iArray : list string) :
  forall acc : list Z,
    Forall (fun v => (v < INT_MAX)%Z) (flat_map token_numbers iArray) ->
    fillIndices_tokens iArray acc <> Fault Undefined.
Proof.
  induction iArray as [|iStr rest IH]; intros acc Hlt;
    cbn [fillIndices_tokens flat_map] in *; [discriminate|].
  apply Forall_app in Hlt as [Hhere Hrest].
  pose proof (fillIndices_token_in_int iStr acc Hhere) as Htok.
  destruct (fillIndices_token iStr acc) as [m|f]; cbn [bind];
    [now apply IH | exact Htok].
Qed.

(** X6. The parser only appends, and short of an overflow it appends no
    negative index.  When every number written in the selection is below
    [INT_MAX], no [int] overflows in the run ([atoi] and the loop over a
    range stay within bounds), and when the run succeeds the indices
    collected before it are a prefix of the result and no appended index
    is negative: a dash in front of a number is a separator, so "-3"
    selects channel 3. *)
Theorem fillIndices_appends_nonnegative :
  forall (numBins : Z) (indices : string) (m_useIndices : list Z),
    Forall (fun v => (v < INT_MAX)%Z) (written_numbers indices) ->
    fillIndices numBins indices m_useIndices <> Fault Undefined /\
    (forall m : list Z,
        fillIndices numBins indices m_useIndices = Ok m ->
        exists l : list Z,
          m = (m_useIndices ++ l)%list /\ Forall (fun x => (0 <= x)%Z) l).
Proof.
  intros numBins s acc Hlt. unfold fillIndices, written_numbers in *.
  destruct (String.eqb (TString.ToLower s) "all").
  - split; [discriminate|].
    intros m H. injection H as <-. eexists. split; [reflexivity|].
    apply Forall_forall. intros x Hx. unfold int_range in Hx.
    apply elem_of_seqZ in Hx. lia.
  - split; [now apply fillIndices_tokens_in_int|].
    intros m H. destruct (fillIndices_tokens_appends _ _ _ H) as (l & -> & Hl).
    exists l. split; [reflexivity|].
    eapply Forall_impl; [exact Hl|]. simpl. intros x Hx. lia.
Qed.

Lemma fillIndices_appends_nonnegative_witness :
  written_numbers "-3" = [3%Z] /\
  fillIndices 4 "-3" [1%Z] = Ok [1; 3]%Z /\
  exists l : list Z, [1; 3]%Z = ([1%Z] ++ l)%list /\ Forall (fun x => (0 <= x)%Z) l.
Proof.
  assert (Hn : written_numbers "-3" = [3%Z]) by reflexivity.
  assert (H : fillIndices 4 "-3" [1%Z] = Ok [1; 3]%Z) by reflexivity.
  split; [exact Hn|]. split; [exact H|].
  apply (fillIndices_appends_nonnegative 4 "-3" [1%Z]); [|exact H].
  rewrite Hn. repeat constructor.
Defined.

(** ** Outcomes of the formula rewriter *)

(** Induction over a node and, through its list of dependents, over the
    nodes below it. *)
Lemma RooAbsArg_nested_ind (P : RooAbsArg -> Prop) :
  (forall n : string, P (RooOtherArg n)) ->
  (forall (n e : string) (ds : list RooAbsArg),
      Forall P ds -> P (RooFormulaVar n e ds)) ->
  forall a : RooAbsArg, P a.
Proof.
  intros Hother Hformula. fix IH 1. intros [n e ds | n].
  - apply Hformula. induction ds as [|d ds IHds]; constructor.
    + apply IH.
    + exact IHds.
  - apply Hother.
Qed.

Lemma editRFV_expr_rewrites (Sort : list nat -> list nat) (mode : Z)
    (ds : list RooAbsArg) (e : string) :
  TString.Contains "@" e = false ->
  (rewrites mode e = true -> exists e', editRFV_expr Sort mode ds e = Some e') /\
  (rewrites mode e = false -> editRFV_expr Sort mode ds e = None).
Proof.
  intros Hat. unfold rewrites, editRFV_expr. rewrite Hat. cbn [negb andb].
  destruct (TString.Contains "x[" e && TString.Contains "]" e).
  - destruct (Z.ltb_spec mode 2) as [Hlt | Hge].
    + replace (2 <=? mode)%Z with false by (symmetry; apply Z.leb_gt; lia).
      split; [discriminate | reflexivity].
    + replace (2 <=? mode)%Z with true by (symmetry; apply Z.leb_le; lia).
      split; [eauto | discriminate].
  - destruct (Z.ltb_spec mode 1) as [Hlt | Hge].
    + replace (1 <=? mode)%Z with false by (symmetry; apply Z.leb_gt; lia).
      split; [discriminate | reflexivity].
    + replace (1 <=? mode)%Z with true by (symmetry; apply Z.leb_le; lia).
      split; [eauto | discriminate].
Qed.

Section RewriterOutcome.

Variable TMath_Sort : list nat -> list nat.
Variable m_editRFV : Z.

Local Abbreviation edit := (editRFV TMath_Sort m_editRFV).
Local Abbreviation walk := (editRFV_dependents (editRFV TMath_Sort m_editRFV)).
Local Abbreviation dep_ok :=
  (fun d => match d with
            | RooFormulaVar _ _ _ => rewritable m_editRFV d
            | RooOtherArg _ => true
            end).

Local Abbreviation editRFV_outcome_at :=
  (editRFV_outcome_of TMath_Sort m_editRFV).

Lemma editRFV_dependents_outcome (ds : list RooAbsArg) :
  Forall editRFV_outcome_at ds ->
  forall acc : list RooAbsArg,
    (forallb dep_ok ds = true -> exists l, walk ds acc = Ok l) /\
    (forallb dep_ok ds = false -> walk ds acc = Fault NullDeref).
Proof.
  induction 1 as [|d ds Hd _ IH]; intros acc.
  - split; [eauto | discriminate].
  - cbn [forallb editRFV_dependents]. destruct d as [n e rest | n].
    + destruct Hd as (Hnone & Hsome & Hfault).
      destruct (rewritable m_editRFV (RooFormulaVar n e rest)) eqn:Hr.
      * destruct (Hsome eq_refl) as (a' & ->). cbn [bind andb]. apply IH.
      * cbn [andb]. split; [discriminate|]. intros _.
        destruct (rewrites m_editRFV e) eqn:Hw.
        -- now rewrite (Hfault eq_refl eq_refl).
        -- now rewrite (Hnone eq_refl).
    + cbn [andb]. apply IH.
Qed.

Lemma editRFV_outcome_all (a : RooAbsArg) : editRFV_outcome_at a.
Proof.
  induction a as [n | n e ds IH] using RooAbsArg_nested_ind; [exact I|].
  cbn [editRFV_outcome_of]. rewrite editRFV_unfold.
  destruct (TString.Contains "@" e) eqn:Hat.
  - assert (Hw : rewrites m_editRFV e = false)
      by (unfold rewrites; now rewrite Hat).
    cbn [rewritable]. rewrite Hw. cbn [andb].
    repeat split; [discriminate | discriminate].
  - destruct (editRFV_expr_rewrites TMath_Sort m_editRFV ds e Hat) as [Hyes Hno].
    cbn [rewritable].
    destruct (rewrites m_editRFV e) eqn:Hw; cbn [andb].
    + destruct (Hyes eq_refl) as (e' & ->).
      destruct (editRFV_dependents_outcome ds IH []) as [Hok Hbad].
      repeat split; try discriminate.
      * intros Hall. destruct (Hok Hall) as (l & ->). cbn [bind]. eauto.
      * intros _ Hall. now rewrite (Hbad Hall).
    + rewrite (Hno eq_refl). repeat split; discriminate.
Qed.

End RewriterOutcome.

(** X7. What [editRFV] returns on a formula node is decided by the
    decision table and the nodes below: the null result when the table
    asks for no rewrite, a new node when the node and every formula
    among its dependents, at every depth, is rewritten, and the use of a
    null pointer in every other case.  It never ends in the failed
    assertion or in an abort. *)
Theorem editRFV_outcome :
  forall (TMath_Sort : list nat -> list nat) (m_editRFV : Z)
         (varName formExpr : string) (dependents : list RooAbsArg),
    let oldVar := RooFormulaVar varName formExpr dependents in
    (rewrites m_editRFV formExpr = false ->
     editRFV TMath_Sort m_editRFV oldVar = Ok None) /\
    (rewritable m_editRFV oldVar = true ->
     exists newVar, editRFV TMath_Sort m_editRFV oldVar = Ok (Some newVar)) /\
    (rewrites m_editRFV formExpr = true -> rewritable m_editRFV oldVar = false ->
     editRFV TMath_Sort m_editRFV oldVar = Fault NullDeref) /\
    ((m_editRFV < 1)%Z -> rewrites m_editRFV formExpr = false).
Proof.
  intros Sort mode n e ds oldVar.
  pose proof (editRFV_outcome_all Sort mode oldVar) as (H1 & H2 & H3).
  repeat split; [exact H1 | exact H2 | exact H3 |].
  intros Hlt. unfold rewrites.
  replace (2 <=? mode)%Z with false by (symmetry; apply Z.leb_gt; lia).
  replace (1 <=? mode)%Z with false by (symmetry; apply Z.leb_gt; lia).
  now rewrite Tauto.if_same, andb_false_r.
Qed.

Lemma editRFV_outcome_witness :
  rewritable 1 (RooFormulaVar "f" "a*g"
                  [RooOtherArg "a"; RooFormulaVar "g" "b+1" [RooOtherArg "b"]]) = true /\
  exists newVar,
    editRFV TMath.Sort_insertion 1
      (RooFormulaVar "f" "a*g"
         [RooOtherArg "a"; RooFormulaVar "g" "b+1" [RooOtherArg "b"]])
    = Ok (Some newVar).
Proof.
  assert (H : rewritable 1 (RooFormulaVar "f" "a*g"
                [RooOtherArg "a"; RooFormulaVar "g" "b+1" [RooOtherArg "b"]]) = true)
    by reflexivity.
  split; [exact H|].
  exact (proj1 (proj2 (editRFV_outcome TMath.Sort_insertion 1 "f" "a*g"
                         [RooOtherArg "a"; RooFormulaVar "g" "b+1" [RooOtherArg "b"]]))
           H).
Defined.

(** ** What a rewrite keeps *)

Lemma editRFV_Some_inv (Sort : list nat -> list nat) (mode : Z)
    (n e : string) (ds : list RooAbsArg) (a' : RooAbsArg) :
  editRFV Sort mode (RooFormulaVar n e ds) = Ok (Some a') ->
  TString.Contains "@" e = false /\
  exists (e' : string) (ds' : list RooAbsArg),
    editRFV_expr Sort mode ds e = Some e' /\
    editRFV_dependents (editRFV Sort mode) ds [] = Ok ds' /\
    a' = RooFormulaVar n e' ds'.
Proof.
  rewrite editRFV_unfold.
  destruct (TString.Contains "@" e); [discriminate|].
  destruct (editRFV_expr Sort mode ds e) as [e'|]; [|discriminate].
  destruct (editRFV_dependents (editRFV Sort mode) ds []) as [ds'|f];
    [|discriminate].
  cbn [bind]. intros H. injection H as <-.
  split; [reflexivity|]. now exists e', ds'.
Qed.

Lemma RooArgSet_find_names (set : list RooAbsArg) (n : string) :
  match RooArgSet_find set n with
  | Some _ => existsb (String.eqb n) (map GetName set) = true
  | None => existsb (String.eqb n) (map GetName set) = false
  end.
Proof.
  unfold RooArgSet_find.
  induction set as [|b set IH]; [reflexivity|].
  cbn [List.find map existsb]. rewrite (String.eqb_sym n (GetName b)).
  destruct (String.eqb (GetName b) n); [reflexivity|].
  cbn [orb]. exact IH.
Qed.

Lemma RooArgSet_add_names (set : list RooAbsArg) (a : RooAbsArg) :
  map GetName (RooArgSet_add set a) = add_name (map GetName set) (GetName a).
Proof.
  unfold RooArgSet_add, add_name.
  pose proof (RooArgSet_find_names set (GetName a)) as H.
  destruct (RooArgSet_find set (GetName a)); rewrite H; [reflexivity|].
  now rewrite map_app.
Qed.

Lemma editRFV_dependents_names (Sort : list nat -> list nat) (mode : Z)
    (ds : list RooAbsArg) :
  Forall (fun d => forall d', editRFV Sort mode d = Ok (Some d') ->
                              GetName d' = GetName d) ds ->
  forall acc l : list RooAbsArg,
    editRFV_dependents (editRFV Sort mode) ds acc = Ok l ->
    map GetName l = fold_left add_name (map GetName ds) (map GetName acc).
Proof.
  induction 1 as [|d ds Hd _ IH]; intros acc l; cbn [editRFV_dependents map fold_left].
  - intros H. now injection H as <-.
  - destruct d as [n e rest | n].
    + destruct (editRFV Sort mode (RooFormulaVar n e rest)) as [[d'|]|f] eqn:E;
        try discriminate.
      cbn [bind]. intros H. rewrite (IH _ _ H), RooArgSet_add_names.
      now rewrite (Hd d' eq_refl).
    + intros H. now rewrite (IH _ _ H), RooArgSet_add_names.
Qed.

Lemma editRFV_keeps_name (Sort : list nat -> list nat) (mode : Z) (a : RooAbsArg) :
  forall a', editRFV Sort mode a = Ok (Some a') -> GetName a' = GetName a.
Proof.
  destruct a as [n e ds | n]; intros a' H; [|discriminate].
  apply editRFV_Some_inv in H as (_ & e' & ds' & _ & _ & ->). reflexivity.
Qed.

(** X8. A node that [editRFV] builds has the name of the node it was
    built from, the expression text of the decision table, and as
    dependents nodes with the names of the old dependents, in the order
    of their first occurrence, each name once. *)
Theorem editRFV_keeps_names :
  forall (TMath_Sort : list nat -> list nat) (m_editRFV : Z)
         (varName formExpr : string) (dependents : list RooAbsArg)
         (newVar : RooAbsArg),
    editRFV TMath_Sort m_editRFV (RooFormulaVar varName formExpr dependents)
      = Ok (Some newVar) ->
    exists (newFormExpr : string) (varList : list RooAbsArg),
      newVar = RooFormulaVar varName newFormExpr varList /\
      editRFV_expr TMath_Sort m_editRFV dependents formExpr = Some newFormExpr /\
      map GetName varList = first_occurrences (map GetName dependents) /\
      (NoDup (map GetName dependents) ->
       map GetName varList = map GetName dependents).
Proof.
  intros Sort mode n e ds a' H.
  apply editRFV_Some_inv in H as (_ & e' & ds' & He & Hwalk & ->).
  exists e', ds'. split; [reflexivity|]. split; [exact He|].
  assert (Hnames : map GetName ds' = first_occurrences (map GetName ds)).
  { apply (editRFV_dependents_names Sort mode ds) with (acc := []); [|exact Hwalk].
    apply Forall_forall. intros d _. apply editRFV_keeps_name. }
  split; [exact Hnames|].
  intros Hnd. rewrite Hnames. unfold first_occurrences.
  assert (Hgen : forall (l acc : list string),
             NoDup (acc ++ l) -> fold_left add_name l acc = (acc ++ l)%list).
  { induction l as [|x l IHl]; intros acc Hacc; cbn [fold_left].
    - now rewrite app_nil_r.
    - assert (Hx : existsb (String.eqb x) acc = false).
      { apply Bool.not_true_is_false. intros Hex.
        apply existsb_exists in Hex as (y & Hy & Hxy).
        apply String.eqb_eq in Hxy as <-.
        apply NoDup_app in Hacc as (_ & Hdisj & _).
        apply (Hdisj x); [now apply list_elem_of_In | left]. }
      unfold add_name at 2. rewrite Hx.
      rewrite IHl; rewrite <- app_assoc; [reflexivity | exact Hacc]. }
  apply (Hgen _ []). exact Hnd.
Qed.

Lemma editRFV_keeps_names_witness :
  editRFV TMath.Sort_insertion 1 Sample.ab_abc
    = Ok (Some (RooFormulaVar "h" "@1+@2" Sample.abc_deps)) /\
  exists (newFormExpr : string) (varList : list RooAbsArg),
    RooFormulaVar "h" "@1+@2" Sample.abc_deps
      = RooFormulaVar "h" newFormExpr varList /\
    map GetName varList = ["a"; "ab"; "abc"].
Proof.
  assert (H : editRFV TMath.Sort_insertion 1 Sample.ab_abc
              = Ok (Some (RooFormulaVar "h" "@1+@2" Sample.abc_deps)))
    by reflexivity.
  split; [exact H|].
  destruct (editRFV_keeps_names TMath.Sort_insertion 1 "h" "ab+abc"
              Sample.abc_deps _ H) as (e' & l & Heq & _ & Hn & _).
  exists e', l. split; [exact Heq | exact Hn].
Defined.

(** ** Rewriting twice *)

Lemma Contains_cons (p : string) (c : ascii) (t : string) :
  TString.Contains p t = true -> TString.Contains p (String c t) = true.
Proof. intros H. cbn [TString.Contains]. rewrite H. apply orb_true_r. Qed.

Lemma prefix_app_l (p a b : string) :
  String.prefix p a = true -> String.prefix p (a +:+ b) = true.
Proof.
  revert a. induction p as [|c p IH]; intros a H.
  - now destruct (a +:+ b).
  - destruct a as [|d a]; [discriminate H|].
    rewrite string_app_cons. simpl in *.
    destruct (ascii_dec c d); [now apply IH | discriminate].
Qed.

Lemma Contains_app_l (p a b : string) :
  TString.Contains p a = true -> TString.Contains p (a +:+ b) = true.
Proof.
  induction a as [|c a IH].
  - cbn [TString.Contains]. rewrite orb_false_r. intros H.
    apply Contains_prefix. now apply (prefix_app_l p "" b).
  - cbn [TString.Contains]. intros H. apply orb_true_iff in H as [H | H].
    + apply Contains_prefix. now apply (prefix_app_l p (String c a) b).
    + rewrite string_app_cons. apply Contains_cons. now apply IH.
Qed.

Lemma Contains_at_cons (c : ascii) (t : string) :
  TString.Contains "@" (String c t) = true ->
  c = "@"%char \/ TString.Contains "@" t = true.
Proof.
  cbn [TString.Contains]. intros H. apply orb_true_iff in H as [H | H].
  - left. cbn [String.prefix] in H.
    destruct (ascii_dec "@" c) as [Heq | _]; [now symmetry | discriminate H].
  - now right.
Qed.

Lemma Contains_at_head (t : string) : TString.Contains "@" (String "@" t) = true.
Proof. apply Contains_prefix. now destruct t. Qed.

Section ScanFacts.

Variables s1 s2 : string.
Hypothesis s2_at : TString.Contains "@" s2 = true.

(** A text with an '@' keeps one when matches are replaced by a text
    with an '@'. *)
Lemma ReplaceAll_scan_keeps_at (s : string) :
  forall k : nat,
    TString.Contains "@" (string_drop k s) = true ->
    TString.Contains "@" (TString.ReplaceAll_scan s1 s2 k s) = true.
Proof.
  induction s as [|c s IH]; intros k H.
  - destruct k; discriminate H.
  - cbn [TString.ReplaceAll_scan]. destruct k as [|k]; [|now apply IH].
    destruct (String.prefix s1 (String c s)).
    + now apply Contains_app_l.
    + cbn [string_drop] in H. apply Contains_at_cons in H as [-> | H].
      * apply Contains_at_head.
      * apply Contains_cons. now apply (IH 0%nat).
Qed.

(** The scan gives the text back as it is, or a text with an '@'. *)
Lemma ReplaceAll_scan_same_or_at (s : string) :
  forall k : nat,
    TString.ReplaceAll_scan s1 s2 k s = string_drop k s \/
    TString.Contains "@" (TString.ReplaceAll_scan s1 s2 k s) = true.
Proof.
  induction s as [|c s IH]; intros k.
  - left. now destruct k.
  - cbn [TString.ReplaceAll_scan]. destruct k as [|k]; [|apply IH].
    destruct (String.prefix s1 (String c s)).
    + right. now apply Contains_app_l.
    + destruct (IH 0%nat) as [-> | H].
      * now left.
      * right. now apply Contains_cons.
Qed.

(** Where the pattern occurs, the scan leaves an '@'. *)
Lemma ReplaceAll_scan_match_at (s : string) :
  s1 <> "" -> TString.Contains s1 s = true ->
  TString.Contains "@" (TString.ReplaceAll_scan s1 s2 0 s) = true.
Proof.
  intros Hne. induction s as [|c s IH]; intros H.
  - cbn [TString.Contains] in H. rewrite orb_false_r in H.
    destruct s1; [now elim Hne | discriminate H].
  - cbn [TString.ReplaceAll_scan].
    destruct (String.prefix s1 (String c s)) eqn:Hp.
    + now apply Contains_app_l.
    + cbn [TString.Contains] in H. rewrite Hp in H. apply Contains_cons. auto.
Qed.

Lemma ReplaceAll_same_or_at (s : string) :
  TString.ReplaceAll s1 s2 s = s \/
  TString.Contains "@" (TString.ReplaceAll s1 s2 s) = true.
Proof.
  unfold TString.ReplaceAll. destruct s1 as [|a r] eqn:E; [now left|].
  rewrite <- E. apply (ReplaceAll_scan_same_or_at s 0).
Qed.

Lemma ReplaceAll_keeps_at (s : string) :
  TString.Contains "@" s = true ->
  TString.Contains "@" (TString.ReplaceAll s1 s2 s) = true.
Proof.
  intros H. unfold TString.ReplaceAll. destruct s1 as [|a r] eqn:E; [exact H|].
  rewrite <- E. now apply (ReplaceAll_scan_keeps_at s 0).
Qed.

End ScanFacts.

(** Deleting the closing brackets deletes no '@'. *)
Lemma ReplaceAll_bracket_keeps_at (s : string) :
  TString.Contains "@" s = true ->
  TString.Contains "@" (TString.ReplaceAll "]" "" s) = true.
Proof.
  unfold TString.ReplaceAll.
  induction s as [|c s IH]; intros H; [discriminate H|].
  cbn [TString.ReplaceAll_scan String.length Nat.sub].
  apply Contains_at_cons in H as [-> | H].
  - apply Contains_at_head.
  - destruct (String.prefix "]" (String c s)).
    + rewrite string_app_nil. auto.
    + apply Contains_cons. auto.
Qed.

Lemma fill_reNameMap_has (names : list string) :
  forall (i : nat) (m : gmap string string) (name : string),
    In name names ->
    exists j : nat, fill_reNameMap i names m !! name = Some (TString.Format_at j).
Proof.
  induction names as [|x names IH]; intros i m name Hin; [destruct Hin|].
  cbn [fill_reNameMap].
  destruct (in_dec string_dec name names) as [Hrest | Hrest].
  - now apply IH.
  - destruct Hin as [-> | Hin]; [|contradiction].
    exists i. rewrite fill_reNameMap_other by exact Hrest.
    apply lookup_insert_eq.
Qed.

Lemma Format_at_has_at (j : nat) : TString.Contains "@" (TString.Format_at j) = true.
Proof. unfold TString.Format_at. apply Contains_at_head. Qed.

(** The raw-name case gives the text back as it is, or a text with an
    '@'. *)
Lemma replaceNames_same_or_at (names : list string) (indice : list nat)
    (formExpr : string) :
  replaceNames names (fill_reNameMap 0 names ∅) indice formExpr = formExpr \/
  TString.Contains "@"
    (replaceNames names (fill_reNameMap 0 names ∅) indice formExpr) = true.
Proof.
  unfold replaceNames.
  generalize (or_introl (TString.Contains "@" formExpr = true)
                (@eq_refl string formExpr)).
  generalize formExpr at 1 3 4 6 as s.
  induction indice as [|index l IHl]; intros s Hs; cbn [fold_left]; [exact Hs|].
  apply IHl.
  destruct (names !! index) as [name|] eqn:Hname; cbn [default from_option id].
  - assert (Hin : In name names)
      by (apply list_elem_of_In, list_elem_of_lookup; eauto).
    destruct (fill_reNameMap_has names 0 ∅ name Hin) as (j & ->).
    cbn [default from_option id].
    destruct Hs as [-> | Hs].
    + apply ReplaceAll_same_or_at, Format_at_has_at.
    + right. apply ReplaceAll_keeps_at; [apply Format_at_has_at | exact Hs].
  - exact Hs.
Qed.

(** X9. A second call of [editRFV] on the node a first call has built.
    When the first call changed the expression text, the new text holds
    an '@' and the second call returns the null result: the rewrite is
    final.  When the first call left the text as it was (no dependent
    name occurred in it), the second call rewrites the node again: it
    returns a node if all formula dependents of the new node, at every
    depth, are rewritten again, and dereferences null otherwise, as it
    does when the first call has made a dependent formula positional. *)
Theorem editRFV_twice :
  forall (TMath_Sort : list nat -> list nat) (m_editRFV : Z)
         (varName formExpr : string) (dependents : list RooAbsArg)
         (newVar : RooAbsArg),
    editRFV TMath_Sort m_editRFV (RooFormulaVar varName formExpr dependents)
      = Ok (Some newVar) ->
    exists (newFormExpr : string) (varList : list RooAbsArg),
      newVar = RooFormulaVar varName newFormExpr varList /\
      (newFormExpr <> formExpr -> TString.Contains "@" newFormExpr = true) /\
      (TString.Contains "@" newFormExpr = true ->
       editRFV TMath_Sort m_editRFV newVar = Ok None) /\
      (TString.Contains "@" newFormExpr = false ->
       newFormExpr = formExpr /\
       (rewritable m_editRFV newVar = true ->
        exists again : RooAbsArg,
          editRFV TMath_Sort m_editRFV newVar = Ok (Some again)) /\
       (rewritable m_editRFV newVar = false ->
        editRFV TMath_Sort m_editRFV newVar = Fault NullDeref)).
Proof.
  intros Sort mode n e ds a' H.
  assert (Hw : rewrites mode e = true).
  { destruct (rewrites mode e) eqn:Hw; [reflexivity|].
    pose proof (editRFV_outcome_all Sort mode (RooFormulaVar n e ds))
      as (Hnone & _).
    rewrite (Hnone Hw) in H. discriminate. }
  apply editRFV_Some_inv in H as (Hat & e' & ds' & He & _ & ->).
  exists e', ds'. split; [reflexivity|].
  assert (Hcases : e' = e \/ TString.Contains "@" e' = true).
  { unfold editRFV_expr in He.
    destruct (TString.Contains "x[" e && TString.Contains "]" e) eqn:Hb.
    - destruct (mode <? 2)%Z; [discriminate|]. injection He as <-.
      right. apply andb_true_iff in Hb as [Hx _].
      apply ReplaceAll_bracket_keeps_at.
      unfold TString.ReplaceAll.
      apply ReplaceAll_scan_match_at; [reflexivity | discriminate | exact Hx].
    - destruct (mode <? 1)%Z; [discriminate|]. injection He as <-.
      apply replaceNames_same_or_at. }
  split; [intros Hne; destruct Hcases as [-> | Hc]; [now elim Hne | exact Hc]|].
  split; [intros Hc; now rewrite editRFV_unfold, Hc|].
  intros Hno. destruct Hcases as [-> | Hc]; [|congruence].
  split; [reflexivity|].
  pose proof (editRFV_outcome_all Sort mode (RooFormulaVar n e ds'))
    as (_ & Hsome & Hfault).
  split; [exact Hsome | exact (Hfault Hw)].
Qed.

Lemma editRFV_twice_witness :
  editRFV TMath.Sort_insertion 1
    (RooFormulaVar "f" "1+2" [RooFormulaVar "g" "b+1" [RooOtherArg "b"]])
    = Ok (Some (RooFormulaVar "f" "1+2"
                  [RooFormulaVar "g" "@0+1" [RooOtherArg "b"]])) /\
  editRFV TMath.Sort_insertion 1
    (RooFormulaVar "f" "1+2" [RooFormulaVar "g" "@0+1" [RooOtherArg "b"]])
    = Fault NullDeref.
Proof.
  assert (H : editRFV TMath.Sort_insertion 1
                (RooFormulaVar "f" "1+2"
                   [RooFormulaVar "g" "b+1" [RooOtherArg "b"]])
              = Ok (Some (RooFormulaVar "f" "1+2"
                            [RooFormulaVar "g" "@0+1" [RooOtherArg "b"]])))
    by reflexivity.
  split; [exact H|].
  destruct (editRFV_twice TMath.Sort_insertion 1 "f" "1+2"
              [RooFormulaVar "g" "b+1" [RooOtherArg "b"]] _ H)
    as (e' & l & Heq & _ & _ & Hsame).
  injection Heq as <- <-.
  exact (proj2 (proj2 (Hsame eq_refl)) eq_refl).
Defined.

(** ** The parameter sets of a whole run *)

Lemma RooArgSet_add_NoDup (set : list Param) (x : Param) :
  NoDup (map GetName set) -> NoDup (map GetName (RooArgSet_add set x)).
Proof.
  intros Hnd. unfold RooArgSet_add.
  destruct (RooArgSet_find set (GetName x)) eqn:E; [exact Hnd|].
  apply RooArgSet_find_None in E. rewrite map_app. cbn [map].
  apply NoDup_app. split; [exact Hnd|]. split; [|apply NoDup_singleton].
  intros n Hn Hx. apply list_elem_of_singleton in Hx as ->.
  apply list_elem_of_In, in_map_iff in Hn as (y & Hy & Hin).
  assert (Hd : declares set x = true).
  { apply existsb_exists. exists y. split; [exact Hin | now apply String.eqb_eq]. }
  congruence.
Qed.

Lemma cast_find_Some (set : list Param) (n : string) (var : Param) :
  dynamic_cast_RooRealVar (RooArgSet_find set n) = Some var ->
  GetName var = n /\ cast_finds set n = true.
Proof.
  intros H. unfold cast_finds. rewrite H. split; [|reflexivity].
  unfold RooArgSet_find in H.
  destruct (List.find _ set) as [a|] eqn:E; [|discriminate H].
  cbn [dynamic_cast_RooRealVar] in H.
  destruct (isRooRealVar a); [|discriminate H]. injection H as <-.
  apply List.find_some in E as [_ E]. now apply String.eqb_eq.
Qed.

Lemma cast_find_None (set : list Param) (n : string) :
  dynamic_cast_RooRealVar (RooArgSet_find set n) = None ->
  cast_finds set n = false.
Proof. intros H. unfold cast_finds. now rewrite H. Qed.

Ltac by_sorted Hs x Hx :=
  first [ exact (Hs POI x Hx) | exact (Hs GlobalObs x Hx)
        | exact (Hs CondObs x Hx) | exact (Hs Nuisance x Hx) ].

Ltac by_unique Hu :=
  first [ exact (Hu POI) | exact (Hu GlobalObs) | exact (Hu CondObs)
        | exact (Hu Nuisance) | exact (Hu Dropped) ].

(** The step of the two invariants when one set has received a member;
    what is left to show is that the name of the new member is sorted
    into that set. *)
Ltac sorted_step Hs Hu :=
  let r := fresh "r" in
  let x := fresh "x" in
  let Hx := fresh "Hx" in
  split;
  [ intros r x Hx; destruct r;
    cbn [role_set subPoi subGobs subCobs subNuis] in Hx;
    try contradiction; try by_sorted Hs x Hx;
    apply RooArgSet_add_inv in Hx as [Hx | ->]; [by_sorted Hs x Hx|]
  | intros r; destruct r; cbn [role_set subPoi subGobs subCobs subNuis];
    try apply RooArgSet_add_NoDup; by_unique Hu ].

(** One pass of the loop body keeps the output sets sorted and free of
    repeated names. *)
Lemma classify_param_sorted (m_mc : ModelConfig) (arg : Param) (s s' : SubSets) :
  classify_param m_mc arg s = Ok s' ->
  sets_sorted m_mc s -> names_unique s ->
  sets_sorted m_mc s' /\ names_unique s'.
Proof.
  unfold classify_param. intros H Hs Hu.
  destruct (dynamic_cast_RooRealVar (Some arg)) as [v|]; [|discriminate H].
  destruct (dynamic_cast_RooRealVar
              (RooArgSet_find (GetParametersOfInterest m_mc) (GetName v)))
    as [var|] eqn:E1.
  { injection H as <-. apply cast_find_Some in E1 as [Hn Hc].
    sorted_step Hs Hu.
    unfold set_of_name. now rewrite Hn, Hc. }
  apply cast_find_None in E1.
  destruct (dynamic_cast_RooRealVar
              (RooArgSet_find (GetGlobalObservables m_mc) (GetName v)))
    as [var|] eqn:E2.
  { injection H as <-. apply cast_find_Some in E2 as [Hn Hc].
    sorted_step Hs Hu.
    unfold set_of_name. now rewrite Hn, E1, Hc. }
  apply cast_find_None in E2.
  destruct (match GetConditionalObservables m_mc with
            | Some cobs => dynamic_cast_RooRealVar (RooArgSet_find cobs (GetName v))
            | None => None
            end) as [var|] eqn:E3.
  { injection H as <-.
    assert (Hc : GetName var = GetName v /\
                 match GetConditionalObservables m_mc with
                 | Some cobs => cast_finds cobs (GetName v)
                 | None => false
                 end = true).
    { destruct (GetConditionalObservables m_mc); [|discriminate E3].
      now apply cast_find_Some. }
    destruct Hc as [Hn Hc].
    sorted_step Hs Hu.
    unfold set_of_name. now rewrite Hn, E1, E2, Hc. }
  assert (Hc : match GetConditionalObservables m_mc with
               | Some cobs => cast_finds cobs (GetName v)
               | None => false
               end = false).
  { destruct (GetConditionalObservables m_mc); [|reflexivity].
    now apply cast_find_None. }
  destruct (negb (isConstant v)); injection H as <-; [|now split].
  sorted_step Hs Hu.
  unfold set_of_name. now rewrite E1, E2, Hc.
Qed.

Lemma classify_params_sorted (m_mc : ModelConfig) (indivNuis : list Param) :
  forall s s' : SubSets,
    classify_params m_mc indivNuis s = Ok s' ->
    sets_sorted m_mc s -> names_unique s ->
    sets_sorted m_mc s' /\ names_unique s'.
Proof.
  induction indivNuis as [|arg rest IH]; intros s s'; cbn [classify_params].
  - intros H. injection H as <-. now split.
  - destruct (classify_param m_mc arg s) as [s1|f] eqn:E; [|discriminate].
    cbn [bind]. intros H Hs Hu.
    destruct (classify_param_sorted m_mc arg s s1 E Hs Hu) as [Hs1 Hu1].
    now apply (IH s1 s').
Qed.

Lemma makeWorkspace_channels_sorted
    (sum : list Q -> Q) (cH : RooDataSet -> string -> RooRealVar -> Z -> Q -> Q -> TH1)
    (m_reBin : Z) (m_mc : ModelConfig) (channels : list Channel) :
  forall w w' : SubWorkspace,
    makeWorkspace_channels sum cH m_reBin m_mc channels w = Ok w' ->
    sets_sorted m_mc (subSets w) -> names_unique (subSets w) ->
    sets_sorted m_mc (subSets w') /\ names_unique (subSets w').
Proof.
  induction channels as [|ch rest IH]; intros w w'; cbn [makeWorkspace_channels].
  - intros H. injection H as <-. now split.
  - unfold makeWorkspace_channel.
    destruct (classify_params m_mc (indivNuis_of ch) (subSets w)) as [sets|f] eqn:E;
      [|discriminate].
    cbn [bind].
    destruct (makeWorkspace_dataset sum cH m_reBin (datai_of ch) (indivObs_of ch))
      as [r|f]; [|discriminate].
    cbn [bind]. intros H Hs Hu.
    destruct (classify_params_sorted m_mc _ _ _ E Hs Hu) as [Hs1 Hu1].
    now apply (IH _ w' H).
Qed.

(** X10. However many channels are selected and whatever parameters they
    share, the four parameter sets the loop of [makeWorkspace] builds
    hold no name twice and have no name in common. *)
Theorem makeWorkspace_sets_disjoint :
  forall (sum_of_weights : list Q -> Q)
         (createHistogram : RooDataSet -> string -> RooRealVar -> Z -> Q -> Q -> TH1)
         (m_reBin : Z) (m_mc : ModelConfig) (channels : list Channel)
         (w : SubWorkspace),
    makeWorkspace_channels sum_of_weights createHistogram m_reBin m_mc channels
      makeWorkspace_start = Ok w ->
    (forall r : Role, NoDup (map GetName (role_set r (subSets w)))) /\
    (forall (r1 r2 : Role) (n : string),
        In n (map GetName (role_set r1 (subSets w))) ->
        In n (map GetName (role_set r2 (subSets w))) -> r1 = r2).
Proof.
  intros sum cH m_reBin m_mc channels w H.
  destruct (makeWorkspace_channels_sorted sum cH m_reBin m_mc channels _ _ H)
    as [Hs Hu].
  - intros r x Hx. destruct r; destruct Hx.
  - intros r. destruct r; constructor.
  - split; [exact Hu|].
    intros r1 r2 n H1 H2.
    apply in_map_iff in H1 as (x1 & <- & H1).
    apply in_map_iff in H2 as (x2 & Hn & H2).
    rewrite <- (Hs r1 x1 H1), <- (Hs r2 x2 H2). now rewrite Hn.
Qed.

Lemma makeWorkspace_sets_disjoint_witness :
  exists w : SubWorkspace,
    makeWorkspace_channels ROOT.sum_exact ROOT.createHistogram (-1) Run.mc
      [Run.ch0; Run.ch1] makeWorkspace_start = Ok w /\
    map GetName (subPoi (subSets w)) = ["mu"] /\
    map GetName (subGobs (subSets w)) = ["gobs_theta"] /\
    map GetName (subNuis (subSets w)) = ["theta"] /\
    NoDup (map GetName (subNuis (subSets w))).
Proof.
  destruct (makeWorkspace_channels ROOT.sum_exact ROOT.createHistogram (-1) Run.mc
              [Run.ch0; Run.ch1] makeWorkspace_start) as [w|f] eqn:E;
    [|vm_compute in E; discriminate E].
  exists w. split; [reflexivity|].
  pose proof (proj1 (makeWorkspace_sets_disjoint ROOT.sum_exact ROOT.createHistogram
                       (-1) Run.mc [Run.ch0; Run.ch1] w E) Nuisance) as Hnd.
  vm_compute in E. injection E as <-.
  repeat split; try reflexivity. exact Hnd.
Defined.

(** ** Parameters that are no [RooRealVar] *)

Lemma classify_param_real_Ok (m_mc : ModelConfig) (v : Param) (s : SubSets) :
  isRooRealVar v = true -> exists s', classify_param m_mc v s = Ok s'.
Proof.
  intros Hv. unfold classify_param. cbn [dynamic_cast_RooRealVar]. rewrite Hv.
  repeat match goal with
         | |- context [match ?e with _ => _ end] => destruct e
         end; eauto.
Qed.

(** X11. A free parameter that is no [RooRealVar] (a category, say) ends
    the classification in the use of a null pointer: the cast of the
    parameter is not tested before its name is read.  The parameters in
    front of it are classified, the channel's dataset is never
    reached. *)
Theorem classify_params_not_RooRealVar :
  forall (m_mc : ModelConfig) (pre post : list Param) (a : Param) (s : SubSets),
    Forall (fun v => isRooRealVar v = true) pre ->
    isRooRealVar a = false ->
    classify_params m_mc (pre ++ a :: post) s = Fault NullDeref /\
    (forall (sum_of_weights : list Q -> Q)
            (createHistogram : RooDataSet -> string -> RooRealVar -> Z -> Q -> Q -> TH1)
            (m_reBin : Z) (ch : Channel) (w : SubWorkspace),
        indivNuis_of ch = (pre ++ a :: post)%list -> subSets w = s ->
        makeWorkspace_channel sum_of_weights createHistogram m_reBin m_mc ch w
          = Fault NullDeref).
Proof.
  intros m_mc pre post a s Hpre Ha.
  assert (H : classify_params m_mc (pre ++ a :: post) s = Fault NullDeref).
  { revert s. induction Hpre as [|v pre Hv _ IH]; intros s.
    - cbn [app classify_params]. unfold classify_param.
      cbn [dynamic_cast_RooRealVar]. now rewrite Ha.
    - cbn [app classify_params].
      destruct (classify_param_real_Ok m_mc v s Hv) as (s1 & ->).
      cbn [bind]. apply IH. }
  split; [exact H|].
  intros sum cH m_reBin ch w Hch Hw. unfold makeWorkspace_channel.
  now rewrite Hch, Hw, H.
Qed.

Lemma classify_params_not_RooRealVar_witness :
  Forall (fun v => isRooRealVar v = true) [Sample.mu] /\
  isRooRealVar Run.sample_type = false /\
  classify_params Run.mc [Sample.mu; Run.sample_type; Run.theta] Sample.no_sets
    = Fault NullDeref.
Proof.
  assert (H1 : Forall (fun v => isRooRealVar v = true) [Sample.mu])
    by (repeat constructor).
  assert (H2 : isRooRealVar Run.sample_type = false) by reflexivity.
  split; [exact H1|]. split; [exact H2|].
  exact (proj1 (classify_params_not_RooRealVar Run.mc [Sample.mu] [Run.theta]
                  Run.sample_type Sample.no_sets H1 H2)).
Defined.

(** ** The parameter sets of one channel, name by name *)

(** X12. The loop over the free parameters of a channel, started on
    empty sets with parameters and declared sets of [RooRealVar]s, does
    not fail, and the names in each of the four sets it fills are exactly
    the names of the parameters that have the role of that set. *)
Theorem classify_params_exact :
  forall (m_mc : ModelConfig) (indivNuis : list Param),
    all_RooRealVar m_mc ->
    Forall (fun v => isRooRealVar v = true) indivNuis ->
    exists s' : SubSets,
      classify_params m_mc indivNuis
        {| subPoi := []; subGobs := []; subCobs := []; subNuis := [] |} = Ok s' /\
      forall (r : Role) (n : string),
        r <> Dropped ->
        (In n (map GetName (role_set r s')) <->
         exists v : Param, In v indivNuis /\ spec_role m_mc v = r /\ GetName v = n).
Proof.
  intros m_mc indivNuis Hmc Hall.
  destruct (classify_params_roles m_mc indivNuis Hmc Hall
              {| subPoi := []; subGobs := []; subCobs := []; subNuis := [] |})
    as (s' & Hs' & _ & Hin).
  exists s'. split; [exact Hs'|]. intros r n Hr. split.
  - intros Hn. apply in_map_iff in Hn as (x & <- & Hx).
    destruct (classify_params_sources m_mc indivNuis Hmc Hall _ _ Hs' r x Hx)
      as [Hx0 | H]; [|exact H].
    destruct r; destruct Hx0.
  - intros (v & Hv & <- & <-). now apply Hin.
Qed.

Lemma classify_params_exact_witness :
  all_RooRealVar Run.mc /\
  Forall (fun v => isRooRealVar v = true) (indivNuis_of Run.ch1) /\
  exists s' : SubSets,
    classify_params Run.mc (indivNuis_of Run.ch1) Sample.no_sets = Ok s' /\
    (In "lumi" (map GetName (subNuis s')) <->
     exists v : Param,
       In v (indivNuis_of Run.ch1) /\ spec_role Run.mc v = Nuisance /\
       GetName v = "lumi").
Proof.
  assert (H1 : all_RooRealVar Run.mc) by (repeat split; repeat constructor).
  assert (H2 : Forall (fun v => isRooRealVar v = true) (indivNuis_of Run.ch1))
    by (repeat constructor).
  split; [exact H1|]. split; [exact H2|].
  destruct (classify_params_exact Run.mc (indivNuis_of Run.ch1) H1 H2)
    as (s' & Hs' & Hiff).
  exists s'. split; [exact Hs'|]. apply (Hiff Nuisance "lumi"). discriminate.
Defined.

(** ** The events of a rebuilt dataset *)

Lemma assign_names (indivObs : list RooRealVar) (row : list (string * Q)) :
  map varName (assign indivObs row) = map varName indivObs.
Proof.
  unfold assign. rewrite map_map. apply map_ext. intros v.
  now destruct (lookup_value (varName v) row).
Qed.

Lemma assign_covered (indivObs : list RooRealVar) (row : list (string * Q)) :
  Forall (fun v => lookup_value (varName v) row <> None) indivObs ->
  current_values (assign indivObs row) = restrict (map varName indivObs) row.
Proof.
  unfold current_values, assign, restrict. rewrite !map_map.
  induction 1 as [|v l Hv _ IH]; [reflexivity|].
  cbn [map]. rewrite IH. f_equal.
  destruct (lookup_value (varName v) row); [reflexivity | now elim Hv].
Qed.

Lemma Forall_covered_names (obs obs' : list RooRealVar) (row : list (string * Q)) :
  map varName obs' = map varName obs ->
  Forall (fun v => lookup_value (varName v) row <> None) obs ->
  Forall (fun v => lookup_value (varName v) row <> None) obs'.
Proof.
  intros Hn H. apply Forall_forall. intros v Hv.
  apply list_elem_of_In in Hv.
  assert (Hin : In (varName v) (map varName obs))
    by (rewrite <- Hn; now apply in_map).
  apply in_map_iff in Hin as (u & Hu & Hin).
  rewrite List.Forall_forall in H. rewrite <- Hu. now apply H.
Qed.

Lemma rebuildCatData_loop_covered (names : list string) (source : list Event) :
  forall (indivObs : list RooRealVar) (acc : list Event),
    map varName indivObs = names ->
    Forall (fun e =>
              Forall (fun v => lookup_value (varName v) (values e) <> None) indivObs)
           source ->
    fst (rebuildCatData_loop source indivObs acc)
      = (acc ++ map (project names) source)%list /\
    map varName (snd (rebuildCatData_loop source indivObs acc)) = names /\
    (forall e : Event,
        last source = Some e ->
        current_values (snd (rebuildCatData_loop source indivObs acc))
          = restrict names (values e)) /\
    (source = [] -> snd (rebuildCatData_loop source indivObs acc) = indivObs).
Proof.
  induction source as [|e rest IH]; intros indivObs acc Hn Hcov;
    cbn [rebuildCatData_loop].
  - rewrite app_nil_r. repeat split; [exact Hn | discriminate].
  - apply Forall_cons_1 in Hcov as [He Hrest].
    assert (Hn' : map varName (assign indivObs (values e)) = names)
      by now rewrite assign_names.
    assert (Hrest' :
      Forall (fun e0 =>
                Forall (fun v => lookup_value (varName v) (values e0) <> None)
                       (assign indivObs (values e))) rest).
    { eapply Forall_impl; [exact Hrest|]. intros e0 H0.
      apply (Forall_covered_names indivObs); [|exact H0].
      now rewrite assign_names. }
    destruct (IH (assign indivObs (values e))
                 (acc ++ [{| values := current_values (assign indivObs (values e));
                             weight := weight e |}])%list Hn' Hrest')
      as (Hev & Hnames & Hlast & Hempty).
    repeat split.
    + rewrite Hev, <- app_assoc. cbn [map app]. unfold project at 2.
      now rewrite (assign_covered _ _ He), Hn.
    + exact Hnames.
    + intros e' He'. destruct rest as [|e2 rest].
      * rewrite (Hempty eq_refl). injection He' as <-.
        now rewrite (assign_covered _ _ He), Hn.
      * apply Hlast. rewrite <- He'. now rewrite last_cons_cons.
    + discriminate.
Qed.

(** X13. [rebuildCatData] projects: when every row of the source holds
    all observables of the channel, each new event is the source event
    cut down to the observables, with its weight; the values the
    observables had before the call play no part, and after the call the
    observables are left at the values of the last event. *)
Theorem rebuildCatData_projects :
  forall (datai : RooDataSet) (indivObs : list RooRealVar),
    rows_cover indivObs datai ->
    let names := map varName indivObs in
    let dataNew := fst (rebuildCatData datai indivObs) in
    let obsAfter := snd (rebuildCatData datai indivObs) in
    GetName dataNew = GetName datai +:+ PDFPOSTFIX /\
    events dataNew = map (project names) (events datai) /\
    map varName obsAfter = names /\
    (forall e : Event,
        last (events datai) = Some e ->
        current_values obsAfter = restrict names (values e)) /\
    (events datai = [] -> obsAfter = indivObs).
Proof.
  intros datai indivObs Hcov names dataNew obsAfter.
  destruct (rebuildCatData_loop_covered names (events datai) indivObs []
              eq_refl Hcov) as (Hev & Hn & Hlast & Hempty).
  subst dataNew obsAfter. unfold rebuildCatData.
  destruct (rebuildCatData_loop (events datai) indivObs []) as [evs obs'].
  cbn [fst snd] in *. repeat split; assumption.
Qed.

Lemma rebuildCatData_projects_witness :
  rows_cover [Sample.x] Sample.low_pair /\
  events (fst (rebuildCatData Sample.low_pair [Sample.x]))
    = events Sample.low_pair /\
  current_values (snd (rebuildCatData Sample.low_pair [Sample.x]))
    = [("x", 3 # 8)].
Proof.
  assert (H : rows_cover [Sample.x] Sample.low_pair).
  { repeat constructor; discriminate. }
  split; [exact H|].
  destruct (rebuildCatData_projects Sample.low_pair [Sample.x] H)
    as (_ & Hev & _ & Hlast & _).
  split; [exact Hev|]. exact (Hlast _ eq_refl).
Defined.

Lemma lookup_restrict (names : list string) (row : list (string * Q)) (n : string) :
  In n names ->
  lookup_value n (restrict names row) = Some (default 0%Q (lookup_value n row)).
Proof.
  induction names as [|m names IH]; intros Hin; [destruct Hin|].
  cbn [restrict map lookup_value].
  destruct (String.eqb_spec m n) as [-> | Hne]; [reflexivity|].
  destruct Hin as [-> | Hin]; [now elim Hne|]. now apply IH.
Qed.

Lemma restrict_restrict (names : list string) (row : list (string * Q)) :
  restrict names (restrict names row) = restrict names row.
Proof.
  unfold restrict at 1 3. apply map_ext_in. intros n Hn.
  now rewrite (lookup_restrict names row n Hn).
Qed.

(** X14. Rebuilding a rebuilt dataset changes no event: with rows that
    hold all observables, a second [rebuildCatData] over observables of
    the same names returns the events of the first, whatever values the
    observables carry in between. *)
Theorem rebuildCatData_twice :
  forall (datai : RooDataSet) (indivObs indivObs' : list RooRealVar),
    rows_cover indivObs datai ->
    map varName indivObs' = map varName indivObs ->
    let dataNew := fst (rebuildCatData datai indivObs) in
    rows_cover indivObs' dataNew /\
    events (fst (rebuildCatData dataNew indivObs')) = events dataNew /\
    GetName (fst (rebuildCatData dataNew indivObs'))
      = (GetName datai +:+ PDFPOSTFIX) +:+ PDFPOSTFIX.
Proof.
  intros datai indivObs indivObs' Hcov Hn dataNew.
  destruct (rebuildCatData_projects datai indivObs Hcov) as (Hname & Hev & _).
  fold dataNew in Hname, Hev.
  assert (Hcov' : rows_cover indivObs' dataNew).
  { unfold rows_cover. rewrite Hev. apply Forall_forall. intros e He.
    apply list_elem_of_In, in_map_iff in He as (e0 & <- & _).
    apply Forall_forall. intros v Hv. cbn [project values].
    rewrite lookup_restrict; [discriminate|].
    rewrite <- Hn. apply in_map. now apply list_elem_of_In. }
  split; [exact Hcov'|].
  destruct (rebuildCatData_projects dataNew indivObs' Hcov') as (Hname2 & Hev2 & _).
  split; [|now rewrite Hname2, Hname].
  rewrite Hev2, Hev, map_map, Hn. apply map_ext. intros e.
  unfold project. cbn [values weight]. now rewrite restrict_restrict.
Qed.

Lemma rebuildCatData_twice_witness :
  rows_cover [Sample.x] Sample.five_and_a_half /\
  events (fst (rebuildCatData (fst (rebuildCatData Sample.five_and_a_half [Sample.x]))
                 [Sample.x]))
    = events (fst (rebuildCatData Sample.five_and_a_half [Sample.x])).
Proof.
  assert (H : rows_cover [Sample.x] Sample.five_and_a_half).
  { repeat constructor; discriminate. }
  split; [exact H|].
  exact (proj1 (proj2 (rebuildCatData_twice Sample.five_and_a_half
                         [Sample.x] [Sample.x] H eq_refl))).
Defined.

(** ** The datasets the channel loop collects *)

Lemma makeWorkspace_channel_data
    (sum_of_weights : list Q -> Q)
    (createHistogram : RooDataSet -> string -> RooRealVar -> Z -> Q -> Q -> TH1)
    (m_reBin : Z) (m_mc : ModelConfig) (ch : Channel) (w w1 : SubWorkspace) :
  makeWorkspace_channel sum_of_weights createHistogram m_reBin m_mc ch w = Ok w1 ->
  exists r : DatasetResult,
    makeWorkspace_dataset sum_of_weights createHistogram m_reBin
      (datai_of ch) (indivObs_of ch) = Ok r /\
    subDataMap w1 = <[channelName ch := newData r]> (subDataMap w).
Proof.
  unfold makeWorkspace_channel.
  destruct (classify_params m_mc (indivNuis_of ch) (subSets w)) as [sets|f];
    cbn [bind]; [|discriminate].
  destruct (makeWorkspace_dataset sum_of_weights createHistogram m_reBin
              (datai_of ch) (indivObs_of ch)) as [r|f]; cbn [bind]; [|discriminate].
  intros [= <-]. now exists r.
Qed.

Lemma makeWorkspace_channels_other_label
    (sum_of_weights : list Q -> Q)
    (createHistogram : RooDataSet -> string -> RooRealVar -> Z -> Q -> Q -> TH1)
    (m_reBin : Z) (m_mc : ModelConfig) (label : string) (channels : list Channel) :
  forall w w' : SubWorkspace,
    makeWorkspace_channels sum_of_weights createHistogram m_reBin m_mc channels w
      = Ok w' ->
    ~ In label (map channelName channels) ->
    subDataMap w' !! label = subDataMap w !! label.
Proof.
  induction channels as [|ch rest IH]; intros w w' Hrun Hout;
    cbn [makeWorkspace_channels] in Hrun.
  - now injection Hrun as <-.
  - destruct (makeWorkspace_channel sum_of_weights createHistogram m_reBin m_mc ch w)
      as [w1|f] eqn:Hch; cbn [bind] in Hrun; [|discriminate].
    apply makeWorkspace_channel_data in Hch as (r & _ & Hmap).
    cbn [map] in Hout.
    rewrite (IH w1 w' Hrun) by (intros Hin; apply Hout; now right).
    rewrite Hmap. apply lookup_insert_ne. intros Heq. apply Hout. now left.
Qed.



(** ** Histogram data turned into a dataset *)

Lemma histToDataset_loop_rebuildCatData (bins : list Event) :
  forall (obsi : list RooRealVar) (data : list Event),
    histToDataset_loop bins obsi data = rebuildCatData_loop bins obsi data.
Proof.
  induction bins as [|b rest IH]; intros obsi data;
    cbn [histToDataset_loop rebuildCatData_loop]; [reflexivity | apply IH].
Qed.

Lemma rebuildCatData_loop_names (source : list Event) :
  forall (indivObs : list RooRealVar) (acc : list Event),
    map varName (snd (rebuildCatData_loop source indivObs acc))
      = map varName indivObs.
Proof.
  induction source as [|e rest IH]; intros indivObs acc;
    cbn [rebuildCatData_loop]; [reflexivity|].
  now rewrite IH, assign_names.
Qed.

Lemma RooArgSet_find_names_var (set : list RooRealVar) (n : string) :
  match RooArgSet_find set n with
  | Some _ => existsb (String.eqb n) (map GetName set) = true
  | None => existsb (String.eqb n) (map GetName set) = false
  end.
Proof.
  unfold RooArgSet_find.
  induction set as [|b set IH]; [reflexivity|].
  cbn [List.find map existsb]. rewrite (String.eqb_sym n (GetName b)).
  destruct (String.eqb (GetName b) n); [reflexivity|].
  cbn [orb]. exact IH.
Qed.

Lemma RooArgSet_add_names_var (set : list RooRealVar) (a : RooRealVar) :
  map GetName (RooArgSet_add set a) = add_name (map GetName set) (GetName a).
Proof.
  unfold RooArgSet_add, add_name.
  pose proof (RooArgSet_find_names_var set (GetName a)) as H.
  destruct (RooArgSet_find set (GetName a)); rewrite H; [reflexivity|].
  now rewrite map_app.
Qed.

Lemma RooArgSet_add_all_names (obsi : list RooRealVar) :
  forall set : list RooRealVar,
    map GetName (fold_left RooArgSet_add obsi set)
      = fold_left add_name (map GetName obsi) (map GetName set).
Proof.
  induction obsi as [|a obsi IH]; intros set; cbn [fold_left map]; [reflexivity|].
  now rewrite IH, RooArgSet_add_names_var.
Qed.

Lemma histToDataset_channel_facts (st : Converted) (ch : HistChannel) :
  map GetName (Observables (histToDataset_channel st ch))
    = fold_left add_name (map varName (obsi_of ch)) (map GetName (Observables st)) /\
  datasetMap (histToDataset_channel st ch)
    = <[histLabel ch :=
          {| dataName := GetName (histi_of ch) +:+ "_convert";
             events := events (fst (rebuildCatData (histi_of ch) (obsi_of ch))) |}]>
        (datasetMap st).
Proof.
  unfold histToDataset_channel, rebuildCatData.
  rewrite histToDataset_loop_rebuildCatData.
  pose proof (rebuildCatData_loop_names (events (histi_of ch)) (obsi_of ch) []) as Hn.
  destruct (rebuildCatData_loop (events (histi_of ch)) (obsi_of ch) [])
    as [data obsi]. cbn [fst snd Observables datasetMap events] in *.
  split; [|reflexivity].
  rewrite RooArgSet_add_all_names. now rewrite <- Hn.
Qed.

Lemma histToDataset_fold_names (channels : list HistChannel) :
  forall st : Converted,
    map GetName (Observables (fold_left histToDataset_channel channels st))
      = fold_left add_name
          (concat (map (fun ch => map varName (obsi_of ch)) channels))
          (map GetName (Observables st)).
Proof.
  induction channels as [|ch rest IH]; intros st; cbn [fold_left map concat];
    [reflexivity|].
  rewrite IH, fold_left_app.
  now rewrite (proj1 (histToDataset_channel_facts st ch)).
Qed.

Lemma histToDataset_fold_other_label (label : string) (channels : list HistChannel) :
  forall st : Converted,
    ~ In label (map histLabel channels) ->
    datasetMap (fold_left histToDataset_channel channels st) !! label
      = datasetMap st !! label.
Proof.
  induction channels as [|ch rest IH]; intros st Hout; cbn [fold_left];
    [reflexivity|].
  cbn [map] in Hout.
  rewrite IH by (intros Hin; apply Hout; now right).
  rewrite (proj2 (histToDataset_channel_facts st ch)).
  apply lookup_insert_ne. intros Heq. apply Hout. now left.
Qed.

(** X16. [histToDataset] turns the histogram of each category into a
    dataset the way [rebuildCatData] would, apart from the name: the
    entry under the label is named after the histogram with [_convert]
    added, its events are those [rebuildCatData] makes from the same rows,
    so there is one event per bin, empty bins included, with the weight
    of the bin.  The observables collected over the categories are the
    observables of the categories by name, each name once, in the order
    of their first appearance. *)
Theorem histToDataset_converts :
  forall (channels pre post : list HistChannel) (ch : HistChannel),
    channels = (pre ++ ch :: post)%list ->
    ~ In (histLabel ch) (map histLabel post) ->
    map GetName (Observables (histToDataset_channels channels))
      = first_occurrences
          (concat (map (fun c => map varName (obsi_of c)) channels)) /\
    exists data : RooDataSet,
      datasetMap (histToDataset_channels channels) !! histLabel ch = Some data /\
      GetName data = GetName (histi_of ch) +:+ "_convert" /\
      events data = events (fst (rebuildCatData (histi_of ch) (obsi_of ch))) /\
      weights data = weights (histi_of ch) /\
      numEntries data = numEntries (histi_of ch).
Proof.
  intros channels pre post ch -> Hpost. split.
  - unfold histToDataset_channels, first_occurrences.
    now rewrite histToDataset_fold_names.
  - unfold histToDataset_channels. rewrite fold_left_app. cbn [fold_left].
    rewrite (histToDataset_fold_other_label _ _ _ Hpost).
    rewrite (proj2 (histToDataset_channel_facts _ ch)), lookup_insert_eq.
    eexists. split; [reflexivity|]. cbn [GetName RooDataSet_named dataName events].
    split; [reflexivity|]. split; [reflexivity|].
    pose proof (rebuildCatData_loop_weights (events (histi_of ch)) (obsi_of ch) [])
      as Hw.
    unfold weights, numEntries, rebuildCatData. cbn [events].
    destruct (rebuildCatData_loop (events (histi_of ch)) (obsi_of ch) [])
      as [data obsi]. cbn [fst events app] in *.
    split; [exact Hw|].
    f_equal. rewrite <- (length_map weight data), Hw. apply length_map.
Qed.

Lemma histToDataset_converts_witness :
  exists data : RooDataSet,
    datasetMap (histToDataset_channels [sample_hist]) !! "SR" = Some data /\
    GetName data = GetName Sample.low_pair +:+ "_convert" /\
    weights data = weights Sample.low_pair.
Proof.
  destruct (histToDataset_converts [sample_hist] [] [] sample_hist eq_refl
              (fun H => H)) as (_ & data & Hd & Hn & _ & Hw & _).
  exists data. repeat split; assumption.
Defined.

(** ** Construction *)

Lemma splitter_new_Ok_inv
    (TFile_Open : string -> option Input.TFile)
    (combData_events : RooCategory -> RooDataSet -> outcome (list Event))
    (inputFileName outputFileName wsName mcName dataName : string)
    (st : Members) (log : list LogLine) :
  splitter_new TFile_Open combData_events
    inputFileName outputFileName wsName mcName dataName = Ok (st, log) ->
  exists (mc : Input.ModelConfig) (data : RooAbsData),
    config_at TFile_Open inputFileName wsName mcName = Some mc /\
    Input.GetPdf mc = Some (SimultaneousPdf (m_pdf st)) /\
    data_at TFile_Open inputFileName wsName dataName = Some data /\
    indexCat (m_pdf st) = Live (m_cat st) /\
    m_numChannels st = numBins (m_cat st) /\
    GetConditionalObservables (m_mc st) = Input.GetConditionalObservables mc /\
    GetName (m_data st) = GetName data /\
    m_reBin st = (-1)%Z /\ m_rebuildPdf st = false /\ m_editRFV st = (-1)%Z.
Proof.
  unfold splitter_new, config_at, data_at, workspace_at.
  destruct (TFile_Open inputFileName) as [file|]; [|discriminate].
  destruct (Input.Get file !! wsName) as [ws|]; [|discriminate].
  destruct (Input.obj ws !! mcName) as [mc|]; [|discriminate].
  destruct (Input.GetNuisanceParameters mc) as [nuis|]; [|discriminate].
  destruct (Input.GetGlobalObservables mc) as [gobs|]; [|discriminate].
  destruct (Input.GetParametersOfInterest mc) as [poi|]; [|discriminate].
  destruct (Input.GetPdf mc) as [pdf|] eqn:Hpdf; [|discriminate].
  destruct (Input.data ws !! dataName) as [data|]; [|discriminate].
  intros H. exists mc, data.
  destruct pdf as [p | name]; cbn [dynamic_cast_RooSimultaneous buildSimPdf] in H;
    [|discriminate].
  destruct (indexCat p) as [cat|] eqn:Hcat; [|discriminate].
  destruct data as [d | h]; cbn [dynamic_cast_RooDataSet bind] in H.
  - injection H as <- _. cbn. repeat split; try reflexivity; assumption.
  - destruct (combData_events cat (rows (DataHist h))) as [combData|f];
      cbn [bind] in H; [|discriminate].
    injection H as <- _. cbn. repeat split; try reflexivity; assumption.
Qed.

Lemma string_app_not_self (s t : string) : t <> "" -> s <> s +:+ t.
Proof.
  intros Ht H. apply (f_equal String.length) in H.
  rewrite string_app_length in H. destruct t; [now elim Ht|].
  cbn [String.length] in H. lia.
Qed.

(** X19. A splitter used as constructed never rebins and never rewrites
    a formula: with the bin count the constructor sets, the dataset step
    rebuilds every dataset directly, whatever its entries and weights;
    the mode the constructor sets does not pass the guard of the formula
    pass, and [editRFV] at that mode returns no new formula. *)
Theorem splitter_new_defaults :
  forall (TFile_Open : string -> option Input.TFile)
         (combData_events : RooCategory -> RooDataSet -> outcome (list Event))
         (inputFileName outputFileName wsName mcName dataName : string)
         (st : Members) (log : list LogLine),
    splitter_new TFile_Open combData_events
      inputFileName outputFileName wsName mcName dataName = Ok (st, log) ->
    (forall (sum_of_weights : list Q -> Q)
            (createHistogram : RooDataSet -> string -> RooRealVar -> Z -> Q -> Q -> TH1)
            (datai : RooDataSet) (indivObs : list RooRealVar),
        makeWorkspace_dataset sum_of_weights createHistogram (m_reBin st)
          datai indivObs = Ok (directRebuild datai indivObs)) /\
    (m_editRFV st >=? 0)%Z = false /\
    (forall (TMath_Sort : list nat -> list nat)
            (varName formExpr : string) (dependents : list RooAbsArg),
        editRFV TMath_Sort (m_editRFV st)
          (RooFormulaVar varName formExpr dependents) = Ok None).
Proof.
  intros Open cE inputFileName outputFileName wsName mcName dataName st log Hnew.
  apply splitter_new_Ok_inv in Hnew
    as (mc & data & _ & _ & _ & _ & _ & _ & _ & Hbin & _ & Hmode).
  rewrite Hbin, Hmode. split; [reflexivity|]. split; [reflexivity|].
  intros Sort n e ds.
  apply (editRFV_outcome_all Sort (-1) (RooFormulaVar n e ds)).
  unfold rewrites. cbn [Z.leb Z.compare].
  now rewrite Tauto.if_same, andb_false_r.
Qed.

Lemma splitter_new_defaults_witness :
  exists (st : Members) (log : list LogLine),
    splitter_new Disk.Open Disk.bins_as_events
      "in.root" "out.root" "combWS" "ModelConfig" "obsData" = Ok (st, log) /\
    makeWorkspace_dataset ROOT.sum_exact ROOT.createHistogram (m_reBin st)
      Sample.five_and_a_half [Sample.x]
      = Ok (directRebuild Sample.five_and_a_half [Sample.x]).
Proof.
  destruct (splitter_new Disk.Open Disk.bins_as_events
              "in.root" "out.root" "combWS" "ModelConfig" "obsData")
    as [[st log]|f] eqn:Hnew; [|vm_compute in Hnew; discriminate].
  exists st, log. split; [reflexivity|].
  exact (proj1 (splitter_new_defaults _ _ _ _ _ _ _ _ _ Hnew) _ _ _ _).
Defined.

(** ** The parameters of interest after the replacement *)

Section NamedSets.

Context {Arg : Type} `{TNamed Arg}.

Lemma RooArgSet_find_names_any (set : list Arg) (n : string) :
  match RooArgSet_find set n with
  | Some a => GetName a = n /\ In a set /\
              existsb (String.eqb n) (map GetName set) = true
  | None => existsb (String.eqb n) (map GetName set) = false
  end.
Proof.
  unfold RooArgSet_find.
  induction set as [|b set IH]; [reflexivity|].
  cbn [List.find map existsb]. rewrite (String.eqb_sym n (GetName b)).
  destruct (String.eqb_spec (GetName b) n) as [Hb | Hb].
  - repeat split; [exact Hb | now left].
  - cbn [orb]. destruct (List.find (fun b0 => String.eqb (GetName b0) n) set).
    + destruct IH as (H1 & H2 & H3). repeat split; [exact H1 | now right | exact H3].
    + exact IH.
Qed.

Lemma RooArgSet_add_names_any (set : list Arg) (a : Arg) :
  map GetName (RooArgSet_add set a) = add_name (map GetName set) (GetName a).
Proof.
  unfold RooArgSet_add, add_name.
  pose proof (RooArgSet_find_names_any set (GetName a)) as Hf.
  destruct (RooArgSet_find set (GetName a)).
  - destruct Hf as (_ & _ & ->). reflexivity.
  - rewrite Hf. now rewrite map_app.
Qed.

Lemma RooArgSet_add_present (set : list Arg) (a : Arg) :
  In (GetName a) (map GetName set) -> RooArgSet_add set a = set.
Proof.
  intros Hin. unfold RooArgSet_add.
  pose proof (RooArgSet_find_names_any set (GetName a)) as Hf.
  destruct (RooArgSet_find set (GetName a)); [reflexivity|].
  exfalso. apply in_map_iff in Hin as (b & Hb & Hin).
  assert (Ht : existsb (String.eqb (GetName a)) (map GetName set) = true).
  { apply existsb_exists. exists (GetName b). split; [now apply in_map|].
    rewrite Hb. apply String.eqb_refl. }
  congruence.
Qed.

Lemma RooArgSet_remove_names (set : list Arg) (old : Arg) :
  map GetName (replace_POI.RooArgSet_remove set old)
    = List.filter (differs (GetName old)) (map GetName set).
Proof.
  unfold replace_POI.RooArgSet_remove, differs.
  induction set as [|b set IH]; [reflexivity|].
  cbn [List.filter map]. destruct (String.eqb (GetName b) (GetName old));
    cbn [negb map]; now rewrite IH.
Qed.

End NamedSets.

Lemma filter_differs_absent (v : string) (names : list string) :
  existsb (String.eqb v) names = false -> List.filter (differs v) names = names.
Proof.
  induction names as [|n names IH]; [reflexivity|].
  cbn [existsb List.filter]. unfold differs at 1.
  rewrite (String.eqb_sym n v).
  destruct (String.eqb v n); [discriminate|]. cbn [orb negb].
  intros Hrest. now rewrite IH.
Qed.

Lemma add_name_In (names : list string) (m n : string) :
  In n (add_name names m) <-> In n names \/ n = m.
Proof.
  unfold add_name. destruct (existsb (String.eqb m) names) eqn:E.
  - split; [now left|]. intros [Hin | ->]; [exact Hin|].
    apply existsb_exists in E as (x & Hx & Hm).
    apply String.eqb_eq in Hm. now subst.
  - rewrite in_app_iff. cbn [In]. split.
    + intros [Hin | [<- | []]]; [now left | now right].
    + intros [Hin | ->]; [now left | right; now left].
Qed.

Lemma add_name_NoDup (names : list string) (m : string) :
  List.NoDup names -> List.NoDup (add_name names m).
Proof.
  intros Hnd. unfold add_name. destruct (existsb (String.eqb m) names) eqn:E;
    [exact Hnd|].
  apply NoDup_ListNoDup, NoDup_app. split; [now apply NoDup_ListNoDup|].
  split; [|apply NoDup_singleton].
  intros x Hx Hm. apply list_elem_of_In in Hx.
  apply list_elem_of_In in Hm. destruct Hm as [<- | []].
  assert (Ht : existsb (String.eqb m) names = true).
  { apply existsb_exists. exists m. split; [exact Hx | apply String.eqb_refl]. }
  congruence.
Qed.

Lemma update_POI_names {Arg : Type} `{TNamed Arg} (var : string -> Arg)
    (POI : list Arg) (variable_name channelname : string) :
  map GetName (replace_POI.update_POI var POI variable_name channelname)
    = add_name
        (add_name (List.filter (differs variable_name) (map GetName POI))
                  (GetName (var (replace_POI.combine_name variable_name))))
        (GetName (var (replace_POI.single_name variable_name channelname))).
Proof.
  unfold replace_POI.update_POI.
  rewrite !RooArgSet_add_names_any. do 2 f_equal.
  pose proof (RooArgSet_find_names_any POI variable_name) as Hf.
  destruct (RooArgSet_find POI variable_name) as [old|].
  - destruct Hf as (Hn & _). now rewrite RooArgSet_remove_names, Hn.
  - now rewrite filter_differs_absent.
Qed.

Lemma differs_name_facts (v channelname : string) :
  v <> replace_POI.combine_name v /\ v <> replace_POI.single_name v channelname.
Proof.
  split; apply string_app_not_self; [discriminate|].
  rewrite string_app_cons. discriminate.
Qed.

(** X20. The parameters of interest after the replacement: the name of
    the replaced variable is gone, the names of the two new variables are
    there, every other parameter of interest stays and nothing else comes
    in; no name appears twice.  A workspace without the variable among
    its parameters of interest gets the two new ones all the same. *)
Theorem update_POI_members :
  forall (Arg : Type) (named : TNamed Arg) (var : string -> Arg)
         (POI : list Arg) (variable_name channelname : string),
    (forall n : string, GetName (var n) = n) ->
    List.NoDup (map GetName POI) ->
    List.NoDup
      (map GetName (replace_POI.update_POI var POI variable_name channelname)) /\
    ~ In variable_name
        (map GetName (replace_POI.update_POI var POI variable_name channelname)) /\
    (forall n : string,
        In n (map GetName
                (replace_POI.update_POI var POI variable_name channelname))
        <->
        (In n (map GetName POI) /\ n <> variable_name) \/
        n = replace_POI.combine_name variable_name \/
        n = replace_POI.single_name variable_name channelname).
Proof.
  intros Arg named var POI v ch Hvar Hnd.
  rewrite update_POI_names, !Hvar.
  assert (Hiff : forall n : string,
    In n (add_name (add_name (List.filter (differs v) (map GetName POI))
                             (replace_POI.combine_name v))
                   (replace_POI.single_name v ch))
    <-> (In n (map GetName POI) /\ n <> v) \/
        n = replace_POI.combine_name v \/ n = replace_POI.single_name v ch).
  { intros n. rewrite !add_name_In, filter_In. unfold differs.
    rewrite negb_true_iff, String.eqb_neq. tauto. }
  split; [now apply add_name_NoDup, add_name_NoDup, List.NoDup_filter|].
  split; [|exact Hiff].
  intros Hin. apply Hiff in Hin.
  destruct (differs_name_facts v ch) as [Hc Hs].
  destruct Hin as [[_ Hne] | [Heq | Heq]]; [now elim Hne | now elim Hc | now elim Hs].
Qed.

Lemma update_POI_members_witness :
  map GetName (replace_POI.update_POI Script.var [Script.cHWtil; Sample.x]
                 "cHWtil" "HZZ")
    = ["x"; "cHWtil_combine"; "cHWtil_HZZ"] /\
  ~ In "cHWtil"
      (map GetName (replace_POI.update_POI Script.var [Script.cHWtil; Sample.x]
                      "cHWtil" "HZZ")).
Proof.
  split; [reflexivity|].
  apply (update_POI_members RooRealVar _ Script.var [Script.cHWtil; Sample.x]
           "cHWtil" "HZZ").
  - reflexivity.
  - repeat constructor; cbn; intuition discriminate.
Defined.

Lemma update_POI_fixed {Arg : Type} `{TNamed Arg} (var : string -> Arg)
    (POI : list Arg) (variable_name channelname : string) :
  (forall n : string, GetName (var n) = n) ->
  replace_POI.update_POI var
    (replace_POI.update_POI var POI variable_name channelname)
    variable_name channelname
  = replace_POI.update_POI var POI variable_name channelname.
Proof.
  intros Hvar.
  pose proof (update_POI_names var POI variable_name channelname) as Hn.
  rewrite !Hvar in Hn.
  set (new := replace_POI.update_POI var POI variable_name channelname) in *.
  destruct (differs_name_facts variable_name channelname) as [Hc Hs].
  unfold replace_POI.update_POI at 1.
  pose proof (RooArgSet_find_names_any new variable_name) as Hf.
  destruct (RooArgSet_find new variable_name) as [old|].
  - exfalso. destruct Hf as (_ & _ & Hex).
    apply existsb_exists in Hex as (x & Hx & Heq).
    apply String.eqb_eq in Heq. subst x. rewrite Hn in Hx.
    apply add_name_In in Hx as [Hx | Hx]; [|now elim Hs].
    apply add_name_In in Hx as [Hx | Hx]; [|now elim Hc].
    apply filter_In in Hx as [_ Hx]. unfold differs in Hx.
    now rewrite String.eqb_refl in Hx.
  - rewrite (RooArgSet_add_present new).
    + apply RooArgSet_add_present. rewrite Hvar, Hn.
      apply add_name_In. now right.
    + rewrite Hvar, Hn. apply add_name_In. left. apply add_name_In. now right.
Qed.

(** ** Runs of the script *)

Section ScriptRuns.

Context {Arg : Type} `{TNamed Arg}.
Variable var : string -> Arg.

Local Abbreviation run := (replace_POI.replace_cHWtil_with_product var).

(** What a run writes for a complete ModelConfig. *)
Lemma replace_complete (disk : gmap string (replace_POI.TFile Arg))
    (inputFileName outputFileName workspaceName variable_name channelname : string)
    (mc : replace_POI.ModelConfig Arg) :
  script_config disk inputFileName workspaceName = Some mc ->
  complete mc = true ->
  exists (simPdf : RooSimultaneous) (gobs nuis obs poi : list Arg),
    replace_POI.GetPdf mc = Some (SimultaneousPdf simPdf) /\
    replace_POI.GetGlobalObservables mc = Some gobs /\
    replace_POI.GetNuisanceParameters mc = Some nuis /\
    replace_POI.GetObservables mc = Some obs /\
    replace_POI.GetParametersOfInterest mc = Some poi /\
    run disk inputFileName outputFileName workspaceName variable_name channelname
    = Ok (<[outputFileName :=
              {| replace_POI.Get :=
                   {[ workspaceName :=
                        {| replace_POI.obj :=
                             {[ "ModelConfig" :=
                                  {| replace_POI.GetPdf := Some (SimultaneousPdf simPdf);
                                     replace_POI.GetGlobalObservables := Some gobs;
                                     replace_POI.GetNuisanceParameters := Some nuis;
                                     replace_POI.GetObservables := Some obs;
                                     replace_POI.GetParametersOfInterest :=
                                       Some (replace_POI.update_POI var poi
                                               variable_name channelname);
                                     replace_POI.GetConditionalObservables := None |}
                             ]} |} ]} |}]> disk).
Proof.
  unfold script_config, complete, replace_POI.replace_cHWtil_with_product.
  destruct (disk !! inputFileName) as [file|]; [|discriminate].
  destruct (replace_POI.Get file !! workspaceName) as [ws|]; [|discriminate].
  intros ->.
  destruct (replace_POI.GetPdf mc) as [[simPdf|name]|]; cbn [andb present
    dynamic_cast_RooSimultaneous]; try discriminate.
  destruct (replace_POI.GetGlobalObservables mc) as [gobs|]; [|discriminate].
  destruct (replace_POI.GetNuisanceParameters mc) as [nuis|]; [|discriminate].
  destruct (replace_POI.GetObservables mc) as [obs|]; [|discriminate].
  destruct (replace_POI.GetParametersOfInterest mc) as [poi|]; [|discriminate].
  intros _. now exists simPdf, gobs, nuis, obs, poi.
Qed.

Lemma replace_incomplete (disk : gmap string (replace_POI.TFile Arg))
    (inputFileName outputFileName workspaceName variable_name channelname : string)
    (mc : replace_POI.ModelConfig Arg) :
  script_config disk inputFileName workspaceName = Some mc ->
  complete mc = false ->
  run disk inputFileName outputFileName workspaceName variable_name channelname
    = Fault NullDeref.
Proof.
  unfold script_config, complete, replace_POI.replace_cHWtil_with_product.
  destruct (disk !! inputFileName) as [file|]; [|discriminate].
  destruct (replace_POI.Get file !! workspaceName) as [ws|]; [|discriminate].
  intros ->.
  destruct (replace_POI.GetPdf mc) as [[simPdf|name]|]; cbn [andb present
    dynamic_cast_RooSimultaneous]; try reflexivity.
  destruct (replace_POI.GetGlobalObservables mc) as [gobs|]; [|reflexivity].
  destruct (replace_POI.GetNuisanceParameters mc) as [nuis|]; [|reflexivity].
  destruct (replace_POI.GetObservables mc) as [obs|]; [|reflexivity].
  destruct (replace_POI.GetParametersOfInterest mc) as [poi|]; [|reflexivity].
  discriminate.
Qed.

Lemma replace_nothing (disk : gmap string (replace_POI.TFile Arg))
    (inputFileName outputFileName workspaceName variable_name channelname : string) :
  script_config disk inputFileName workspaceName = None ->
  run disk inputFileName outputFileName workspaceName variable_name channelname
    = Ok disk.
Proof.
  unfold script_config, replace_POI.replace_cHWtil_with_product.
  destruct (disk !! inputFileName) as [file|]; [|reflexivity].
  destruct (replace_POI.Get file !! workspaceName) as [ws|]; [|reflexivity].
  now intros ->.
Qed.

Lemma script_config_insert_eq (disk : gmap string (replace_POI.TFile Arg))
    (fileName workspaceName : string) (mc : replace_POI.ModelConfig Arg) :
  script_config
    (<[fileName :=
         {| replace_POI.Get :=
              {[ workspaceName :=
                   {| replace_POI.obj := {[ "ModelConfig" := mc ]} |} ]} |}]> disk)
    fileName workspaceName = Some mc.
Proof.
  unfold script_config. rewrite lookup_insert_eq. cbn [replace_POI.Get].
  rewrite lookup_singleton_eq. cbn [replace_POI.obj].
  apply lookup_singleton_eq.
Qed.

Lemma script_config_insert_ne (disk : gmap string (replace_POI.TFile Arg))
    (fileName other workspaceName : string) (file : replace_POI.TFile Arg) :
  other <> fileName ->
  script_config (<[other := file]> disk) fileName workspaceName
    = script_config disk fileName workspaceName.
Proof.
  intros Hne. unfold script_config. now rewrite lookup_insert_ne.
Qed.

End ScriptRuns.




